(** * Substance-to-Redshift material importer: catalog scan and graph build

    Shallow embedding of [src/main.py] (classes [TexType], [MatImporter] and
    the event handlers of [ControlWindow]) together with the properties of
    the scan ([load_materials_data]) and of the build
    ([import_loaded_material], [import_all_loaded_materials]).

    Modelling conventions.
    - A Python [str] is the [string] of its UTF-8 bytes. The methods used on
      file names look for ASCII characters only, which UTF-8 keeps apart
      from the bytes of all other characters, so they are functions on
      bytes; the one exception is [str.capitalize], which is spelled out for
      ASCII strings and, for the others, left to the case mapping of the
      interpreter, a component of the platform ([unicode_capitalize]).
    - A Python [dict] is an association list in insertion order ([Dict]);
      iteration follows the list and keys are unique ([unique_keys], kept by
      every operation of the tool).
    - The two-element lists [[path, True]] and [[{}, True]] are records; the
      in-place mutation of an entry reached through the catalog is a store
      update at its key ([Dict.set]).
    - [maya.cmds] is an abstract host: every command may be refused (it
      raises), and the commands issued are recorded in a log, as is the text
      handed to [print].
    - An exception leaves the mutations done so far in place: computations
      return their final world together with either a value or an exception.
    - Of [ControlWindow] the handlers are modelled first by what they do to
      the tool ([handle]), the calls that draw widgets left out, and then as
      written, over the user interface of the host ([Window]); the second
      model is shown to drive the tool as the first says.
    - The arguments of a user-interface command that are the same in every
      call of it (scroll-bar settings, the side of an attachment, the texts
      of the dialogs) are not recorded. *)

From Stdlib Require Import Ascii String.
From stdpp Require Import base decidable option list strings countable finite gmap.

(** ** Python string methods *)

Module PyStr.

(** ASCII case conversion, as [str.upper]/[str.lower] act on one byte. *)
Definition is_lower (c : ascii) : bool :=
  (97 <=? nat_of_ascii c)%nat && (nat_of_ascii c <=? 122)%nat.

Definition is_upper (c : ascii) : bool :=
  (65 <=? nat_of_ascii c)%nat && (nat_of_ascii c <=? 90)%nat.

Definition upper_char (c : ascii) : ascii :=
  if is_lower c then ascii_of_nat (nat_of_ascii c - 32) else c.

Definition lower_char (c : ascii) : ascii :=
  if is_upper c then ascii_of_nat (nat_of_ascii c + 32) else c.

Fixpoint lower (s : string) : string :=
  match s with
  | EmptyString => EmptyString
  | String c s' => String (lower_char c) (lower s')
  end.

(** The string holds ASCII characters only. *)
Fixpoint is_ascii (s : string) : bool :=
  match s with
  | EmptyString => true
  | String c s' => (nat_of_ascii c <? 128)%nat && is_ascii s'
  end.

(** [s.capitalize()] for an ASCII string: first character upper-cased, all
    others lower-cased. *)
Definition capitalize_ascii (s : string) : string :=
  match s with
  | EmptyString => EmptyString
  | String c s' => String (upper_char c) (lower s')
  end.

(** [s.capitalize()]. For a string with other characters the result follows
    the Unicode case mapping of the interpreter (title case for the first
    character, lower case with its context rules for the others), which is
    not spelled out here: [unicode] stands for it. What [str.capitalize]
    returns does not depend on the case of the ASCII letters of [s], so
    [unicode] is asked about [s] with its ASCII letters lowered. *)
Definition capitalize (unicode : string -> string) (s : string) : string :=
  if is_ascii s then capitalize_ascii s else unicode (lower s).

(** [s.startswith(p)]. *)
Fixpoint startswith (s p : string) {struct p} : bool :=
  match p, s with
  | EmptyString, _ => true
  | String _ _, EmptyString => false
  | String a p', String b s' => Ascii.eqb a b && startswith s' p'
  end.

(** [s.endswith(suf)]. *)
Fixpoint endswith (s suf : string) : bool :=
  String.eqb s suf ||
  match s with
  | EmptyString => false
  | String _ s' => endswith s' suf
  end.

(** [s.endswith(t)] for a tuple [t] of suffixes. *)
Definition endswith_any (s : string) (t : list string) : bool :=
  existsb (endswith s) t.

Fixpoint drop (n : nat) (s : string) : string :=
  match n, s with
  | O, _ => s
  | S _, EmptyString => EmptyString
  | S n', String _ s' => drop n' s'
  end.

(** [s.removeprefix(p)]. *)
Definition removeprefix (s p : string) : string :=
  if startswith s p then drop (String.length p) s else s.

(** [s.replace(old, new)] scans left to right; [skip] counts the characters
    of a match that are still to be dropped. *)
Fixpoint replace_from (skip : nat) (old new s : string) : string :=
  match s with
  | EmptyString => EmptyString
  | String c s' =>
      match skip with
      | S k => replace_from k old new s'
      | O =>
          if startswith s old
          then new +:+ replace_from (String.length old - 1) old new s'
          else String c (replace_from 0 old new s')
      end
  end.

(** With an empty [old], Python puts [new] before every character and at
    the end. *)
Fixpoint intersperse (new s : string) : string :=
  match s with
  | EmptyString => new
  | String c s' => new +:+ String c (intersperse new s')
  end.

Definition replace (s old new : string) : string :=
  match old with
  | EmptyString => intersperse new s
  | String _ _ => replace_from 0 old new s
  end.

(** Split at the last occurrence of the character [sep], if any. *)
Fixpoint rsplit_last (sep : ascii) (s : string) : option (string * string) :=
  match s with
  | EmptyString => None
  | String c s' =>
      match rsplit_last sep s' with
      | Some (l, r) => Some (String c l, r)
      | None => if Ascii.eqb c sep then Some (EmptyString, s') else None
      end
  end.

(** [s.rsplit(sep, 1)] for a one-character separator: one or two parts. *)
Definition rsplit1 (s : string) (sep : ascii) : list string :=
  match rsplit_last sep s with
  | Some (l, r) => [l; r]
  | None => [s]
  end.

(** [c in s] for a character. *)
Fixpoint mem (c : ascii) (s : string) : bool :=
  match s with
  | EmptyString => false
  | String a s' => Ascii.eqb a c || mem c s'
  end.

(** [old in s] for a substring. *)
Fixpoint contains (s old : string) : bool :=
  startswith s old ||
  match s with
  | EmptyString => false
  | String _ s' => contains s' old
  end.

End PyStr.

(** ** [os.path] *)

(** The platform-dependent part of [os.path]: which characters separate path
    components, [os.path.join] of two components and [os.path.normcase];
    and, of the interpreter, what [str.capitalize] makes of a string that is
    not ASCII (see [PyStr.capitalize]). *)
Record PathFlavour := {
  is_sep : ascii -> bool;
  join : string -> string -> string;
  normcase : string -> string;
  unicode_capitalize : string -> string
}.

Module OsPath.

Fixpoint has_sep (fl : PathFlavour) (s : string) : bool :=
  match s with
  | EmptyString => false
  | String c s' => is_sep fl c || has_sep fl s'
  end.

(** The part of [s] after its last separator ([s] itself without one). *)
Fixpoint after_last_sep (fl : PathFlavour) (s : string) : string :=
  match s with
  | EmptyString => EmptyString
  | String c s' =>
      if has_sep fl s' then after_last_sep fl s'
      else if is_sep fl c then s' else s
  end.

Fixpoint all_dots (s : string) : bool :=
  match s with
  | EmptyString => true
  | String c s' => Ascii.eqb c "." && all_dots s'
  end.

(** [os.path.splitext]: split at the last dot, provided that it comes after
    the last separator and that the component holds a character other than a
    dot before it; leading dots do not start an extension. *)
Definition splitext (fl : PathFlavour) (p : string) : string * string :=
  match PyStr.rsplit_last "." p with
  | Some (root, ext) =>
      if has_sep fl ext then (p, EmptyString)
      else if all_dots (after_last_sep fl root) then (p, EmptyString)
      else (root, String "." ext)
  | None => (p, EmptyString)
  end.

(** [posixpath.join] of two components. *)
Definition posix_join (a b : string) : string :=
  if PyStr.startswith b "/" then b
  else if String.eqb a "" || PyStr.endswith a "/" then a +:+ b
  else a +:+ "/" +:+ b.

(** [posixpath]: the separator is the slash and [normcase] changes nothing.
    The names of the examples are ASCII, so that the last component is never
    consulted; it is the identity. *)
Definition posixpath : PathFlavour :=
  {| is_sep := fun c => Ascii.eqb c "/";
     join := posix_join;
     normcase := fun p => p;
     unicode_capitalize := fun s => s |}.

End OsPath.

(** ** Texture kinds *)

(** [class TexType(Enum)], in declaration order. *)
Inductive TexType :=
  BaseColor | Metallic | Normal | Roughness | Emissive | Height.

#[global] Instance TexType_eq_dec : EqDecision TexType.
Proof. solve_decision. Defined.

Definition TexType_members : list TexType :=
  [BaseColor; Metallic; Normal; Roughness; Emissive; Height].

#[global, program] Instance TexType_finite : Finite TexType :=
  {| enum := TexType_members |}.
Next Obligation. by apply (bool_decide_unpack _). Qed.
Next Obligation. intros x. apply list_elem_of_In. destruct x; simpl; tauto. Qed.

Module TexTypeM.

(** [tex_type.name]. *)
Definition name (t : TexType) : string :=
  match t with
  | BaseColor => "BaseColor"
  | Metallic => "Metallic"
  | Normal => "Normal"
  | Roughness => "Roughness"
  | Emissive => "Emissive"
  | Height => "Height"
  end.

(** [tex_type.value]: the shader input the kind is connected to. *)
Definition value (t : TexType) : string :=
  match t with
  | BaseColor => "diffuse_color"
  | Metallic => "refl_metalness"
  | Normal => "bump_input"
  | Roughness => "refl_roughness"
  | Emissive => "emissive_not_implemented"
  | Height => "height_not_implemented"
  end.

(** [TexType[key]]: the member of that exact name; [None] stands for the
    [KeyError] of the enumeration. *)
Definition getitem (key : string) : option TexType :=
  find (fun t => String.eqb (name t) key) TexType_members.

End TexTypeM.

(** ** Python dictionaries *)

Module Dict.

Section Ops.
Context {V : Type}.

(** Keys and values in insertion order. *)
Definition t := list (string * V).

(** [d.get(k)]. *)
Fixpoint get (d : list (string * V)) (k : string) : option V :=
  match d with
  | [] => None
  | (k', v) :: d' => if String.eqb k' k then Some v else get d' k
  end.

(** [d[k] = v]: an existing key keeps its place, a new key goes last. *)
Fixpoint set (d : list (string * V)) (k : string) (v : V) : list (string * V) :=
  match d with
  | [] => [(k, v)]
  | (k', v') :: d' =>
      if String.eqb k' k then (k', v) :: d' else (k', v') :: set d' k v
  end.

(** [d.setdefault(k, v)]: the dictionary afterwards and the value returned. *)
Definition setdefault (d : list (string * V)) (k : string) (v : V)
  : list (string * V) * V :=
  match get d k with
  | Some v' => (d, v')
  | None => (d ++ [(k, v)], v)
  end.

Definition keys (d : list (string * V)) : list string := map fst d.

End Ops.

End Dict.

(** ** The catalog *)

(** [[path, True]]: a texture file and its import tag. *)
Record TexEntry := {
  tex_file : string;
  tex_import : bool
}.

(** [[{}, True]]: the textures of a material and its import tag. *)
Record MatEntry := {
  mat_textures : list (string * TexEntry);
  mat_import : bool
}.

(** ** The host application *)

(** Exceptions that the modelled code can raise or let through. *)
Inductive exn := ValueError | KeyError | IndexError | RuntimeError | OSError.

Inductive result (A : Type) :=
| Ok (a : A)
| Raise (e : exn).
Arguments Ok {A} a.
Arguments Raise {A} e.

(** The kind flag passed to [cmds.shadingNode]. *)
Inductive NodeClass :=
| asShader
| asTexture (isColorManaged : bool)
| asUtility.

Inductive AttrValue :=
| VString (s : string)
| VInt (n : Z).

(** The [maya.cmds] commands the importer issues, with the arguments that
    vary; [sets] always creates an empty renderable set without surface
    shader, [defaultNavigation] always connects to the existing node and
    [ls_sl] is [cmds.ls(sl=True)]. *)
Inductive Call :=
| shadingNode (type : string) (cls : NodeClass) (name : string)
| sets (name : string)
| connectAttr (src dst : string) (force : bool)
| setAttr (attr : string) (v : AttrValue)
| defaultNavigation (source destination : string)
| ls_sl.

(** What the outside world sees: host commands and text printed. *)
Inductive Event :=
| Cmd (c : Call)
| Stdout (text : string).

(** A host with state [H]. [shadingNode] answers with the name of the node it
    created, [ls_sl] with the selected nodes, the other commands with nothing
    the importer uses; [None] and [false] mean that the command raised. *)
Record Maya (H : Type) := {
  maya_shadingNode : string -> NodeClass -> string -> H -> option string * H;
  maya_exec : Call -> H -> bool * H;
  maya_ls_sl : H -> option (list string) * H
}.
Arguments maya_shadingNode {H} _ _ _ _ _.
Arguments maya_exec {H} _ _ _.
Arguments maya_ls_sl {H} _ _.

(** ** The importer *)

Section Importer.

Context {H : Type}.
Variable maya : Maya H.
Variable fl : PathFlavour.

(** The state the tool runs in: the fields of the [MatImporter] instance, the
    host, the directory listings [listdir] answers with ([None]: it raises)
    and the events so far, oldest first. *)
Record World := {
  loaded_mats : list (string * MatEntry);
  texture_type_filter : gset TexType;
  host : H;
  fs : string -> option (list string);
  log : list Event
}.

Definition with_mats (m : list (string * MatEntry)) (w : World) : World :=
  {| loaded_mats := m; texture_type_filter := texture_type_filter w;
     host := host w; fs := fs w; log := log w |}.

Definition with_filter (f : gset TexType) (w : World) : World :=
  {| loaded_mats := loaded_mats w; texture_type_filter := f;
     host := host w; fs := fs w; log := log w |}.

Definition with_host (h : H) (w : World) : World :=
  {| loaded_mats := loaded_mats w; texture_type_filter := texture_type_filter w;
     host := h; fs := fs w; log := log w |}.

Definition emit (e : Event) (w : World) : World :=
  {| loaded_mats := loaded_mats w; texture_type_filter := texture_type_filter w;
     host := host w; fs := fs w; log := log w ++ [e] |}.

(** Computations: a value or an exception, and the world left behind. *)
Definition M (A : Type) : Type := World -> result A * World.

Definition ret {A} (a : A) : M A := fun w => (Ok a, w).

Definition raise {A} (e : exn) : M A := fun w => (Raise e, w).

Definition bind {A B} (m : M A) (k : A -> M B) : M B :=
  fun w =>
    match m w with
    | (Ok a, w') => k a w'
    | (Raise e, w') => (Raise e, w')
    end.

#[global] Instance M_ret : MRet M := @ret.
#[global] Instance M_bind : MBind M := fun A B k m => bind m k.

(** Reading a field of the world, and changing the world. *)
Definition gets {A} (f : World -> A) : M A := fun w => (Ok (f w), w).

Definition modify (f : World -> World) : M unit := fun w => (Ok tt, f w).

(** A [for] loop over a list, left when the body raises. *)
Fixpoint for_each {A} (l : list A) (body : A -> M unit) : M unit :=
  match l with
  | [] => ret tt
  | x :: l' => body x ;; for_each l' body
  end.

(** *** Host commands *)

Definition cmds_shadingNode (type : string) (cls : NodeClass) (name : string)
  : M string :=
  fun w =>
    let w1 := emit (Cmd (shadingNode type cls name)) w in
    match maya_shadingNode maya type cls name (host w) with
    | (Some node, h) => (Ok node, with_host h w1)
    | (None, h) => (Raise RuntimeError, with_host h w1)
    end.

Definition cmds_exec (c : Call) : M unit :=
  fun w =>
    let w1 := emit (Cmd c) w in
    match maya_exec maya c (host w) with
    | (true, h) => (Ok tt, with_host h w1)
    | (false, h) => (Raise RuntimeError, with_host h w1)
    end.

Definition cmds_ls_sl : M (list string) :=
  fun w =>
    let w1 := emit (Cmd ls_sl) w in
    match maya_ls_sl maya (host w) with
    | (Some sel, h) => (Ok sel, with_host h w1)
    | (None, h) => (Raise RuntimeError, with_host h w1)
    end.

Definition print (text : string) : M unit := modify (emit (Stdout text)).

Definition listdir (folder_path : string) : M (list string) :=
  fun w =>
    match fs w folder_path with
    | Some files => (Ok files, w)
    | None => (Raise OSError, w)
    end.

(** *** Class constants *)

Definition _PREFIX : string := "Mesh_".
Definition _SUFFIX : string := "_mat".
Definition _EXTENSIONS : list string := [".png"; ".bmp"; ".jpeg"; ".jpg"].

Definition _FILE_NODE_SIMPLE_BINDS : list string :=
  ["coverage"; "wrapU"; "mirrorU"; "mirrorV"; "vertexUvOne"; "vertexCameraOne";
   "rotateFrame"; "offset"; "repeatUV"; "wrapV"; "noiseUV"; "stagger";
   "vertexUvTwo"; "translateFrame"; "vertexUvThree"; "rotateUV"].

Definition _FILE_NODE_UNIQUE_BINDS : list (string * string) :=
  [("outUV", "uv"); ("outUvFilterSize", "uvFilterSize")].

(** *** [MatImporter.__init__] and [delete_materials_data] *)

Definition initial_filter : gset TexType :=
  list_to_set TexType_members ∖ {[Emissive]} ∖ {[Height]}.

Definition init (h : H) (files : string -> option (list string)) : World :=
  {| loaded_mats := []; texture_type_filter := initial_filter;
     host := h; fs := files; log := [] |}.

Definition delete_materials_data : M unit := modify (with_mats []).

(** *** [load_materials_data] *)

(** The base name without extension, prefix and suffix, split at its last
    underscore; the assignment to [mat_name, tex_name] raises [ValueError]
    unless the split has two parts. *)
Definition split_names (file : string) : result (string * string) :=
  match
    PyStr.rsplit1
      (PyStr.replace
         (PyStr.removeprefix (fst (OsPath.splitext fl file)) _PREFIX)
         _SUFFIX "")
      "_"
  with
  | [mat_name; tex_name] => Ok (mat_name, tex_name)
  | _ => Raise ValueError
  end.

(** [mats.setdefault(key, [{}, True])[0].setdefault(tex_name, [path, True])]:
    the inner dictionary is the one stored in [mats], so its change is
    written back under [key]. *)
Definition add_texture (mats : list (string * MatEntry))
    (key tex_name path : string) : list (string * MatEntry) :=
  let '(mats1, entry) :=
    Dict.setdefault mats key {| mat_textures := []; mat_import := true |} in
  let '(texs1, _) :=
    Dict.setdefault (mat_textures entry) tex_name
      {| tex_file := path; tex_import := true |} in
  Dict.set mats1 key {| mat_textures := texs1; mat_import := mat_import entry |}.

(** The body of the loop over the files of the folder. *)
Definition load_file (folder_path file : string) : M unit :=
  if PyStr.endswith_any file _EXTENSIONS then
    match split_names file with
    | Ok (mat_name, tex_name) =>
        modify (fun w =>
          with_mats
            (add_texture (loaded_mats w)
               (PyStr.capitalize (unicode_capitalize fl) mat_name) tex_name
               (normcase fl (join fl folder_path file))) w)
    | Raise e => raise e
    end
  else ret tt.

Definition load_materials_data (folder_path : string) : M unit :=
  files ← listdir folder_path;
  for_each files (load_file folder_path).

(** *** [_create_texture_node] *)

Definition _create_texture_node (name file_name : string) (isRaw : bool)
  : M (string * string) :=
  node_file ← cmds_shadingNode "file" (asTexture true) (name +:+ "_file");
  node_tex ← cmds_shadingNode "place2dTexture" asUtility (name +:+ "_texture");
  for_each _FILE_NODE_SIMPLE_BINDS (fun connection =>
    cmds_exec (connectAttr (node_tex +:+ "." +:+ connection)
                 (node_file +:+ "." +:+ connection) true)) ;;
  for_each _FILE_NODE_UNIQUE_BINDS (fun '(connection_a, connection_b) =>
    cmds_exec (connectAttr (node_tex +:+ "." +:+ connection_a)
                 (node_file +:+ "." +:+ connection_b) false)) ;;
  cmds_exec (setAttr (node_file +:+ ".fileTextureName") (VString file_name)) ;;
  (if isRaw
   then cmds_exec (setAttr (node_file +:+ ".colorSpace") (VString "Raw"))
   else ret tt) ;;
  ret (node_file, node_tex).

(** *** [import_loaded_material] *)

(** The message printed for a texture name that is no [TexType] member. *)
Definition not_supported_message (tex_name material_node file : string)
  : string :=
  tex_name +:+ " texture type is not supported" +:+ String "010" (
  material_node +:+ "_" +:+ tex_name +:+ " was not imported" +:+ String "010" (
  "File: " +:+ file +:+ String "010" EmptyString)).

(** The body of the loop over the textures of the material. *)
Definition import_texture (material_name material_node : string)
    (item : string * TexEntry) : M unit :=
  let '(tex_name, {| tex_file := file; tex_import := is_import |}) := item in
  if negb is_import then ret tt
  else
    match TexTypeM.getitem tex_name with
    | None => print (not_supported_message tex_name material_node file)
    | Some tex_type =>
        filter ← gets texture_type_filter;
        if negb (bool_decide (tex_type ∈ filter)) then ret tt
        else
          '(node_file, node_tex) ←
            _create_texture_node
              (material_name +:+ "_" +:+ TexTypeM.name tex_type) file
              (negb (bool_decide (tex_type = BaseColor)));
          cmds_exec (defaultNavigation node_file
                       (material_node +:+ "." +:+ TexTypeM.value tex_type)) ;;
          match tex_type with
          | Normal =>
              sel ← cmds_ls_sl;
              match sel with
              | bump_node :: _ =>
                  cmds_exec (setAttr (bump_node +:+ ".inputType") (VInt 1))
              | [] => raise IndexError
              end
          | Metallic =>
              cmds_exec (setAttr (material_node +:+ ".refl_fresnel_mode")
                           (VInt 2))
          | _ => ret tt
          end
    end.

Definition import_loaded_material (material_name : string) : M unit :=
  material_node ← cmds_shadingNode "RedshiftMaterial" asShader material_name;
  cmds_exec (sets ("rsMaterial_" +:+ material_node)) ;;
  cmds_exec (connectAttr (material_node +:+ ".outColor")
               ("rsMaterial_" +:+ material_node +:+ ".surfaceShader") false) ;;
  mats ← gets loaded_mats;
  match Dict.get mats material_name with
  | None => raise KeyError
  | Some entry =>
      for_each (mat_textures entry) (import_texture material_name material_node)
  end.

(** *** [import_all_loaded_materials] *)

Definition import_material_item (item : string * MatEntry) : M unit :=
  let '(material_name, {| mat_import := is_import |}) := item in
  if negb is_import then ret tt
  else import_loaded_material material_name.

Definition import_all_loaded_materials : M unit :=
  mats ← gets loaded_mats;
  for_each mats import_material_item.

(** ** [ControlWindow]: what the user can make the tool do *)

(** [toggle(category, value)] of the texture type options box; [set.remove]
    raises [KeyError] for an element that is not in the set. *)
Definition toggle (category : TexType) (value : bool) : M unit :=
  filter ← gets texture_type_filter;
  if value then modify (with_filter (filter ∪ {[category]}))
  else if bool_decide (category ∈ filter)
       then modify (with_filter (filter ∖ {[category]}))
       else raise KeyError.

(** The options box creates one check box per kind and then disables those of
    the kinds that are not implemented. *)
Definition kind_checkbox_enabled (category : TexType) : bool :=
  match category with
  | Emissive | Height => false
  | _ => true
  end.

(** [on_material_toggle_switched]: [data_reference] is the catalog entry of
    the material the check box was drawn for. *)
Definition on_material_toggle_switched (name : string) (state : bool) : M unit :=
  modify (fun w =>
    match Dict.get (loaded_mats w) name with
    | Some data =>
        with_mats
          (Dict.set (loaded_mats w) name
             {| mat_textures := mat_textures data; mat_import := state |}) w
    | None => w
    end).

(** [on_texture_selected]: [data_reference] is the entry of a texture of the
    material whose textures are on display. *)
Definition on_texture_selected (material tex_name : string) (state : bool)
  : M unit :=
  modify (fun w =>
    match Dict.get (loaded_mats w) material with
    | Some data =>
        match Dict.get (mat_textures data) tex_name with
        | Some tex =>
            with_mats
              (Dict.set (loaded_mats w) material
                 {| mat_textures :=
                      Dict.set (mat_textures data) tex_name
                        {| tex_file := tex_file tex; tex_import := state |};
                    mat_import := mat_import data |}) w
        | None => w
        end
    | None => w
    end).

(** User actions, with the answers of the dialogs they open. A change of a
    disabled check box never reaches its callback. *)
Inductive UIEvent :=
| OpenFolder (folder : option string)
| ImportSelected (yes : bool)
| KindToggled (category : TexType) (value : bool)
| MaterialToggled (name : string) (state : bool)
| TextureToggled (material tex_name : string) (state : bool).

Definition handle (ev : UIEvent) : M unit :=
  match ev with
  | OpenFolder (Some folder) => load_materials_data folder
  | OpenFolder None => ret tt
  | ImportSelected yes =>
      mats ← gets loaded_mats;
      match mats with
      | [] => ret tt
      | _ :: _ => if yes then import_all_loaded_materials else ret tt
      end
  | KindToggled category value =>
      if kind_checkbox_enabled category then toggle category value else ret tt
  | MaterialToggled name state => on_material_toggle_switched name state
  | TextureToggled material tex_name state =>
      on_texture_selected material tex_name state
  end.

(** The tool after a sequence of user actions; an exception in a handler is
    reported by the host and the session goes on. *)
Definition run (evs : list UIEvent) (w : World) : World :=
  fold_left (fun w ev => snd (handle ev w)) evs w.

End Importer.

Arguments World H : clear implicits.
Arguments M H A : clear implicits.

(** ** A host for experiments *)

(** The state is the list of answers still to give, [false] for a refusal;
    when it is used up every command is accepted. Nodes get the names asked
    for and the selection is always the node [bump1]. *)
Module FakeMaya.

Definition answer (h : list bool) : bool * list bool :=
  match h with
  | [] => (true, [])
  | b :: h' => (b, h')
  end.

Definition maya : Maya (list bool) :=
  {| maya_shadingNode := fun _ _ name h =>
       let '(b, h') := answer h in ((if b then Some name else None), h');
     maya_exec := fun _ h => answer h;
     maya_ls_sl := fun h =>
       let '(b, h') := answer h in ((if b then Some ["bump1"] else None), h') |}.

Definition folder (files : list string) : string -> option (list string) :=
  fun p => if String.eqb p "/tex" then Some files else None.

(** The tool right after start-up on this host, with [files] in [/tex]. *)
Definition start (answers : list bool) (files : list string)
  : World (list bool) :=
  init answers (folder files).

(** A session in which the catalog has come to be [mats]. *)
Definition session (answers : list bool) (files : list string)
    (mats : list (string * MatEntry)) : World (list bool) :=
  with_mats mats (init answers (folder files)).

End FakeMaya.

(** ** What the properties observe *)

Section Observations.

Context {H : Type}.
Variable fl : PathFlavour.

(** The entry of texture [tex_name] of material [key] in a catalog. *)
Definition tex_lookup (mats : list (string * MatEntry)) (key tex_name : string)
  : option TexEntry :=
  match Dict.get mats key with
  | Some entry => Dict.get (mat_textures entry) tex_name
  | None => None
  end.

(** No key twice, in the catalog and in the textures of each material. *)
Definition unique_keys (mats : list (string * MatEntry)) : Prop :=
  NoDup (Dict.keys mats) ∧
  Forall (λ item, NoDup (Dict.keys (mat_textures (snd item)))) mats.

(** The path the scan stores for [file] of [folder_path]. *)
Definition file_path (folder_path file : string) : string :=
  normcase fl (join fl folder_path file).

(** The scan looks at a file when its name passes the extension test. *)
Definition selected (file : string) : bool :=
  PyStr.endswith_any file _EXTENSIONS.

(** The base name of a file without extension, prefix and suffix mark: what
    the scan splits at the last underscore. *)
Definition stripped (file : string) : string :=
  PyStr.replace
    (PyStr.removeprefix (fst (OsPath.splitext fl file)) _PREFIX) _SUFFIX "".

(** Capitalization as the specification words it: the first letter in upper
    case and the other characters as they are. *)
Definition capitalize_first_only (s : string) : string :=
  match s with
  | EmptyString => EmptyString
  | String c s' => String (PyStr.upper_char c) s'
  end.

(** The material key and the texture name a file is filed under. *)
Definition scan_target (file : string) : option (string * string) :=
  if selected file then
    match split_names fl file with
    | Ok (mat_name, tex_name) =>
        Some (PyStr.capitalize (unicode_capitalize fl) mat_name, tex_name)
    | Raise _ => None
    end
  else None.

(** A file that passes the extension test and whose name does not split. *)
Definition unsplittable (file : string) : bool :=
  selected file &&
  match split_names fl file with
  | Ok _ => false
  | Raise _ => true
  end.

(** The first of [files] that is filed under [key] and [tex_name]. *)
Definition first_filed (files : list string) (key tex_name : string)
  : option string :=
  List.find (fun g => bool_decide (scan_target g = Some (key, tex_name))) files.

(** The names of the materials tagged for import, in catalog order. *)
Definition included (mats : list (string * MatEntry)) : list string :=
  map fst (List.filter (fun item => mat_import (snd item)) mats).

(** The events of [w'] that came after those of [w]. *)
Definition new_events (w w' : World H) : list Event :=
  drop (length (log w)) (log w').

(** The material a shader node is asked for with this event, if any. *)
Definition shader_request (e : Event) : option string :=
  match e with
  | Cmd (shadingNode type asShader name) =>
      if String.eqb type "RedshiftMaterial" then Some name else None
  | _ => None
  end.

Definition shader_requests (l : list Event) : list string :=
  omap shader_request l.

(** The event connects a node to the shader input of kind [k]. *)
Definition wires (k : TexType) (e : Event) : bool :=
  match e with
  | Cmd (defaultNavigation _ destination) =>
      PyStr.endswith destination ("." +:+ TexTypeM.value k)
  | _ => false
  end.

(** Events of the set-up of a sampling node: utility and texture nodes,
    connections and attributes. *)
Definition node_setup (e : Event) : Prop :=
  match e with
  | Cmd (shadingNode _ cls _) => cls ≠ asShader
  | Cmd (connectAttr _ _ _) | Cmd (setAttr _ _) => True
  | _ => False
  end.

(** Events of the adjustments made after a texture is connected. *)
Definition fixup (e : Event) : Prop :=
  match e with
  | Cmd ls_sl | Cmd (setAttr _ (VInt _)) => True
  | _ => False
  end.

(** Events of the build of a material after the request for its shader node,
    with the texture type filter [F]: no further shader node is asked for and
    a connection goes to the shader input of a kind in [F]. *)
Definition build_event (F : gset TexType) (e : Event) : Prop :=
  match e with
  | Cmd (shadingNode _ cls _) => cls ≠ asShader
  | Cmd (defaultNavigation _ destination) =>
      ∃ node k, k ∈ F ∧ destination = node +:+ "." +:+ TexTypeM.value k
  | _ => True
  end.

(** What [_create_texture_node] promises once the file node [nf] is known:
    set-up events only, the color space of [nf] set to raw only if [isRaw]
    holds and, when it returns, [nf] returned, its file name set and its color
    space set to raw if [isRaw] holds. *)
Definition created (file : string) (isRaw : bool) (nf : string)
    (r : result (string * string)) (d : list Event) : Prop :=
  Forall node_setup d ∧
  Forall (λ e, e = Cmd (setAttr (nf +:+ ".colorSpace") (VString "Raw")) →
               isRaw = true) d ∧
  ∀ nf' nt, r = Ok (nf', nt) →
    nf' = nf ∧
    In (Cmd (setAttr (nf +:+ ".fileTextureName") (VString file))) d ∧
    (isRaw = true →
     In (Cmd (setAttr (nf +:+ ".colorSpace") (VString "Raw"))) d).

(** A set-up event that leaves the color space of [nf] alone. *)
Definition plain (nf : string) (e : Event) : Prop :=
  node_setup e ∧ ∀ v, e ≠ Cmd (setAttr (nf +:+ ".colorSpace") v).

(** What holds throughout a session: the filter is free of the two kinds that
    are not implemented and no event wires them. *)
Definition unimplemented_out (w : World H) : Prop :=
  (Emissive ∉ texture_type_filter w) ∧ (Height ∉ texture_type_filter w) ∧
  Forall (λ e, wires Emissive e = false ∧ wires Height e = false) (log w).

(** [emits F m Φ]: run with the texture type filter [F], the computation [m]
    leaves catalog, filter and file system alone and adds to the log a list
    of events that, with the result of [m], satisfies [Φ]. *)
Definition emits {A : Type} (F : gset TexType) (m : M H A)
    (Φ : result A → list Event → Prop) : Prop :=
  ∀ w, texture_type_filter w = F →
    loaded_mats (snd (m w)) = loaded_mats w ∧
    texture_type_filter (snd (m w)) = F ∧
    fs (snd (m w)) = fs w ∧
    ∃ d, log (snd (m w)) = log w ++ d ∧ Φ (fst (m w)) d.

End Observations.

(** ** Command sequences *)

Section Sequences.

(** The commands of [_create_texture_node] when the host names the file node
    [nf] and the placement node [nt]. *)
Definition create_commands (name file_name : string) (isRaw : bool)
    (nf nt : string) : list Event :=
  [Cmd (shadingNode "file" (asTexture true) (name +:+ "_file"));
   Cmd (shadingNode "place2dTexture" asUtility (name +:+ "_texture"))] ++
  map (λ connection,
         Cmd (connectAttr (nt +:+ "." +:+ connection)
                (nf +:+ "." +:+ connection) true))
      _FILE_NODE_SIMPLE_BINDS ++
  map (λ '(connection_a, connection_b),
         Cmd (connectAttr (nt +:+ "." +:+ connection_a)
                (nf +:+ "." +:+ connection_b) false))
      _FILE_NODE_UNIQUE_BINDS ++
  [Cmd (setAttr (nf +:+ ".fileTextureName") (VString file_name))] ++
  (if isRaw
   then [Cmd (setAttr (nf +:+ ".colorSpace") (VString "Raw"))]
   else []).

(** A computation that issues the commands [L] in order and stops at the
    first one the host refuses: the events are the first commands of [L], all
    of them when it returns, and it raises nothing but the error of the
    host. *)
Definition host_run {A : Type} (L : list Event) (r : result A)
    (d : list Event) : Prop :=
  d `prefix_of` L ∧ (∀ a, r = Ok a → d = L) ∧
  (∀ e, r = Raise e → e = RuntimeError).

(** The adjustments that follow the connection of a texture of kind [k],
    [bump_node] being the first node the host reports as selected. *)
Definition fixup_commands (k : TexType) (material_node bump_node : string)
  : list Event :=
  match k with
  | Normal =>
      [Cmd ls_sl; Cmd (setAttr (bump_node +:+ ".inputType") (VInt 1))]
  | Metallic =>
      [Cmd (setAttr (material_node +:+ ".refl_fresnel_mode") (VInt 2))]
  | _ => []
  end.

(** The connection of the file node [nf] to the shader input of kind [k]. *)
Definition connect_command (k : TexType) (material_node nf : string) : Event :=
  Cmd (defaultNavigation nf (material_node +:+ "." +:+ TexTypeM.value k)).

(** The event connects a file node to a shader. *)
Definition is_connection (e : Event) : bool :=
  match e with
  | Cmd (defaultNavigation _ _) => true
  | _ => false
  end.

(** All the commands for one texture of kind [k] of a material. *)
Definition wire_commands (material_name material_node file_name : string)
    (k : TexType) (nf nt bump_node : string) : list Event :=
  create_commands (material_name +:+ "_" +:+ TexTypeM.name k) file_name
    (negb (bool_decide (k = BaseColor))) nf nt ++
  [connect_command k material_node nf] ++
  fixup_commands k material_node bump_node.

(** A host like [FakeMaya.maya] that never has a node selected. *)
Definition maya_without_selection : Maya (list bool) :=
  {| maya_shadingNode := maya_shadingNode FakeMaya.maya;
     maya_exec := maya_exec FakeMaya.maya;
     maya_ls_sl := fun h =>
       let '(b, h') := FakeMaya.answer h in
       ((if b then Some [] else None), h') |}.

(** A texture entry the loop of [import_loaded_material] passes over without
    a word: not tagged for import, or of a kind that the filter [F] leaves
    out. *)
Definition passed_over (F : gset TexType) (item : string * TexEntry) : Prop :=
  tex_import (snd item) = false ∨
  ∃ k, TexTypeM.getitem (fst item) = Some k ∧ k ∉ F.

End Sequences.

(** ** The host's side of a run *)

Section HostSide.

Context {H : Type}.
Variable maya : Maya H.

(** Whether the host in state [h] accepts the command [c], and its state
    afterwards. *)
Definition serve (c : Call) (h : H) : bool * H :=
  match c with
  | shadingNode type cls name =>
      match maya_shadingNode maya type cls name h with
      | (Some _, h') => (true, h')
      | (None, h') => (false, h')
      end
  | ls_sl =>
      match maya_ls_sl maya h with
      | (Some _, h') => (true, h')
      | (None, h') => (false, h')
      end
  | sets _ | connectAttr _ _ _ | setAttr _ _ | defaultNavigation _ _ =>
      maya_exec maya c h
  end.

Definition host_step (h : H) (e : Event) : H :=
  match e with
  | Cmd c => snd (serve c h)
  | Stdout _ => h
  end.

(** The host after the events [d], from state [h]. *)
Definition host_after (d : list Event) (h : H) : H := fold_left host_step d h.

(** For each event of [d], whether it is a command that the host, from state
    [h] on, refuses when its turn comes. *)
Fixpoint refusals (d : list Event) (h : H) : list bool :=
  match d with
  | [] => []
  | e :: d' =>
      match e with
      | Cmd c => negb (fst (serve c h))
      | Stdout _ => false
      end :: refusals d' (host_step h e)
  end.

(** The name the host in state [h] gives to the node it is asked for; empty
    when it refuses. *)
Definition node_named (type : string) (cls : NodeClass) (name : string)
    (h : H) : string :=
  default "" (fst (maya_shadingNode maya type cls name h)).

(** The first node the host in state [h] reports as selected; empty when
    there is none. *)
Definition first_selected (h : H) : string :=
  default "" (head (default [] (fst (maya_ls_sl maya h)))).

(** Commands are issued as long as the host accepts them: a command that the
    host refuses is the last event, and the computation raises the error of
    the host then and only then. *)
Definition obeys {A : Type} (h : H) (r : result A) (d : list Event) : Prop :=
  (∀ i, refusals d h !! i = Some true → S i = length d) ∧
  (r = Raise RuntimeError ↔ last (refusals d h) = Some true).

(** The commands that go through [cmds_exec]. *)
Definition is_exec (c : Call) : bool :=
  match c with
  | shadingNode _ _ _ | ls_sl => false
  | _ => true
  end.

(** [serves F mats m Φ]: run with the texture type filter [F] and the catalog
    [mats], the computation [m] leaves catalog, filter and file system
    alone, adds to the log a list of events [d] that obeys the host and
    leaves the host as these events make it; with the state the host was in
    and the result of [m], [d] satisfies [Φ]. *)
Definition serves {A : Type} (F : gset TexType)
    (mats : list (string * MatEntry)) (m : M H A)
    (Φ : H → result A → list Event → Prop) : Prop :=
  ∀ w, texture_type_filter w = F → loaded_mats w = mats →
    loaded_mats (snd (m w)) = mats ∧
    texture_type_filter (snd (m w)) = F ∧
    fs (snd (m w)) = fs w ∧
    ∃ d, log (snd (m w)) = log w ++ d ∧
         host (snd (m w)) = host_after d (host w) ∧
         obeys (host w) (fst (m w)) d ∧
         Φ (host w) (fst (m w)) d.

(** The events of a loop whose body, for the element [x], makes events that
    satisfy [Φ x]: those of the elements in turn, each from the state the
    host was left in, up to the first whose body raises. *)
Fixpoint in_turn {X : Type} (Φ : X → H → result unit → list Event → Prop)
    (l : list X) (h : H) (r : result unit) (d : list Event) : Prop :=
  match l with
  | [] => r = Ok tt ∧ d = []
  | x :: l' =>
      ∃ r1 d1, Φ x h r1 d1 ∧ obeys h r1 d1 ∧
        match r1 with
        | Ok _ => ∃ d2, d = d1 ++ d2 ∧ in_turn Φ l' (host_after d1 h) r d2
        | Raise e => r = Raise e ∧ d = d1
        end
  end.

(** [_create_texture_node]: the commands of [create_commands] with the names
    the host gives, and these names returned. *)
Definition creates (name file_name : string) (isRaw : bool) (h : H)
    (r : result (string * string)) (d : list Event) : Prop :=
  let nf := node_named "file" (asTexture true) (name +:+ "_file") h in
  let nt :=
    node_named "place2dTexture" asUtility (name +:+ "_texture")
      (host_after
         [Cmd (shadingNode "file" (asTexture true) (name +:+ "_file"))] h) in
  host_run (create_commands name file_name isRaw nf nt) r d ∧
  ∀ p, r = Ok p → p = (nf, nt).

(** The state in which the host is asked for the selection, when a texture
    of kind [k] is wired from state [h]: the one it is in when the file node
    is set up and connected. *)
Definition selection_host (material_name material_node file_name : string)
    (k : TexType) (h : H) : H :=
  let name := material_name +:+ "_" +:+ TexTypeM.name k in
  let nf := node_named "file" (asTexture true) (name +:+ "_file") h in
  let nt :=
    node_named "place2dTexture" asUtility (name +:+ "_texture")
      (host_after
         [Cmd (shadingNode "file" (asTexture true) (name +:+ "_file"))] h) in
  host_after
    (create_commands name file_name (negb (bool_decide (k = BaseColor)))
       nf nt ++
     [connect_command k material_node nf]) h.

(** The commands for a texture of kind [k] with the names the host gives:
    the two nodes, and the first node selected once the file node is
    connected. *)
Definition wire_commands_of (material_name material_node file_name : string)
    (k : TexType) (h : H) : list Event :=
  let name := material_name +:+ "_" +:+ TexTypeM.name k in
  let nf := node_named "file" (asTexture true) (name +:+ "_file") h in
  let nt :=
    node_named "place2dTexture" asUtility (name +:+ "_texture")
      (host_after
         [Cmd (shadingNode "file" (asTexture true) (name +:+ "_file"))] h) in
  wire_commands material_name material_node file_name k nf nt
    (first_selected
       (selection_host material_name material_node file_name k h)).

(** The body of the loop over the textures of a material. *)
Definition imports_texture (F : gset TexType)
    (material_name material_node : string) (item : string * TexEntry) (h : H)
    (r : result unit) (d : list Event) : Prop :=
  if negb (tex_import (snd item)) then r = Ok tt ∧ d = []
  else
    match TexTypeM.getitem (fst item) with
    | None =>
        r = Ok tt ∧
        d = [Stdout (not_supported_message (fst item) material_node
                       (tex_file (snd item)))]
    | Some k =>
        if bool_decide (k ∈ F) then
          let L :=
            wire_commands_of material_name material_node
              (tex_file (snd item)) k h in
          let hs :=
            selection_host material_name material_node
              (tex_file (snd item)) k h in
          d `prefix_of` L ∧
          (r = Ok tt →
             d = L ∧
             (k = Normal →
              ∃ sel, fst (maya_ls_sl maya hs) = Some (first_selected hs :: sel))) ∧
          (∀ e, r = Raise e →
             e = RuntimeError ∨
             e = IndexError ∧ k = Normal ∧ S (length d) = length L ∧
             fst (maya_ls_sl maya hs) = Some [])
        else r = Ok tt ∧ d = []
    end.

(** The three commands [import_loaded_material] begins with, [material_node]
    being the name of the shader node. *)
Definition shader_commands (material_name material_node : string)
  : list Event :=
  [Cmd (shadingNode "RedshiftMaterial" asShader material_name);
   Cmd (sets ("rsMaterial_" +:+ material_node));
   Cmd (connectAttr (material_node +:+ ".outColor")
          ("rsMaterial_" +:+ material_node +:+ ".surfaceShader") false)].

(** The commands [L] first and then, when the host has accepted them all,
    events that satisfy [P]; the error of the host when it refuses one of
    [L]. *)
Definition staged {A : Type} (L : list Event)
    (P : H → result A → list Event → Prop) (h : H) (r : result A)
    (d : list Event) : Prop :=
  (r = Raise RuntimeError ∧ d `prefix_of` L) ∨
  (Forall (λ b, b = false) (refusals L h) ∧
   ∃ d', d = L ++ d' ∧ P (host_after L h) r d').

(** [import_loaded_material]: the shader commands with the name the host
    gives to the shader node and, when they are accepted, the textures of the
    material in turn. *)
Definition builds (F : gset TexType) (mats : list (string * MatEntry))
    (material_name : string) (h : H) (r : result unit) (d : list Event)
  : Prop :=
  let material_node :=
    node_named "RedshiftMaterial" asShader material_name h in
  staged (shader_commands material_name material_node)
    (λ h' r' d',
       match Dict.get mats material_name with
       | None => r' = Raise KeyError ∧ d' = []
       | Some entry =>
           in_turn (imports_texture F material_name material_node)
             (mat_textures entry) h' r' d'
       end) h r d.

(** The body of the loop of [import_all_loaded_materials]. *)
Definition builds_item (F : gset TexType) (mats : list (string * MatEntry))
    (item : string * MatEntry) (h : H) (r : result unit) (d : list Event)
  : Prop :=
  if negb (mat_import (snd item)) then r = Ok tt ∧ d = []
  else builds F mats (fst item) h r d.

End HostSide.

(** ** The control window *)

(** The commands of [maya.cmds] that [ControlWindow] issues, with the
    arguments that vary from one call to the other, the callbacks they bind
    and the answers of the host. *)
Module UI.

(** The three background colours of the class. *)
Inductive Colour := _DARK_BGC | _GREEN_BGC | _RED_BGC.

(** What a widget calls when it is used: a bound method of the window or one
    of the local functions, with the arguments [partial] fixes. A reference
    to an entry of the catalog is the key (or the pair of keys) the entry is
    found under; entries are never taken out of the catalog while the window
    is in use. [elements] names the list [button_elements] of the draw that
    bound the callback. *)
Inductive Callback :=
| open_folder
| import_selected
| toggle (category : TexType)
| on_material_toggle_switched (material : string)
| on_material_button_pressed (elements : nat)
    (material button_element : string)
| on_texture_selected (material tex_name : string).

Inductive Call :=
| window_exists (name : string)
| deleteUI (path : string) (is_window : bool)
| window (name : string)
| columnLayout
| button (label : string) (c : Callback)
| rowLayout (numberOfColumns : nat) (columnAttach : list (nat * Z))
| setParent (path : string)
| showWindow (element : string)
| separator (h : nat)
| scrollLayout (w : nat)
| iconTextCheckBox (st : string) (image : option string) (label : string)
    (w h : nat) (hlc bgc : option Colour) (cc : option Callback)
    (value : option bool)
| edit_cc (path : string) (cc : Callback)
| edit_value (path : string) (value : bool)
| edit_enable (path : string) (enable : bool)
| fileDialog2
| confirmDialog.

(** The outcome of a command: it raised, it went through, or it answered with
    a name, a truth value or a list of names. *)
Inductive Answer :=
| Refused
| Done
| Named (s : string)
| Found (b : bool)
| Chosen (l : list string).

Record Asked := { call : Call; answer : Answer }.

End UI.

(** The user interface of the host, with state [U]. [ui_name] serves the
    commands whose answer is a name (the path of an element, the button of
    a dialog), [ui_exec] the deletions, the edits and [showWindow], which
    answer with nothing, [ui_exists] the query for a window and [ui_folder]
    the folder dialog, whose answer is the list
    of the folders chosen, empty when there is none; [None] and [false] mean
    that the command raised. *)
Record MayaUI (U : Type) := {
  ui_name : UI.Call -> U -> option string * U;
  ui_exec : UI.Call -> U -> bool * U;
  ui_exists : string -> U -> option bool * U;
  ui_folder : U -> option (list string) * U
}.
Arguments ui_name {U} _ _ _.
Arguments ui_exec {U} _ _ _.
Arguments ui_exists {U} _ _ _.
Arguments ui_folder {U} _ _.

Section ControlWindow.

Context {H U : Type}.
Variable maya : Maya H.
Variable fl : PathFlavour.
Variable gui : MayaUI U.

(** The fields of a [ControlWindow], the tool it inspects, the lists
    [button_elements] that the draws of the material shelf have made, oldest
    first (the callbacks bound by a draw share the list of that draw), the
    user interface of the host and what it has been asked. *)
Record Window := {
  tool : World H;
  _materials_shelf_layout : string;
  _texture_shelf_layout : string;
  _main_column_split_layout : string;
  _inspected_folder : string;
  button_elements : list (list string);
  ui : U;
  ui_log : list UI.Asked
}.

Definition with_tool (t : World H) (win : Window) : Window :=
  {| tool := t;
     _materials_shelf_layout := _materials_shelf_layout win;
     _texture_shelf_layout := _texture_shelf_layout win;
     _main_column_split_layout := _main_column_split_layout win;
     _inspected_folder := _inspected_folder win;
     button_elements := button_elements win;
     ui := ui win; ui_log := ui_log win |}.

Definition with_materials_shelf (p : string) (win : Window) : Window :=
  {| tool := tool win;
     _materials_shelf_layout := p;
     _texture_shelf_layout := _texture_shelf_layout win;
     _main_column_split_layout := _main_column_split_layout win;
     _inspected_folder := _inspected_folder win;
     button_elements := button_elements win;
     ui := ui win; ui_log := ui_log win |}.

Definition with_texture_shelf (p : string) (win : Window) : Window :=
  {| tool := tool win;
     _materials_shelf_layout := _materials_shelf_layout win;
     _texture_shelf_layout := p;
     _main_column_split_layout := _main_column_split_layout win;
     _inspected_folder := _inspected_folder win;
     button_elements := button_elements win;
     ui := ui win; ui_log := ui_log win |}.

Definition with_split (p : string) (win : Window) : Window :=
  {| tool := tool win;
     _materials_shelf_layout := _materials_shelf_layout win;
     _texture_shelf_layout := _texture_shelf_layout win;
     _main_column_split_layout := p;
     _inspected_folder := _inspected_folder win;
     button_elements := button_elements win;
     ui := ui win; ui_log := ui_log win |}.

Definition with_folder (p : string) (win : Window) : Window :=
  {| tool := tool win;
     _materials_shelf_layout := _materials_shelf_layout win;
     _texture_shelf_layout := _texture_shelf_layout win;
     _main_column_split_layout := _main_column_split_layout win;
     _inspected_folder := p;
     button_elements := button_elements win;
     ui := ui win; ui_log := ui_log win |}.

Definition with_buttons (l : list (list string)) (win : Window) : Window :=
  {| tool := tool win;
     _materials_shelf_layout := _materials_shelf_layout win;
     _texture_shelf_layout := _texture_shelf_layout win;
     _main_column_split_layout := _main_column_split_layout win;
     _inspected_folder := _inspected_folder win;
     button_elements := l;
     ui := ui win; ui_log := ui_log win |}.

(** The user interface after a command, with the command on record. *)
Definition asked (c : UI.Call) (a : UI.Answer) (u : U) (win : Window)
  : Window :=
  {| tool := tool win;
     _materials_shelf_layout := _materials_shelf_layout win;
     _texture_shelf_layout := _texture_shelf_layout win;
     _main_column_split_layout := _main_column_split_layout win;
     _inspected_folder := _inspected_folder win;
     button_elements := button_elements win;
     ui := u;
     ui_log := ui_log win ++ [{| UI.call := c; UI.answer := a |}] |}.

(** Computations of the window. *)
Definition G (A : Type) : Type := Window -> result A * Window.

Definition gret {A} (a : A) : G A := fun win => (Ok a, win).

Definition gbind {A B} (m : G A) (k : A -> G B) : G B :=
  fun win =>
    match m win with
    | (Ok a, win') => k a win'
    | (Raise e, win') => (Raise e, win')
    end.

#[global] Instance G_ret : MRet G := @gret.
#[global] Instance G_bind : MBind G := fun A B k m => gbind m k.

Definition field {A} (f : Window -> A) : G A := fun win => (Ok (f win), win).

Definition assign (f : Window -> Window) : G unit := fun win => (Ok tt, f win).

(** A method of the tool, run on the tool of the window. *)
Definition lift {A} (m : M H A) : G A :=
  fun win =>
    let '(r, t) := m (tool win) in (r, with_tool t win).

Fixpoint for_each_g {A} (l : list A) (body : A -> G unit) : G unit :=
  match l with
  | [] => gret tt
  | x :: l' => body x ;; for_each_g l' body
  end.

(** *** Commands of the user interface *)

Definition cmds_name (c : UI.Call) : G string :=
  fun win =>
    match ui_name gui c (ui win) with
    | (Some s, u) => (Ok s, asked c (UI.Named s) u win)
    | (None, u) => (Raise RuntimeError, asked c UI.Refused u win)
    end.

Definition cmds_ui (c : UI.Call) : G unit :=
  fun win =>
    match ui_exec gui c (ui win) with
    | (true, u) => (Ok tt, asked c UI.Done u win)
    | (false, u) => (Raise RuntimeError, asked c UI.Refused u win)
    end.

Definition cmds_window_exists (name : string) : G bool :=
  fun win =>
    match ui_exists gui name (ui win) with
    | (Some b, u) => (Ok b, asked (UI.window_exists name) (UI.Found b) u win)
    | (None, u) =>
        (Raise RuntimeError, asked (UI.window_exists name) UI.Refused u win)
    end.

Definition cmds_fileDialog2 : G (list string) :=
  fun win =>
    match ui_folder gui (ui win) with
    | (Some l, u) => (Ok l, asked UI.fileDialog2 (UI.Chosen l) u win)
    | (None, u) => (Raise RuntimeError, asked UI.fileDialog2 UI.Refused u win)
    end.

(** A string counts as true when it is not empty. *)
Definition truthy (s : string) : bool := negb (String.eqb s "").

(** *** Class constants *)

Definition _NAME : string := "Redshift_Material_Importer".

(** *** The shelves *)

Definition _destroy_textures_shelf_layout : G unit :=
  shelf ← field _texture_shelf_layout;
  if truthy shelf then
    cmds_ui (UI.deleteUI shelf false) ;;
    assign (with_texture_shelf "")
  else gret tt.

Definition _destroy_materials_shelf_layout : G unit :=
  shelf ← field _materials_shelf_layout;
  if truthy shelf then
    _destroy_textures_shelf_layout ;;
    shelf' ← field _materials_shelf_layout;
    cmds_ui (UI.deleteUI shelf' false) ;;
    assign (with_materials_shelf "")
  else gret tt.

(** The body of the loop over the textures on display; [data] is the entry
    of the texture [name] of [material]. *)
Definition draw_texture (material : string) (item : string * TexEntry)
  : G unit :=
  let '(name, data) := item in
  cmds_name
    (UI.iconTextCheckBox "iconAndTextVertical" (Some (tex_file data)) name
       80 82 None None (Some (UI.on_texture_selected material name))
       (Some (tex_import data))) ;;
  cmds_name (UI.separator 2) ;;
  gret tt.

(** [_draw_texture_shelf_layout(data)], [data] being the dictionary of the
    textures of [material] in the catalog. *)
Definition _draw_texture_shelf_layout (material : string) : G string :=
  _destroy_textures_shelf_layout ;;
  split ← field _main_column_split_layout;
  cmds_name (UI.setParent split) ;;
  shelf ← cmds_name (UI.scrollLayout 200);
  assign (with_texture_shelf shelf) ;;
  mats ← field (fun win => loaded_mats (tool win));
  for_each_g
    (match Dict.get mats material with
     | Some entry => mat_textures entry
     | None => []
     end)
    (draw_texture material) ;;
  field _texture_shelf_layout.

(** [on_material_button_pressed] *)
Definition on_material_button_pressed (elements : nat)
    (material selected_button_element : string) : G unit :=
  buttons ← field (fun win => default [] (button_elements win !! elements));
  for_each_g buttons (fun button_element =>
    cmds_ui
      (UI.edit_value button_element
         (String.eqb button_element selected_button_element))) ;;
  _draw_texture_shelf_layout material ;;
  gret tt.

(** The body of the loop over the materials of the catalog. *)
Definition draw_material (elements : nat) (item : string * MatEntry)
  : G unit :=
  let '(name, data) := item in
  cmds_name (UI.rowLayout 2 [(1, 1%Z); (2, 1%Z)]) ;;
  cmds_name
    (UI.iconTextCheckBox "textOnly" None " " 30 30 (Some UI._GREEN_BGC)
       (Some UI._RED_BGC) (Some (UI.on_material_toggle_switched name))
       (Some (mat_import data))) ;;
  button ←
    cmds_name
      (UI.iconTextCheckBox "textOnly" None name 195 30 None
         (Some UI._DARK_BGC) None None);
  cmds_ui
    (UI.edit_cc button (UI.on_material_button_pressed elements name button)) ;;
  assign (fun win =>
    with_buttons
      (alter (fun l => l ++ [button]) elements (button_elements win)) win) ;;
  shelf ← field _materials_shelf_layout;
  cmds_name (UI.setParent shelf) ;;
  gret tt.

Definition _draw_materials_shelf_layout : G string :=
  elements ← field (fun win => length (button_elements win));
  assign (fun win => with_buttons (button_elements win ++ [[]]) win) ;;
  _destroy_materials_shelf_layout ;;
  split ← field _main_column_split_layout;
  cmds_name (UI.setParent split) ;;
  shelf ← cmds_name (UI.scrollLayout 248);
  assign (with_materials_shelf shelf) ;;
  mats ← field (fun win => loaded_mats (tool win));
  for_each_g mats (draw_material elements) ;;
  field _materials_shelf_layout.

(** *** The buttons *)

Definition _open_folder : G unit :=
  folder ← cmds_fileDialog2;
  match folder with
  | first :: _ =>
      assign (with_folder first) ;;
      inspected ← field _inspected_folder;
      lift (load_materials_data fl inspected)
  | [] => gret tt
  end ;;
  _draw_materials_shelf_layout ;;
  gret tt.

Definition _import_selected : G unit :=
  mats ← field (fun win => loaded_mats (tool win));
  match mats with
  | [] => gret tt
  | _ :: _ =>
      answer ← cmds_name UI.confirmDialog;
      if String.eqb answer "Yes"
      then lift (import_all_loaded_materials maya)
      else gret tt
  end.

(** *** The window *)

(** The body of the comprehension over the widths and the kinds. *)
Definition draw_kind (item : nat * TexType) : G (TexType * string) :=
  let '(w, v) := item in
  element ←
    cmds_name
      (UI.iconTextCheckBox "textOnly" None (TexTypeM.name v) w 30 None
         (Some UI._DARK_BGC) (Some (UI.toggle v)) (Some true));
  gret (v, element).

Fixpoint collect {A B} (l : list A) (body : A -> G B) : G (list B) :=
  match l with
  | [] => gret []
  | x :: l' =>
      y ← body x;
      ys ← collect l' body;
      gret (y :: ys)
  end.

(** [button_elements[v]] of the options box. *)
Definition element_of (elements : list (TexType * string)) (v : TexType)
  : G string :=
  match List.find (fun item => bool_decide (fst item = v)) elements with
  | Some item => gret (snd item)
  | None => fun win => (Raise KeyError, win)
  end.

Definition _draw_texture_import_options_box : G string :=
  let width_list := [74; 72; 66; 84; 70; 68] in
  cmds_name (UI.separator 6) ;;
  root ← cmds_name (UI.rowLayout 6 [(1, 0%Z)]);
  elements ← collect (zip width_list TexType_members) draw_kind;
  emissive ← element_of elements Emissive;
  cmds_ui (UI.edit_enable emissive false) ;;
  height ← element_of elements Height;
  cmds_ui (UI.edit_enable height false) ;;
  cmds_name (UI.setParent "..") ;;
  cmds_name (UI.separator 2) ;;
  gret root.

Definition _assemble_window : G string :=
  window_element ← cmds_name (UI.window _NAME);
  main_column ← cmds_name UI.columnLayout;
  cmds_name (UI.button "Open File" UI.open_folder) ;;
  _draw_texture_import_options_box ;;
  split ← cmds_name (UI.rowLayout 2 [(1, (-2)%Z); (2, (-2)%Z)]);
  assign (with_split split) ;;
  cmds_name (UI.setParent main_column) ;;
  cmds_name (UI.button "Import" UI.import_selected) ;;
  cmds_ui (UI.showWindow window_element) ;;
  gret window_element.

Definition open_window : G unit :=
  there ← cmds_window_exists _NAME;
  (if there : bool then cmds_ui (UI.deleteUI _NAME true) else gret tt) ;;
  _assemble_window ;;
  gret tt.

(** [ControlWindow.__init__] *)
Definition new_window (inspected_tool : World H) (u : U) : Window :=
  {| tool := snd (delete_materials_data inspected_tool);
     _materials_shelf_layout := "";
     _texture_shelf_layout := "";
     _main_column_split_layout := "";
     _inspected_folder := "";
     button_elements := [];
     ui := u; ui_log := [] |}.

(** *** The window in use *)

(** What the user does to the widgets; the host calls the callback bound to
    the widget, with the new state for a check box. *)
Inductive Use :=
| press (c : UI.Callback)
| switch (c : UI.Callback) (state : bool).

Definition callback (c : UI.Callback) (state : bool) : G unit :=
  match c with
  | UI.open_folder => _open_folder
  | UI.import_selected => _import_selected
  | UI.toggle category =>
      if kind_checkbox_enabled category then lift (toggle category state)
      else gret tt
  | UI.on_material_toggle_switched material =>
      lift (on_material_toggle_switched material state)
  | UI.on_material_button_pressed elements material button_element =>
      on_material_button_pressed elements material button_element
  | UI.on_texture_selected material tex_name =>
      lift (on_texture_selected material tex_name state)
  end.

Definition react (win : Window) (u : Use) : Window :=
  match u with
  | press c => snd (callback c true win)
  | switch c state => snd (callback c state win)
  end.

(** The script: a tool, a window on it, the window opened, and then the
    user. *)
Definition script (h : H) (files : string -> option (list string)) (u : U)
    (uses : list Use) : Window :=
  fold_left react uses (snd (open_window (new_window (init h files) u))).

(** *** The shelves alive *)

Fixpoint remove_one (p : string) (l : list string) : list string :=
  match l with
  | [] => []
  | q :: l' => if String.eqb q p then l' else q :: remove_one p l'
  end.

(** The scroll layouts made and not deleted since, newest first: a request
    that was answered with a path adds it, a deletion that went through takes
    it out. *)
Definition shelf_step (live : list string) (a : UI.Asked) : list string :=
  match a with
  | {| UI.call := UI.scrollLayout _; UI.answer := UI.Named p |} => p :: live
  | {| UI.call := UI.deleteUI p false; UI.answer := UI.Done |} =>
      remove_one p live
  | _ => live
  end.

Definition shelves_alive (l : list UI.Asked) : list string :=
  fold_left shelf_step l [].

(** The shelves the window has on record. *)
Definition shelves_on_record (win : Window) : list string :=
  List.filter truthy [_materials_shelf_layout win; _texture_shelf_layout win].

(** The check boxes for the tags of the materials, as asked for: material and
    value shown. *)
Definition material_toggle (a : UI.Asked) : option (string * bool) :=
  match UI.call a with
  | UI.iconTextCheckBox _ _ _ _ _ _ _
      (Some (UI.on_material_toggle_switched material)) (Some value) =>
      Some (material, value)
  | _ => None
  end.

(** The check boxes for the tags of the textures: material, texture, image
    and value shown. *)
Definition texture_toggle (a : UI.Asked)
  : option (string * string * string * bool) :=
  match UI.call a with
  | UI.iconTextCheckBox _ (Some image) _ _ _ _ _
      (Some (UI.on_texture_selected material tex_name)) (Some value) =>
      Some (material, tex_name, image, value)
  | _ => None
  end.

(** *** The window and the tool *)

(** The user action, in terms of the tool, that a use of a widget amounts
    to: the dialogs answer as the user interface does in the state of the
    window, and a press on the button of a material is no action on the
    tool. *)
Definition event_of (c : UI.Callback) (state : bool) (win : Window)
  : UIEvent :=
  match c with
  | UI.open_folder =>
      OpenFolder
        match ui_folder gui (ui win) with
        | (Some (first :: _), _) => Some first
        | _ => None
        end
  | UI.import_selected =>
      ImportSelected
        match ui_name gui UI.confirmDialog (ui win) with
        | (Some answer, _) => String.eqb answer "Yes"
        | _ => false
        end
  | UI.toggle category => KindToggled category state
  | UI.on_material_toggle_switched material => MaterialToggled material state
  | UI.on_material_button_pressed _ _ _ => OpenFolder None
  | UI.on_texture_selected material tex_name =>
      TextureToggled material tex_name state
  end.

Definition use_event (u : Use) (win : Window) : UIEvent :=
  match u with
  | press c => event_of c true win
  | switch c state => event_of c state win
  end.

Fixpoint events_of (uses : list Use) (win : Window) : list UIEvent :=
  match uses with
  | [] => []
  | u :: uses' => use_event u win :: events_of uses' (react win u)
  end.

(** [m] leaves the tool as it is, whatever its result. *)
Definition keeps_tool {A} (m : G A) : Prop :=
  forall win, tool (snd (m win)) = tool win.

(** The shelves on record and the shelves alive. *)
Definition shelves_view (win : Window) : string * string * list string :=
  (_materials_shelf_layout win, _texture_shelf_layout win,
   shelves_alive (ui_log win)).

(** [m] neither makes nor deletes a shelf, nor changes the records. *)
Definition quiet {A} (m : G A) : Prop :=
  forall win, shelves_view (snd (m win)) = shelves_view win.

(** The shelves alive are the shelves on record. *)
Definition tidy (win : Window) : Prop :=
  shelves_alive (ui_log win) ≡ₚ shelves_on_record win.

(** [m] keeps [I], whatever its result. *)
Definition keeps {A} (I : Window -> Prop) (m : G A) : Prop :=
  forall win, I win -> I (snd (m win)).

(** What the user interface was asked between [win] and [win']. *)
Definition new_asked (win win' : Window) : list UI.Asked :=
  drop (length (ui_log win)) (ui_log win').

(** The buttons of the materials, as bound: the button edited, and the list,
    the material and the button its callback was given. *)
Definition material_button (a : UI.Asked)
  : option (string * nat * string * string) :=
  match a with
  | {| UI.call :=
         UI.edit_cc button
           (UI.on_material_button_pressed elements material button_element);
       UI.answer := UI.Done |} =>
      Some (button, elements, material, button_element)
  | _ => None
  end.

(** A request to delete a layout. *)
Definition deletion (a : UI.Asked) : Prop :=
  exists path, UI.call a = UI.deleteUI path false.

(** The elements disabled, as asked for. *)
Definition disabled_element (a : UI.Asked) : option string :=
  match a with
  | {| UI.call := UI.edit_enable element false; UI.answer := UI.Done |} =>
      Some element
  | _ => None
  end.

(** The check box made for a kind in the options box, as asked for. *)
Definition kind_checkbox (a : UI.Asked) : option (TexType * string) :=
  match a with
  | {| UI.call :=
         UI.iconTextCheckBox _ _ _ _ _ _ _ (Some (UI.toggle category))
           (Some true);
       UI.answer := UI.Named element |} => Some (category, element)
  | _ => None
  end.

End ControlWindow.

Arguments Window H U : clear implicits.
Arguments G H U A : clear implicits.

(** A user interface for experiments: it names the elements [ui1], [ui11],
    [ui111], ... in the order they are made, accepts every command, finds no
    window, and its dialogs answer with the folder [/tex] and with [Yes]. *)
Module FakeUI.

Definition gui : MayaUI string :=
  {| ui_name := fun c u =>
       match c with
       | UI.confirmDialog => (Some "Yes", u)
       | _ => (Some ("ui" +:+ u), u +:+ "1")
       end;
     ui_exec := fun _ u => (true, u);
     ui_exists := fun _ u => (Some false, u);
     ui_folder := fun u => (Some ["/tex"], u) |}.

(** A window on a tool whose catalog is [mats], with nothing drawn yet. *)
Definition window_on (mats : list (string * MatEntry))
  : Window (list bool) string :=
  {| tool := FakeMaya.session [] [] mats;
     _materials_shelf_layout := "";
     _texture_shelf_layout := "";
     _main_column_split_layout := "";
     _inspected_folder := "";
     button_elements := [];
     ui := ""; ui_log := [] |}.

End FakeUI.

(** * Properties *)

(** ** Strings *)

Section StringFacts.

Import PyStr.

#[local] Arguments String.append !_ _ / : simpl nomatch.

Lemma str_app_nil_r (s : string) : s +:+ "" = s.
Proof. induction s as [|c s IH]; simpl; [done | by rewrite IH]. Qed.

Lemma str_app_assoc (s1 s2 s3 : string) : (s1 +:+ s2) +:+ s3 = s1 +:+ s2 +:+ s3.
Proof. induction s1 as [|c s1 IH]; simpl; [done | by rewrite IH]. Qed.

Lemma str_app_inv_head (p s1 s2 : string) : p +:+ s1 = p +:+ s2 → s1 = s2.
Proof. induction p as [|c p IH]; simpl; [done | intros [= ?]; auto]. Qed.

Lemma startswith_spec (s p : string) :
  startswith s p = true ↔ ∃ r, s = p +:+ r.
Proof.
  revert s. induction p as [|a p IH]; intros s; simpl.
  - split; [intros _; by exists s | done].
  - destruct s as [|b s].
    + split; [done | intros [r [=]]].
    + rewrite andb_true_iff, Ascii.eqb_eq, IH. split.
      * intros [-> [r ->]]. by exists r.
      * intros [r [= -> ->]]. split; [done | by exists r].
Qed.

Lemma startswith_app (p s : string) : startswith (p +:+ s) p = true.
Proof. apply startswith_spec. by exists s. Qed.

Lemma endswith_spec (s suf : string) :
  endswith s suf = true ↔ ∃ p, s = p +:+ suf.
Proof.
  induction s as [|c s IH]; cbn [endswith].
  - rewrite orb_false_r, String.eqb_eq. split.
    + intros <-. by exists "".
    + intros [[|? ?] Hp]; simpl in Hp; [done | discriminate].
  - rewrite orb_true_iff, String.eqb_eq, IH. split.
    + intros [<- | [p ->]]; [by exists "" | by exists (String c p)].
    + intros [[|a p] Hp]; simpl in Hp; [by left |].
      injection Hp as -> ->. right. by exists p.
Qed.

Lemma endswith_any_spec (s : string) (t : list string) :
  endswith_any s t = true ↔ ∃ stem ext, In ext t ∧ s = stem +:+ ext.
Proof.
  unfold endswith_any. rewrite existsb_exists. split.
  - intros (ext & Hin & Hend). apply endswith_spec in Hend as [stem ->].
    by exists stem, ext.
  - intros (stem & ext & Hin & ->). exists ext. split; [done |].
    apply endswith_spec. by exists stem.
Qed.

Lemma drop_app (p s : string) : drop (String.length p) (p +:+ s) = s.
Proof. induction p as [|c p IH]; simpl; [by destruct s | done]. Qed.

Lemma removeprefix_app (p s : string) : removeprefix (p +:+ s) p = s.
Proof. unfold removeprefix. by rewrite startswith_app, drop_app. Qed.

Lemma mem_app (c : ascii) (s1 s2 : string) :
  mem c (s1 +:+ s2) = mem c s1 || mem c s2.
Proof.
  induction s1 as [|a s1 IH]; simpl; [done |]. by rewrite IH, orb_assoc.
Qed.

Lemma rsplit_last_None (sep : ascii) (s : string) :
  mem sep s = false → rsplit_last sep s = None.
Proof.
  induction s as [|c s IH]; simpl; [done |].
  intros [Hc Hs]%orb_false_iff. by rewrite IH, Hc.
Qed.

Lemma rsplit_last_app (sep : ascii) (l r : string) :
  mem sep r = false → rsplit_last sep (l +:+ String sep r) = Some (l, r).
Proof.
  intros Hr. induction l as [|c l IH]; simpl.
  - by rewrite rsplit_last_None, Ascii.eqb_refl.
  - by rewrite IH.
Qed.

Lemma rsplit_last_Some (sep : ascii) (s l r : string) :
  rsplit_last sep s = Some (l, r) → s = l +:+ String sep r ∧ mem sep r = false.
Proof.
  revert l. induction s as [|c s IH]; intros l; simpl; [done |].
  destruct (rsplit_last sep s) as [[l' r']|] eqn:Hs.
  - intros [= <- <-]. destruct (IH l' eq_refl) as [-> Hr]. by split.
  - destruct (Ascii.eqb_spec c sep) as [->|]; [| done].
    intros [= <- <-]. split; [done |].
    clear IH. induction s as [|a s IHs]; simpl in *; [done |].
    destruct (rsplit_last sep s) as [[? ?]|]; [done |].
    destruct (Ascii.eqb a sep); [done | auto].
Qed.

Lemma replace_from_0 (old new : string) (c : ascii) (s : string) :
  replace_from 0 old new (String c s) =
  if startswith (String c s) old
  then new +:+ replace_from (String.length old - 1) old new s
  else String c (replace_from 0 old new s).
Proof. done. Qed.

Lemma replace_from_skip (old new p rest : string) :
  replace_from (String.length p) old new (p +:+ rest) =
  replace_from 0 old new rest.
Proof. induction p as [|a p IH]; [done | apply IH]. Qed.

(** A match at the head is replaced and the scan goes on behind it. *)
Lemma replace_from_match (c : ascii) (old new rest : string) :
  replace_from 0 (String c old) new (String c old +:+ rest) =
  new +:+ replace_from 0 (String c old) new rest.
Proof.
  change (String c old +:+ rest) with (String c (old +:+ rest)).
  rewrite replace_from_0.
  change (String c (old +:+ rest)) with (String c old +:+ rest).
  rewrite startswith_app. f_equal.
  change (String.length (String c old) - 1) with (String.length old - 0).
  rewrite Nat.sub_0_r. apply replace_from_skip.
Qed.

(** A pattern whose first character does not occur is never found. *)
Lemma replace_from_absent (c : ascii) (old new s : string) :
  mem c s = false → replace_from 0 (String c old) new s = s.
Proof.
  induction s as [|a s IH]; [done |].
  intros [Ha Hs]%orb_false_iff. rewrite replace_from_0.
  change (startswith (String a s) (String c old))
    with (Ascii.eqb c a && startswith s old).
  rewrite Ascii.eqb_sym, Ha. cbn [andb]. by rewrite IH.
Qed.

(** An occurrence of the suffix mark that starts inside [m] lies in [m]:
    none of its proper suffixes starts with an underscore. *)
Lemma suffix_mark_inside (m t : string) :
  m ≠ "" →
  startswith (m +:+ "_mat_" +:+ t) "_mat" = startswith m "_mat".
Proof.
  intros Hm.
  destruct m as [|a [|b [|c [|d m]]]]; [done | | | | done]; simpl;
    by rewrite ?andb_false_r.
Qed.

Lemma replace_suffix_mark (m t : string) :
  contains m "_mat" = false → mem "_" t = false →
  startswith t "mat" = false →
  replace (m +:+ "_mat_" +:+ t) "_mat" "" = m +:+ "_" +:+ t.
Proof.
  intros Hm Ht Hmat. unfold replace.
  induction m as [|a m IH].
  - change ("" +:+ "_mat_" +:+ t) with ("_mat" +:+ String "_" t).
    rewrite replace_from_match, replace_from_0.
    change (startswith (String "_" t) "_mat") with (startswith t "mat").
    rewrite Hmat. by rewrite (replace_from_absent "_").
  - cbn [contains] in Hm. apply orb_false_iff in Hm as [Ha Hm].
    change (String a m +:+ "_mat_" +:+ t) with (String a (m +:+ "_mat_" +:+ t)).
    rewrite replace_from_0.
    change (String a (m +:+ "_mat_" +:+ t)) with (String a m +:+ "_mat_" +:+ t).
    rewrite suffix_mark_inside, Ha by done.
    change (String a m +:+ "_" +:+ t) with (String a (m +:+ "_" +:+ t)).
    f_equal. by apply IH.
Qed.

End StringFacts.

(** A few runs of the string and path functions. *)
Example capitalize_ex :
  PyStr.capitalize (unicode_capitalize OsPath.posixpath) "rockWall"
  = "Rockwall".
Proof. reflexivity. Qed.

Example replace_ex : PyStr.replace "Rock_mat_matte" "_mat" "" = "Rockte".
Proof. reflexivity. Qed.

Example rsplit1_ex : PyStr.rsplit1 "a_b_c" "_"%char = ["a_b"; "c"].
Proof. reflexivity. Qed.

Example rsplit1_none : PyStr.rsplit1 "abc" "_"%char = ["abc"].
Proof. reflexivity. Qed.

Example splitext_ex :
  OsPath.splitext OsPath.posixpath "Mesh_Rock_mat_Normal.v2.png" =
  ("Mesh_Rock_mat_Normal.v2", ".png").
Proof. reflexivity. Qed.

Example splitext_leading_dot :
  OsPath.splitext OsPath.posixpath ".png" = (".png", "").
Proof. reflexivity. Qed.

(** ** Paths and file names *)

Section PathFacts.

Import PyStr OsPath.
Variable fl : PathFlavour.

#[local] Arguments String.append !_ _ / : simpl nomatch.

Lemma has_sep_app (s1 s2 : string) :
  has_sep fl (s1 +:+ s2) = has_sep fl s1 || has_sep fl s2.
Proof.
  induction s1 as [|a s1 IH]; simpl; [done |]. by rewrite IH, orb_assoc.
Qed.

Lemma after_last_sep_id (s : string) :
  has_sep fl s = false → after_last_sep fl s = s.
Proof.
  destruct s as [|c s]; [done |]. simpl.
  intros [-> ->]%orb_false_iff. done.
Qed.

(** An extension of the importer is a dot followed by letters. *)
Lemma extension_shape (ext : string) :
  In ext _EXTENSIONS → ∃ e, ext = String "." e ∧ mem "." e = false.
Proof.
  unfold _EXTENSIONS.
  intros [<- | [<- | [<- | [<- | []]]]]; eexists; split; reflexivity.
Qed.

Lemma splitext_valid (m t ext : string) :
  In ext _EXTENSIONS →
  has_sep fl (_PREFIX +:+ m +:+ "_mat_" +:+ t +:+ ext) = false →
  splitext fl (_PREFIX +:+ m +:+ "_mat_" +:+ t +:+ ext) =
  (_PREFIX +:+ m +:+ "_mat_" +:+ t, ext).
Proof.
  intros (e & -> & He)%extension_shape Hsep.
  set (root := _PREFIX +:+ m +:+ "_mat_" +:+ t).
  assert (Hfile : _PREFIX +:+ m +:+ "_mat_" +:+ t +:+ String "." e
                  = root +:+ String "." e).
  { unfold root. by rewrite !str_app_assoc. }
  rewrite Hfile in *. unfold splitext.
  rewrite rsplit_last_app by done.
  rewrite has_sep_app in Hsep. apply orb_false_iff in Hsep as [Hroot Hext].
  assert (He' : has_sep fl e = false).
  { simpl in Hext. by apply orb_false_iff in Hext as [_ ?]. }
  rewrite He', after_last_sep_id by done. done.
Qed.

Lemma split_names_valid (m t ext : string) :
  In ext _EXTENSIONS →
  contains m "_mat" = false →
  mem "_" t = false →
  startswith t "mat" = false →
  has_sep fl (_PREFIX +:+ m +:+ "_mat_" +:+ t +:+ ext) = false →
  split_names fl (_PREFIX +:+ m +:+ "_mat_" +:+ t +:+ ext) = Ok (m, t).
Proof.
  intros Hext Hm Ht Hmat Hsep. unfold split_names.
  rewrite splitext_valid by done. cbn [fst].
  rewrite removeprefix_app.
  change _SUFFIX with "_mat". rewrite replace_suffix_mark by done.
  unfold rsplit1.
  change (m +:+ "_" +:+ t) with (m +:+ String "_" t).
  by rewrite rsplit_last_app.
Qed.

End PathFacts.

(** ** Dictionaries *)

Section DictFacts.

Context {V : Type}.
Implicit Types (d : list (string * V)) (k : string) (v : V).

Lemma get_app_last d k v k' :
  Dict.get (d ++ [(k, v)]) k' =
  match Dict.get d k' with
  | Some x => Some x
  | None => if String.eqb k k' then Some v else None
  end.
Proof.
  induction d as [|[k0 v0] d IH]; simpl; [done |].
  by destruct (String.eqb k0 k').
Qed.

Lemma get_set d k v k' :
  Dict.get (Dict.set d k v) k' =
  if String.eqb k k' then Some v else Dict.get d k'.
Proof.
  induction d as [|[k0 v0] d IH]; simpl.
  - done.
  - destruct (String.eqb_spec k0 k) as [->|Hne]; simpl.
    + by destruct (String.eqb k k').
    + rewrite IH. destruct (String.eqb_spec k k') as [Heq|]; [| done].
      subst k'. by apply String.eqb_neq in Hne as ->.
Qed.

Lemma set_same d k v : Dict.get d k = Some v → Dict.set d k v = d.
Proof.
  induction d as [|[k0 v0] d IH]; simpl; [done |].
  destruct (String.eqb_spec k0 k) as [->|]; [by intros [= ->] |].
  intros Hd. by rewrite IH.
Qed.

Lemma get_Some_keys d k v : Dict.get d k = Some v → In k (Dict.keys d).
Proof.
  induction d as [|[k0 v0] d IH]; simpl; [done |].
  destruct (String.eqb_spec k0 k) as [->|]; [by left | right; auto].
Qed.

Lemma get_None_keys d k : Dict.get d k = None ↔ ¬ In k (Dict.keys d).
Proof.
  induction d as [|[k0 v0] d IH]; simpl; [tauto |].
  destruct (String.eqb_spec k0 k) as [->|]; [split; [done | tauto] |].
  rewrite IH. tauto.
Qed.

Lemma keys_set_present d k v :
  is_Some (Dict.get d k) → Dict.keys (Dict.set d k v) = Dict.keys d.
Proof.
  induction d as [|[k0 v0] d IH]; simpl; [by intros [? [=]] |].
  destruct (String.eqb_spec k0 k) as [->|]; simpl; [done |].
  intros Hd. by rewrite IH.
Qed.

Lemma setdefault_snd d k v :
  snd (Dict.setdefault d k v) = default v (Dict.get d k).
Proof. unfold Dict.setdefault. by destruct (Dict.get d k). Qed.

Lemma setdefault_fst d k v :
  fst (Dict.setdefault d k v) =
  match Dict.get d k with Some _ => d | None => d ++ [(k, v)] end.
Proof. unfold Dict.setdefault. by destruct (Dict.get d k). Qed.

Lemma setdefault_get d k v :
  Dict.get (fst (Dict.setdefault d k v)) k = Some (snd (Dict.setdefault d k v)).
Proof.
  unfold Dict.setdefault. destruct (Dict.get d k) eqn:Hd; simpl; [done |].
  by rewrite get_app_last, Hd, String.eqb_refl.
Qed.

Lemma setdefault_keys_NoDup d k v :
  NoDup (Dict.keys d) → NoDup (Dict.keys (fst (Dict.setdefault d k v))).
Proof.
  unfold Dict.setdefault. destruct (Dict.get d k) eqn:Hd; simpl; [done |].
  intros Hnd. unfold Dict.keys. rewrite map_app. simpl.
  apply NoDup_app. split_and!; [done | | apply NoDup_singleton].
  intros x Hx ->%list_elem_of_singleton.
  apply get_None_keys in Hd. apply Hd. by apply list_elem_of_In.
Qed.

Lemma set_Forall (Q : V → Prop) d k v :
  Forall (λ item, Q (snd item)) d → Q v →
  Forall (λ item, Q (snd item)) (Dict.set d k v).
Proof.
  intros Hd Hv. induction Hd as [|[k0 v0] d H0 Hd IH]; simpl.
  - by repeat constructor.
  - destruct (String.eqb k0 k); by constructor.
Qed.

Lemma get_Forall (Q : V → Prop) d k v :
  Forall (λ item, Q (snd item)) d → Dict.get d k = Some v → Q v.
Proof.
  intros Hd. induction Hd as [|[k0 v0] d H0 Hd IH]; simpl; [done |].
  destruct (String.eqb k0 k); [by intros [= <-] | done].
Qed.

End DictFacts.

(** ** The catalog under [add_texture] *)

Section CatalogFacts.

Implicit Types (mats : list (string * MatEntry)) (key tex_name path : string).

Lemma add_texture_get mats key tex_name path k :
  Dict.get (add_texture mats key tex_name path) k =
  if String.eqb key k then
    let entry :=
      default {| mat_textures := []; mat_import := true |} (Dict.get mats key) in
    Some {| mat_textures :=
              fst (Dict.setdefault (mat_textures entry) tex_name
                     {| tex_file := path; tex_import := true |});
            mat_import := mat_import entry |}
  else Dict.get mats k.
Proof.
  unfold add_texture.
  rewrite (surjective_pairing (Dict.setdefault mats key _)).
  rewrite (surjective_pairing (Dict.setdefault (mat_textures _) tex_name _)).
  rewrite get_set. destruct (String.eqb_spec key k) as [Heq|Hne].
  - by rewrite setdefault_snd.
  - rewrite setdefault_fst.
    destruct (Dict.get mats key); simpl; [done |].
    rewrite get_app_last. apply String.eqb_neq in Hne as ->.
    by destruct (Dict.get mats k).
Qed.

(** The texture entries after [add_texture]: what was there stays, and the
    one new entry appears only where there was none. *)
Lemma add_texture_lookup mats key tex_name path k t :
  tex_lookup (add_texture mats key tex_name path) k t =
  match tex_lookup mats k t with
  | Some e => Some e
  | None =>
      if String.eqb key k && String.eqb tex_name t
      then Some {| tex_file := path; tex_import := true |}
      else None
  end.
Proof.
  unfold tex_lookup. rewrite add_texture_get.
  destruct (String.eqb_spec key k) as [<-|Hne]; simpl.
  - unfold Dict.setdefault.
    destruct (Dict.get mats key) as [entry|]; simpl.
    + destruct (Dict.get (mat_textures entry) tex_name) eqn:Htex; simpl.
      * destruct (Dict.get (mat_textures entry) t) eqn:Ht; [done |].
        destruct (String.eqb_spec tex_name t) as [<-|]; congruence.
      * rewrite get_app_last. by destruct (Dict.get (mat_textures entry) t).
    + done.
  - by destruct (Dict.get mats k) as [e|]; [destruct (Dict.get _ t) |].
Qed.

(** The import tag of a material that was there stays; a new material is
    tagged for import. *)
Lemma add_texture_flag mats key tex_name path k :
  mat_import <$> Dict.get (add_texture mats key tex_name path) k =
  match Dict.get mats k with
  | Some entry => Some (mat_import entry)
  | None => if String.eqb key k then Some true else None
  end.
Proof.
  rewrite add_texture_get.
  destruct (String.eqb_spec key k) as [<-|]; simpl.
  - by destruct (Dict.get mats key).
  - by destruct (Dict.get mats k).
Qed.

(** Filing a texture that is there already changes nothing. *)
Lemma add_texture_same mats key tex_name path e :
  tex_lookup mats key tex_name = Some e →
  add_texture mats key tex_name path = mats.
Proof.
  unfold tex_lookup, add_texture, Dict.setdefault.
  destruct (Dict.get mats key) as [entry|] eqn:Hkey; [| done].
  intros ->. apply set_same. rewrite Hkey. by destruct entry.
Qed.

Lemma add_texture_keys_NoDup mats key tex_name path :
  NoDup (Dict.keys mats) →
  NoDup (Dict.keys (add_texture mats key tex_name path)).
Proof.
  intros Hnd. unfold add_texture.
  pose proof (setdefault_keys_NoDup mats key
                {| mat_textures := []; mat_import := true |} Hnd) as Hnd1.
  pose proof (setdefault_get mats key
                {| mat_textures := []; mat_import := true |}) as Hget.
  destruct (Dict.setdefault mats key _) as [mats1 entry]. simpl in *.
  destruct (Dict.setdefault (mat_textures entry) tex_name _) as [texs1 ?].
  by rewrite keys_set_present by (by rewrite Hget).
Qed.

Lemma add_texture_unique_keys mats key tex_name path :
  unique_keys mats → unique_keys (add_texture mats key tex_name path).
Proof.
  intros [Hnd Hall]. split; [by apply add_texture_keys_NoDup |].
  unfold add_texture.
  rewrite (surjective_pairing (Dict.setdefault mats key _)).
  rewrite (surjective_pairing (Dict.setdefault (mat_textures _) tex_name _)).
  rewrite setdefault_fst, setdefault_snd.
  destruct (Dict.get mats key) as [entry|] eqn:Hkey; simpl.
  - apply (set_Forall (λ entry, NoDup (Dict.keys (mat_textures entry))));
      [done |].
    simpl. apply setdefault_keys_NoDup.
    by apply (get_Forall (λ entry, NoDup (Dict.keys (mat_textures entry)))
                mats key).
  - apply (set_Forall (λ entry, NoDup (Dict.keys (mat_textures entry)))).
    + apply Forall_app. split; [done |]. repeat constructor.
    + simpl. apply NoDup_singleton.
Qed.

End CatalogFacts.

(** ** Computations *)

Section MonadFacts.

Context {H : Type}.
Implicit Types (w : World H).

Lemma bind_run {A B} (m : M H A) (k : A → M H B) w :
  (m ≫= k) w =
  match m w with
  | (Ok a, w') => k a w'
  | (Raise e, w') => (Raise e, w')
  end.
Proof. done. Qed.

Lemma for_each_cons {A} (x : A) (l : list A) (body : A → M H ()) w :
  for_each (x :: l) body w =
  match body x w with
  | (Ok _, w') => for_each l body w'
  | (Raise e, w') => (Raise e, w')
  end.
Proof. done. Qed.

(** A loop over [l1 ++ l2] that gets through [l1] goes on with [l2]. *)
Lemma for_each_app_ok {A} (l1 l2 : list A) (body : A → M H ()) w w1 :
  for_each l1 body w = (Ok (), w1) →
  for_each (l1 ++ l2) body w = for_each l2 body w1.
Proof.
  revert w. induction l1 as [|x l1 IH]; intros w.
  - by intros [= ->].
  - cbn [app]. rewrite !for_each_cons.
    destruct (body x w) as [[[]|e] w']; [auto | done].
Qed.

(** A loop that raises in [l1] never reaches [l2]. *)
Lemma for_each_app_raise {A} (l1 l2 : list A) (body : A → M H ()) w e w1 :
  for_each l1 body w = (Raise e, w1) →
  for_each (l1 ++ l2) body w = (Raise e, w1).
Proof.
  revert w. induction l1 as [|x l1 IH]; intros w; [done |].
  cbn [app]. rewrite !for_each_cons.
  destruct (body x w) as [[[]|e'] w']; [auto | done].
Qed.

Lemma with_mats_same w : with_mats (loaded_mats w) w = w.
Proof. by destruct w. Qed.

End MonadFacts.

(** ** The scan *)

Section ScanFacts.

Context {H : Type}.
Variable fl : PathFlavour.
Implicit Types (w : World H) (folder file key : string) (files : list string).

(** What the loop body does to the world. *)
Lemma load_file_run folder file w :
  load_file fl folder file w =
  if selected file then
    match split_names fl file with
    | Ok (mat_name, tex_name) =>
        (Ok (),
         with_mats
           (add_texture (loaded_mats w)
              (PyStr.capitalize (unicode_capitalize fl) mat_name) tex_name
              (file_path fl folder file)) w)
    | Raise e => (Raise e, w)
    end
  else (Ok (), w).
Proof.
  unfold load_file, selected.
  destruct (PyStr.endswith_any file _EXTENSIONS); [| done].
  by destruct (split_names fl file) as [[? ?]|].
Qed.

Lemma split_names_raises file e : split_names fl file = Raise e → e = ValueError.
Proof.
  unfold split_names. destruct (PyStr.rsplit1 _ _) as [|? [|? [|? ?]]]; congruence.
Qed.

Lemma load_file_cases folder file w :
  match scan_target fl file with
  | Some (key, tex_name) =>
      load_file fl folder file w =
      (Ok (),
       with_mats
         (add_texture (loaded_mats w) key tex_name (file_path fl folder file)) w)
  | None =>
      if unsplittable fl file
      then load_file fl folder file w = (Raise ValueError, w)
      else load_file fl folder file w = (Ok (), w)
  end.
Proof.
  rewrite load_file_run. unfold scan_target, unsplittable.
  destruct (selected file); simpl; [| done].
  destruct (split_names fl file) as [[? ?]|e] eqn:Hs; [done |].
  by apply split_names_raises in Hs as ->.
Qed.

Lemma scan_target_splits file key t :
  scan_target fl file = Some (key, t) → unsplittable fl file = false.
Proof.
  unfold scan_target, unsplittable.
  destruct (selected file); [| done].
  by destruct (split_names fl file) as [[? ?]|].
Qed.

(** The scan touches the catalog only. *)
Lemma load_file_frame folder file w :
  let w' := snd (load_file fl folder file w) in
  texture_type_filter w' = texture_type_filter w ∧ host w' = host w ∧
  fs w' = fs w ∧ log w' = log w.
Proof.
  rewrite load_file_run. destruct (selected file); [| done].
  by destruct (split_names fl file) as [[? ?]|].
Qed.

Lemma scan_files_frame folder files w :
  let w' := snd (for_each files (load_file fl folder) w) in
  texture_type_filter w' = texture_type_filter w ∧ host w' = host w ∧
  fs w' = fs w ∧ log w' = log w.
Proof.
  revert w. induction files as [|g files IH]; intros w; [done |].
  rewrite for_each_cons.
  pose proof (load_file_frame folder g w) as Hg.
  destruct (load_file fl folder g w) as [[[]|e] w1]; simpl in *.
  - destruct (IH w1) as (-> & -> & -> & ->). done.
  - done.
Qed.

(** The texture entries during the scan of one file. *)
Lemma load_file_lookup folder file w k t :
  tex_lookup (loaded_mats (snd (load_file fl folder file w))) k t =
  match tex_lookup (loaded_mats w) k t with
  | Some e => Some e
  | None =>
      if bool_decide (scan_target fl file = Some (k, t))
      then Some {| tex_file := file_path fl folder file; tex_import := true |}
      else None
  end.
Proof.
  pose proof (load_file_cases folder file w) as Hc.
  destruct (scan_target fl file) as [[key tex_name]|].
  - rewrite Hc. simpl. rewrite add_texture_lookup.
    destruct (tex_lookup (loaded_mats w) k t); [done |].
    destruct (String.eqb_spec key k) as [->|]; simpl.
    + destruct (String.eqb_spec tex_name t) as [->|].
      * by rewrite bool_decide_eq_true_2.
      * rewrite bool_decide_eq_false_2; [done | congruence].
    + rewrite bool_decide_eq_false_2; [done | congruence].
  - rewrite bool_decide_eq_false_2 by done.
    destruct (unsplittable fl file); rewrite Hc; simpl;
      by destruct (tex_lookup _ k t).
Qed.

(** The texture entries after a scan that went through: first write wins,
    from the catalog before the scan on to the last file. *)
Lemma scan_files_lookup folder files w w' k t :
  for_each files (load_file fl folder) w = (Ok (), w') →
  tex_lookup (loaded_mats w') k t =
  match tex_lookup (loaded_mats w) k t with
  | Some e => Some e
  | None =>
      (λ g, {| tex_file := file_path fl folder g; tex_import := true |})
        <$> first_filed fl files k t
  end.
Proof.
  revert w. induction files as [|g files IH]; intros w.
  - intros [= ->]. simpl. by destruct (tex_lookup _ k t).
  - rewrite for_each_cons.
    pose proof (load_file_lookup folder g w k t) as Hg.
    destruct (load_file fl folder g w) as [[[]|e] w1]; [| done].
    intros Hrest. rewrite (IH _ Hrest). simpl in Hg. rewrite Hg.
    destruct (tex_lookup (loaded_mats w) k t); [done |]. simpl.
    by destruct (bool_decide _).
Qed.

(** Whatever the scan does later, an entry that is there stays as it is. *)
Lemma scan_files_keeps_texture folder files w k t e :
  tex_lookup (loaded_mats w) k t = Some e →
  tex_lookup (loaded_mats (snd (for_each files (load_file fl folder) w))) k t = Some e.
Proof.
  revert w. induction files as [|g files IH]; intros w Hw; [done |].
  rewrite for_each_cons.
  pose proof (load_file_lookup folder g w k t) as Hg. rewrite Hw in Hg.
  destruct (load_file fl folder g w) as [[[]|?] w1]; simpl in *; auto.
Qed.

Lemma load_file_flag folder file w k entry :
  Dict.get (loaded_mats w) k = Some entry →
  mat_import <$> Dict.get (loaded_mats (snd (load_file fl folder file w))) k
  = Some (mat_import entry).
Proof.
  intros Hk. rewrite load_file_run. destruct (selected file).
  - destruct (split_names fl file) as [[m t]|]; simpl.
    + by rewrite add_texture_flag, Hk.
    + by rewrite Hk.
  - simpl. by rewrite Hk.
Qed.

Lemma scan_files_keeps_flag folder files w k entry :
  Dict.get (loaded_mats w) k = Some entry →
  mat_import <$> Dict.get (loaded_mats (snd (for_each files (load_file fl folder) w))) k
  = Some (mat_import entry).
Proof.
  revert w entry. induction files as [|g files IH]; intros w entry Hw.
  - simpl. by rewrite Hw.
  - rewrite for_each_cons.
    pose proof (load_file_flag folder g w k entry Hw) as Hg.
    destruct (load_file fl folder g w) as [[[]|?] w1]; simpl in *; [| done].
    destruct (Dict.get (loaded_mats w1) k) as [entry1|] eqn:H1; [| done].
    injection Hg as <-. by apply IH.
Qed.

Lemma scan_files_unique_keys folder files w :
  unique_keys (loaded_mats w) →
  unique_keys (loaded_mats (snd (for_each files (load_file fl folder) w))).
Proof.
  revert w. induction files as [|g files IH]; intros w Hw; [done |].
  rewrite for_each_cons.
  assert (unique_keys (loaded_mats (snd (load_file fl folder g w)))).
  { rewrite load_file_run. destruct (selected g); [| done].
    destruct (split_names fl g) as [[m t]|]; [| done].
    by apply add_texture_unique_keys. }
  destruct (load_file fl folder g w) as [[[]|?] w1]; simpl in *; auto.
Qed.

(** The scan goes through exactly when no selected file fails to split. *)
Lemma scan_files_ok folder files w :
  existsb (unsplittable fl) files = false →
  fst (for_each files (load_file fl folder) w) = Ok ().
Proof.
  revert w. induction files as [|g files IH]; intros w; [done |].
  intros [Hg Hfiles]%orb_false_iff. rewrite for_each_cons.
  pose proof (load_file_cases folder g w) as Hc. rewrite Hg in Hc.
  destruct (scan_target fl g) as [[? ?]|]; rewrite Hc; auto.
Qed.

Lemma scan_files_raise folder pre g post w :
  existsb (unsplittable fl) pre = false →
  unsplittable fl g = true →
  for_each (pre ++ g :: post) (load_file fl folder) w =
  (Raise ValueError, snd (for_each pre (load_file fl folder) w)).
Proof.
  intros Hpre Hg.
  pose proof (scan_files_ok folder pre w Hpre) as Hok.
  destruct (for_each pre (load_file fl folder) w) as [r w1] eqn:Hrun. simpl in Hok. subst r.
  rewrite (for_each_app_ok _ _ _ _ _ Hrun), for_each_cons.
  pose proof (load_file_cases folder g w1) as Hc.
  destruct (scan_target fl g) as [[? ?]|] eqn:Ht.
  - apply scan_target_splits in Ht. congruence.
  - rewrite Hg in Hc. by rewrite Hc.
Qed.

Lemma scan_files_ok_inv folder files w :
  fst (for_each files (load_file fl folder) w) = Ok () →
  existsb (unsplittable fl) files = false.
Proof.
  intros Hok. destruct (existsb (unsplittable fl) files) eqn:Hex; [| done].
  exfalso. revert w Hok. induction files as [|g files IH]; intros w; [done |].
  rewrite for_each_cons.
  pose proof (load_file_cases folder g w) as Hc.
  simpl in Hex. destruct (unsplittable fl g) eqn:Hg.
  - destruct (scan_target fl g) as [[? ?]|] eqn:Ht.
    + apply scan_target_splits in Ht. congruence.
    + by rewrite Hc.
  - destruct (load_file fl folder g w) as [[[]|?] w1]; [eauto | done].
Qed.

(** A second scan of files that are all in the catalog changes nothing. *)
Lemma scan_files_again folder files w :
  (∀ g key t, In g files → scan_target fl g = Some (key, t) →
     is_Some (tex_lookup (loaded_mats w) key t)) →
  existsb (unsplittable fl) files = false →
  for_each files (load_file fl folder) w = (Ok (), w).
Proof.
  induction files as [|g files IH]; intros Hin Hex; [done |].
  apply orb_false_iff in Hex as [Hg Hex]. rewrite for_each_cons.
  pose proof (load_file_cases folder g w) as Hc. rewrite Hg in Hc.
  destruct (scan_target fl g) as [[key t]|] eqn:Ht; rewrite Hc.
  - destruct (Hin g key t) as [e He]; [by left | done |].
    rewrite (add_texture_same _ _ _ _ _ He), with_mats_same.
    apply IH; [| done]. intros g' ? ? ?. apply Hin. by right.
  - apply IH; [| done]. intros g' ? ? ?. apply Hin. by right.
Qed.

Lemma first_filed_In files g key t :
  In g files → scan_target fl g = Some (key, t) →
  is_Some (first_filed fl files key t).
Proof.
  intros Hin Ht. unfold first_filed.
  destruct (List.find _ files) eqn:Hfind; [done |].
  eapply find_none in Hfind; [| done]. simpl in Hfind.
  by rewrite bool_decide_eq_true_2 in Hfind.
Qed.

Lemma scan_files_idempotent folder files w w' :
  for_each files (load_file fl folder) w = (Ok (), w') →
  for_each files (load_file fl folder) w' = (Ok (), w').
Proof.
  intros Hrun. apply scan_files_again.
  - intros g key t Hin Ht. rewrite (scan_files_lookup _ _ _ _ _ _ Hrun).
    destruct (tex_lookup (loaded_mats w) key t); [done |].
    destruct (first_filed_In files g key t Hin Ht) as [g' ->]. done.
  - apply (scan_files_ok_inv folder files w). by rewrite Hrun.
Qed.

Lemma split_names_stripped file :
  split_names fl file =
  match PyStr.rsplit_last "_" (stripped fl file) with
  | Some (mat_name, tex_name) => Ok (mat_name, tex_name)
  | None => Raise ValueError
  end.
Proof.
  unfold split_names, PyStr.rsplit1. fold (stripped fl file).
  by destruct (PyStr.rsplit_last "_" (stripped fl file)) as [[? ?]|].
Qed.

(** The files the scan stops at: selected, and without an underscore left
    once extension, prefix and suffix mark are gone. *)
Lemma unsplittable_spec file :
  unsplittable fl file = selected file && negb (PyStr.mem "_" (stripped fl file)).
Proof.
  unfold unsplittable. rewrite split_names_stripped. f_equal.
  destruct (PyStr.rsplit_last "_" (stripped fl file)) as [[l r]|] eqn:Hs.
  - apply rsplit_last_Some in Hs as [-> _].
    rewrite mem_app. simpl. by rewrite orb_true_r.
  - destruct (PyStr.mem "_" (stripped fl file)) eqn:Hm; [| done].
    exfalso. revert Hs Hm. generalize (stripped fl file). intros s.
    induction s as [|c s IH]; simpl; [done |].
    destruct (PyStr.rsplit_last "_" s) as [[? ?]|]; [done |].
    destruct (Ascii.eqb c "_"); [done | auto].
Qed.

Lemma no_unsplittable_iff files :
  existsb (unsplittable fl) files = false ↔
  ∀ g, In g files → selected g = true → PyStr.mem "_" (stripped fl g) = true.
Proof.
  induction files as [|g l IH]; simpl; [by split |].
  rewrite orb_false_iff, IH, unsplittable_spec. split.
  - intros [Hg Hl] g' [<-|Hin] Hsel; [| by apply Hl].
    rewrite Hsel in Hg. by destruct (PyStr.mem _ _).
  - intros Hl. split; [| intros g' ? ?; apply Hl; [by right | done]].
    destruct (selected g) eqn:Hsel; [| done].
    rewrite (Hl g); [done | by left | done].
Qed.

Lemma first_filed_app pre post key t :
  first_filed fl (pre ++ post) key t =
  match first_filed fl pre key t with
  | Some g => Some g
  | None => first_filed fl post key t
  end.
Proof.
  unfold first_filed. induction pre as [|g pre IH]; simpl; [done |].
  by destruct (bool_decide _).
Qed.

Lemma load_materials_data_run folder w :
  load_materials_data fl folder w =
  match fs w folder with
  | Some files => for_each files (load_file fl folder) w
  | None => (Raise OSError, w)
  end.
Proof.
  unfold load_materials_data. rewrite bind_run. unfold listdir.
  by destruct (fs w folder).
Qed.

End ScanFacts.

(** ** The scan: what the catalog holds afterwards *)

Section ScanTheorems.

Context {H : Type}.
Variable fl : PathFlavour.
Implicit Types (w : World H) (folder file : string) (files : list string).

(** C1 (amended). Let [file] be [Mesh_{m}_mat_{t}{ext}] with [ext] one of the
    four extensions, [m] free of the suffix mark [_mat], [t] free of
    underscores and not starting with [mat], and no path separator in the
    name. When the scan of a folder reaches [file], that is when every
    selected file listed before it splits, the catalog afterwards has, under
    the key [m.capitalize()], a texture entry named [t], whatever the files
    listed after it; for an ASCII [m] the key is [m] with its first character
    in upper case and all others in LOWER case. First write wins: the entry
    is the one the catalog had before the scan if there was one, else it
    holds the path of the first file of the listing filed under the same key
    and name, which is [file] itself unless an earlier one is. *)
Theorem scan_files_valid_name folder m t ext pre post w :
  In ext _EXTENSIONS →
  PyStr.contains m "_mat" = false →
  PyStr.mem "_" t = false →
  PyStr.startswith t "mat" = false →
  let file := _PREFIX +:+ m +:+ "_mat_" +:+ t +:+ ext in
  let key := PyStr.capitalize (unicode_capitalize fl) m in
  OsPath.has_sep fl file = false →
  fs w folder = Some (pre ++ file :: post) →
  (∀ g, In g pre → selected g = true →
        PyStr.mem "_" (stripped fl g) = true) →
  (PyStr.is_ascii m = true →
   key = match m with
         | EmptyString => EmptyString
         | String c rest => String (PyStr.upper_char c) (PyStr.lower rest)
         end) ∧
  tex_lookup (loaded_mats (snd (load_materials_data fl folder w))) key t =
  match tex_lookup (loaded_mats w) key t with
  | Some e => Some e
  | None =>
      Some {| tex_file :=
                file_path fl folder (default file (first_filed fl pre key t));
              tex_import := true |}
  end.
Proof.
  intros Hext Hm Ht Hmat file key Hsep Hfs Hpre.
  split; [intros Ha; unfold key, PyStr.capitalize; by rewrite Ha |].
  rewrite load_materials_data_run, Hfs.
  apply no_unsplittable_iff in Hpre.
  pose proof (scan_files_ok fl folder pre w Hpre) as Hok.
  destruct (for_each pre (load_file fl folder) w) as [r w1] eqn:Hrun.
  simpl in Hok. subst r.
  rewrite (for_each_app_ok _ _ _ _ _ Hrun), for_each_cons.
  assert (Htarget : scan_target fl file = Some (key, t)).
  { unfold scan_target, selected.
    assert (PyStr.endswith_any file _EXTENSIONS = true) as ->.
    { apply endswith_any_spec.
      exists (_PREFIX +:+ m +:+ "_mat_" +:+ t), ext. split; [done |].
      unfold file. by rewrite !str_app_assoc. }
    unfold file. by rewrite split_names_valid. }
  pose proof (load_file_cases fl folder file w1) as Hfile.
  rewrite Htarget in Hfile.
  pose proof (load_file_lookup fl folder file w1 key t) as Hlook.
  rewrite Hfile in *. cbn [snd] in Hlook.
  rewrite bool_decide_eq_true_2 in Hlook by done.
  rewrite (scan_files_lookup fl folder pre w w1 key t Hrun) in Hlook.
  set (w2 := with_mats _ w1) in *.
  destruct (tex_lookup (loaded_mats w) key t) as [e|].
  - by apply scan_files_keeps_texture.
  - destruct (first_filed fl pre key t) as [g|]; simpl in *;
      by apply scan_files_keeps_texture.
Qed.

(** C2 (amended). The scan has no way to skip a file it has selected. It goes
    through when no selected file of the listing is left without an
    underscore once extension, prefix and suffix mark are stripped; at the
    first selected file that is, unpacking the split raises [ValueError], the
    scan ends there, the files before it have been filed and the files after
    it are not looked at. *)
Theorem scan_stops_at_unsplittable folder files w :
  fs w folder = Some files →
  (fst (load_materials_data fl folder w) = Ok () ↔
   ∀ g, In g files → selected g = true → PyStr.mem "_" (stripped fl g) = true) ∧
  (∀ pre g post,
     files = pre ++ g :: post →
     (∀ g', In g' pre → selected g' = true →
        PyStr.mem "_" (stripped fl g') = true) →
     selected g = true → PyStr.mem "_" (stripped fl g) = false →
     load_materials_data fl folder w =
     (Raise ValueError, snd (for_each pre (load_file fl folder) w))).
Proof.
  intros Hfs. rewrite load_materials_data_run, Hfs. split.
  - rewrite <- no_unsplittable_iff.
    split; [apply scan_files_ok_inv | apply scan_files_ok].
  - intros pre g post -> Hpre Hsel Hmem.
    apply scan_files_raise; [by apply no_unsplittable_iff |].
    by rewrite unsplittable_spec, Hsel, Hmem.
Qed.

(** C4. Whatever the catalog holds and whatever the folder lists, a scan
    keeps every texture entry (path and import tag) and every material
    import tag that was there, and keeps material keys and texture names
    free of duplicates; a second scan of the same folder right after one that went through changes
    nothing at all. *)
Theorem rescan_keeps_entries folder w :
  let w' := snd (load_materials_data fl folder w) in
  (∀ key t e,
     tex_lookup (loaded_mats w) key t = Some e →
     tex_lookup (loaded_mats w') key t = Some e) ∧
  (∀ key entry,
     Dict.get (loaded_mats w) key = Some entry →
     mat_import <$> Dict.get (loaded_mats w') key = Some (mat_import entry)) ∧
  (unique_keys (loaded_mats w) → unique_keys (loaded_mats w')) ∧
  (∀ w0,
     load_materials_data fl folder w0 = (Ok (), w) →
     load_materials_data fl folder w = (Ok (), w)).
Proof.
  intros w'. subst w'. rewrite load_materials_data_run.
  destruct (fs w folder) as [files|] eqn:Hfs.
  - split_and!.
    + intros. by apply scan_files_keeps_texture.
    + intros. by apply scan_files_keeps_flag.
    + apply scan_files_unique_keys.
    + intros w0. rewrite load_materials_data_run.
      destruct (fs w0 folder) as [files0|] eqn:Hfs0; [| done].
      intros Hrun.
      pose proof (scan_files_frame fl folder files0 w0) as Hframe.
      rewrite Hrun in Hframe. destruct Hframe as (_ & _ & Hfs' & _).
      simpl in Hfs'. rewrite Hfs', Hfs0 in Hfs. injection Hfs as <-.
      by apply (scan_files_idempotent fl folder files0 w0).
  - simpl. split_and!; try done.
    + intros key entry ->. done.
    + intros w0. rewrite load_materials_data_run.
      destruct (fs w0 folder) as [files0|] eqn:Hfs0; [| done].
      intros Hrun.
      pose proof (scan_files_frame fl folder files0 w0) as Hframe.
      rewrite Hrun in Hframe. destruct Hframe as (_ & _ & Hfs' & _).
      simpl in Hfs'. congruence.
Qed.

(** C5 (amended). The scan parses a file exactly when its name ends, character
    for character, in one of [.png], [.bmp], [.jpeg], [.jpg]; every other
    file, an upper-case [.PNG] included, is passed over. *)
Theorem load_file_selects_suffix folder file w :
  ((∃ stem ext, In ext [".png"; ".bmp"; ".jpeg"; ".jpg"] ∧ file = stem +:+ ext) →
   load_file fl folder file w =
   match split_names fl file with
   | Ok (mat_name, tex_name) =>
       (Ok (),
        with_mats
          (add_texture (loaded_mats w)
             (PyStr.capitalize (unicode_capitalize fl) mat_name) tex_name
             (normcase fl (join fl folder file))) w)
   | Raise e => (Raise e, w)
   end) ∧
  (¬ (∃ stem ext, In ext [".png"; ".bmp"; ".jpeg"; ".jpg"] ∧ file = stem +:+ ext) →
   load_file fl folder file w = (Ok (), w)).
Proof.
  rewrite load_file_run. unfold selected, file_path.
  pose proof (endswith_any_spec file _EXTENSIONS) as Hspec.
  change _EXTENSIONS with [".png"; ".bmp"; ".jpeg"; ".jpg"] in *.
  destruct (PyStr.endswith_any file _) eqn:Hsel.
  - split; [done |]. intros Hno. destruct Hno. by apply Hspec.
  - split; [| done]. intros Hyes. apply Hspec in Hyes. done.
Qed.

End ScanTheorems.

(** ** Events of host commands *)

Section EmitRules.

Context {H : Type}.
Variable maya : Maya H.
Variable F : gset TexType.
Implicit Types (w : World H) (d : list Event) (c : Call).

Lemma emits_ret {A} (a : A) (Φ : result A → list Event → Prop) :
  Φ (Ok a) [] → emits F (ret a : M H A) Φ.
Proof.
  intros HΦ w Hw. simpl. split_and!; try done.
  exists []. by rewrite app_nil_r.
Qed.

Lemma emits_raise {A} (e : exn) (Φ : result A → list Event → Prop) :
  Φ (Raise e) [] → emits F (raise e : M H A) Φ.
Proof.
  intros HΦ w Hw. simpl. split_and!; try done.
  exists []. by rewrite app_nil_r.
Qed.

Lemma emits_conseq {A} (m : M H A) (Φ Ψ : result A → list Event → Prop) :
  emits F m Φ → (∀ r d, Φ r d → Ψ r d) → emits F m Ψ.
Proof.
  intros Hm Himp w Hw. destruct (Hm w Hw) as (? & ? & ? & d & ? & ?).
  split_and!; try done. exists d. auto.
Qed.

Lemma emits_bind {A B} (m : M H A) (k : A → M H B)
    (Φ1 : result A → list Event → Prop)
    (Φ2 : A → result B → list Event → Prop)
    (Φ : result B → list Event → Prop) :
  emits F m Φ1 →
  (∀ a, emits F (k a) (Φ2 a)) →
  (∀ a d1 r d2, Φ1 (Ok a) d1 → Φ2 a r d2 → Φ r (d1 ++ d2)) →
  (∀ e d1, Φ1 (Raise e) d1 → Φ (Raise e) d1) →
  emits F (m ≫= k) Φ.
Proof.
  intros Hm Hk Hok Hraise w Hw. rewrite bind_run.
  destruct (Hm w Hw) as (Hmats & Hfilter & Hfs & d1 & Hlog & H1).
  destruct (m w) as [[a|e] w1]; simpl in *.
  - destruct (Hk a w1 Hfilter) as (Hmats2 & Hfilter2 & Hfs2 & d2 & Hlog2 & H2).
    split_and!; try congruence.
    exists (d1 ++ d2). split; [| by eapply Hok].
    by rewrite Hlog2, Hlog, (assoc_L (++)).
  - split_and!; try done. exists d1. auto.
Qed.

(** The three kinds of host command: one event, whatever the host answers. *)
Lemma emits_exec c (Φ : result () → list Event → Prop) :
  (∀ r, Φ r [Cmd c]) → emits F (cmds_exec maya c) Φ.
Proof.
  intros HΦ w Hw. unfold cmds_exec.
  destruct (maya_exec maya c (host w)) as [[|] h]; simpl;
    split_and!; try done; by exists [Cmd c].
Qed.

Lemma emits_shadingNode type cls name (Φ : result string → list Event → Prop) :
  (∀ r, Φ r [Cmd (shadingNode type cls name)]) →
  emits F (cmds_shadingNode maya type cls name) Φ.
Proof.
  intros HΦ w Hw. unfold cmds_shadingNode.
  destruct (maya_shadingNode maya type cls name (host w)) as [[?|] h]; simpl;
    split_and!; try done; by eexists [_].
Qed.

Lemma emits_ls_sl (Φ : result (list string) → list Event → Prop) :
  (∀ r, Φ r [Cmd ls_sl]) → emits F (cmds_ls_sl maya) Φ.
Proof.
  intros HΦ w Hw. unfold cmds_ls_sl.
  destruct (maya_ls_sl maya (host w)) as [[?|] h]; simpl;
    split_and!; try done; by eexists [_].
Qed.

Lemma emits_print text (Φ : result () → list Event → Prop) :
  Φ (Ok ()) [Stdout text] → emits F (print text : M H ()) Φ.
Proof. intros HΦ w Hw. simpl. split_and!; try done. by eexists [_]. Qed.

Lemma emits_gets_filter {B} (k : gset TexType → M H B)
    (Φ : result B → list Event → Prop) :
  emits F (k F) Φ → emits F (gets texture_type_filter ≫= k) Φ.
Proof. intros Hk w Hw. rewrite bind_run. simpl. rewrite Hw. by apply Hk. Qed.

Lemma emits_gets_mats {B} (k : list (string * MatEntry) → M H B)
    (Φ : result B → list Event → Prop) :
  (∀ mats, emits F (k mats) Φ) → emits F (gets loaded_mats ≫= k) Φ.
Proof. intros Hk w Hw. rewrite bind_run. simpl. by apply Hk. Qed.

(** Events that all satisfy [φ], whatever the result. *)
Lemma emits_all_bind {A B} (φ : Event → Prop) (m : M H A) (k : A → M H B) :
  emits F m (λ _ d, Forall φ d) →
  (∀ a, emits F (k a) (λ _ d, Forall φ d)) →
  emits F (m ≫= k) (λ _ d, Forall φ d).
Proof.
  intros Hm Hk. eapply emits_bind; [exact Hm | exact Hk | |]; simpl.
  - intros. by apply Forall_app.
  - done.
Qed.

Lemma emits_all_for_each {A} (φ : Event → Prop) (l : list A)
    (body : A → M H ()) :
  (∀ x, emits F (body x) (λ _ d, Forall φ d)) →
  emits F (for_each l body) (λ _ d, Forall φ d).
Proof.
  intros Hbody. induction l as [|x l IH].
  - by apply emits_ret.
  - by apply emits_all_bind.
Qed.

End EmitRules.

(** ** Events of the build *)

Section BuildFacts.

Context {H : Type}.
Variable maya : Maya H.
Variable F : gset TexType.
Implicit Types (w : World H) (d : list Event) (e : Event).

Lemma node_setup_build_event e : node_setup e → build_event F e.
Proof. by destruct e as [[]|]. Qed.

Lemma fixup_build_event e : fixup e → build_event F e.
Proof. by destruct e as [[]|]. Qed.

Lemma created_after file isRaw nf r d1 d2 :
  Forall (plain nf) d1 → created file isRaw nf r d2 →
  created file isRaw nf r (d1 ++ d2).
Proof.
  intros H1 (Hs & Hraw & Hok). split_and!.
  - apply Forall_app. split; [| done]. eapply Forall_impl; [done |]. by intros ? [].
  - apply Forall_app. split; [| done].
    eapply Forall_impl; [done |]. intros e [_ Hne] ->. by destruct (Hne (VString "Raw")).
  - intros nf' nt Hr. destruct (Hok nf' nt Hr) as (-> & Hfile & Hin).
    split_and!; [done | |]; rewrite in_app_iff; auto.
Qed.

Lemma created_raise file isRaw nf err d1 :
  Forall (plain nf) d1 → created file isRaw nf (Raise err) d1.
Proof.
  intros H1. split_and!; [| | done].
  - eapply Forall_impl; [done |]. by intros ? [].
  - eapply Forall_impl; [done |]. intros e [_ Hne] ->. by destruct (Hne (VString "Raw")).
Qed.

Lemma emits_then_created {A} file isRaw nf (m : M H A)
    (k : A → M H (string * string)) :
  emits F m (λ _ d, Forall (plain nf) d) →
  (∀ a, emits F (k a) (created file isRaw nf)) →
  emits F (m ≫= k) (created file isRaw nf).
Proof.
  intros Hm Hk. eapply emits_bind; [exact Hm | exact Hk | |]; simpl.
  - intros. by apply created_after.
  - intros. by apply created_raise.
Qed.

Lemma plain_connect nf src dst force : plain nf (Cmd (connectAttr src dst force)).
Proof. by split. Qed.

Lemma plain_node nf type cls name :
  cls ≠ asShader → plain nf (Cmd (shadingNode type cls name)).
Proof. by split. Qed.

(** The end of [_create_texture_node]: the two attributes and the result. *)
Lemma create_texture_node_attrs (file : string) (isRaw : bool) (nf nt : string) :
  emits F
    (cmds_exec maya (setAttr (nf +:+ ".fileTextureName") (VString file)) ;;
     (if isRaw
      then cmds_exec maya (setAttr (nf +:+ ".colorSpace") (VString "Raw"))
      else ret ()) ;;
     (ret (nf, nt) : M H (string * string)))
    (created file isRaw nf).
Proof.
  assert (Hne : Cmd (setAttr (nf +:+ ".fileTextureName") (VString file)) ≠
                Cmd (setAttr (nf +:+ ".colorSpace") (VString "Raw"))).
  { intros [= Heq%str_app_inv_head _]. discriminate. }
  eapply emits_bind with
    (Φ1 := λ _ d, d = [Cmd (setAttr (nf +:+ ".fileTextureName") (VString file))])
    (Φ2 := λ _ r d,
       (d = [] ∧ isRaw = false ∨
        d = [Cmd (setAttr (nf +:+ ".colorSpace") (VString "Raw"))] ∧ isRaw = true) ∧
       ∀ a, r = Ok a → a = (nf, nt)).
  - by apply emits_exec.
  - intros _. eapply emits_bind with
      (Φ1 := λ _ d,
         d = [] ∧ isRaw = false ∨
         d = [Cmd (setAttr (nf +:+ ".colorSpace") (VString "Raw"))] ∧ isRaw = true)
      (Φ2 := λ _ r d, d = [] ∧ r = Ok (nf, nt)).
    + destruct isRaw; [apply emits_exec | apply emits_ret]; auto.
    + intros _. by apply emits_ret.
    + intros _ d1 r d2 Hd1 [-> ->]. rewrite app_nil_r. split; [done |]. by intros ? [= <-].
    + intros err d1 Hd1. split; [done |]. done.
  - intros _ d1 r d2 -> [Hd2 Hr]. split_and!.
    + destruct Hd2 as [[-> _]|[-> _]]; by repeat constructor.
    + destruct Hd2 as [[-> ?]|[-> ?]]; simpl;
        repeat (apply Forall_cons; split); try apply Forall_nil;
        first [done | intros Heq; by destruct Hne].
    + intros nf' nt' ->. specialize (Hr _ eq_refl). injection Hr as -> ->.
      split_and!; [done | by left |].
      intros Hraw. destruct Hd2 as [[_ ?]|[-> _]]; [congruence |]. right. by left.
  - intros err d1 ->. split_and!; [by repeat constructor | | done].
    apply Forall_cons. split; [| by apply Forall_nil].
    intros Heq. by destruct Hne.
Qed.

(** [_create_texture_node]: nodes, connections and attributes only; when it
    returns, the file name of the new file node has been set, and its color
    space has been set to raw exactly if [isRaw] holds. *)
Lemma create_texture_node_events name file isRaw :
  emits F (_create_texture_node maya name file isRaw)
    (λ r d,
       Forall node_setup d ∧
       ∀ nf nt, r = Ok (nf, nt) →
         In (Cmd (setAttr (nf +:+ ".fileTextureName") (VString file))) d ∧
         (In (Cmd (setAttr (nf +:+ ".colorSpace") (VString "Raw"))) d ↔
          isRaw = true)).
Proof.
  unfold _create_texture_node.
  eapply emits_bind with
    (Φ1 := λ _ d,
       d = [Cmd (shadingNode "file" (asTexture true) (name +:+ "_file"))])
    (Φ2 := created file isRaw).
  - by apply emits_shadingNode.
  - intros nf. apply emits_then_created.
    { apply emits_shadingNode. intros _. repeat constructor; done. }
    intros nt. apply emits_then_created.
    { apply emits_all_for_each. intros x. apply emits_exec.
      intros _. repeat constructor; done. }
    intros _. apply emits_then_created.
    { apply emits_all_for_each. intros [a b]. apply emits_exec.
      intros _. repeat constructor; done. }
    intros _. apply create_texture_node_attrs.
  - intros nf d1 r d2 -> (Hs & Hraw & Hok). split.
    + apply Forall_app. split; [by repeat constructor | done].
    + intros nf' nt ->. destruct (Hok _ _ eq_refl) as (-> & Hfile & Hin).
      split; [by right |]. split.
      * intros [Hin1|Hin2]; [done |].
        rewrite Forall_forall in Hraw. apply (Hraw _ (proj2 (list_elem_of_In _ _) Hin2)). done.
      * intros Hr. right. auto.
  - intros err d1 ->. split; [by repeat constructor | done].
Qed.

(** The loop body over the textures, event by event. *)
Lemma import_texture_events (material_name material_node : string)
    (item : string * TexEntry) :
  emits F (import_texture maya material_name material_node item)
    (λ _ d, Forall (build_event F) d).
Proof.
  destruct item as [tex_name [file is_import]]. unfold import_texture.
  destruct is_import; simpl; [| by apply emits_ret].
  destruct (TexTypeM.getitem tex_name) as [k|].
  - apply emits_gets_filter.
    destruct (bool_decide (k ∈ F)) eqn:Hk; simpl; [| by apply emits_ret].
    apply bool_decide_eq_true in Hk.
    apply emits_all_bind.
    { eapply emits_conseq; [apply create_texture_node_events |]. simpl.
      intros r d [Hd _]. eapply Forall_impl; [done |].
      apply node_setup_build_event. }
    intros [node_file node_tex]. apply emits_all_bind.
    { apply emits_exec. intros _. repeat constructor. by exists material_node, k. }
    intros _. destruct k; try by apply emits_ret.
    + apply emits_exec. intros _. by repeat constructor.
    + apply emits_all_bind; [apply emits_ls_sl; intros _; by repeat constructor |].
      intros [|bump_node sel]; [by apply emits_raise |].
      apply emits_exec. intros _. by repeat constructor.
  - apply emits_print. by repeat constructor.
Qed.

(** A connection made by the loop body is that of the texture of the item:
    its name is that of a kind in the filter, the item is tagged for import,
    the node connected had its file name set to the file of the item and its
    color space set to raw exactly if the kind is not [BaseColor]. *)
Lemma import_texture_wired (material_name material_node tex_name file : string)
    (is_import : bool) :
  emits F
    (import_texture maya material_name material_node
       (tex_name, {| tex_file := file; tex_import := is_import |}))
    (λ _ d, ∀ src dst,
       In (Cmd (defaultNavigation src dst)) d →
       ∃ k, TexTypeM.getitem tex_name = Some k ∧ k ∈ F ∧ is_import = true ∧
            dst = material_node +:+ "." +:+ TexTypeM.value k ∧
            In (Cmd (setAttr (src +:+ ".fileTextureName") (VString file))) d ∧
            (In (Cmd (setAttr (src +:+ ".colorSpace") (VString "Raw"))) d ↔
             k ≠ BaseColor)).
Proof.
  unfold import_texture.
  destruct is_import; simpl; [| by apply emits_ret].
  destruct (TexTypeM.getitem tex_name) as [k|].
  - apply emits_gets_filter.
    destruct (bool_decide (k ∈ F)) eqn:Hk; simpl; [| by apply emits_ret].
    apply bool_decide_eq_true in Hk.
    eapply emits_bind with
      (Φ2 := λ '(nf, _) _ d, ∃ d',
         d = Cmd (defaultNavigation nf
                    (material_node +:+ "." +:+ TexTypeM.value k)) :: d' ∧
         Forall fixup d').
    + apply create_texture_node_events.
    + intros [nf nt]. eapply emits_bind with
        (Φ1 := λ _ d, d = [Cmd (defaultNavigation nf
                              (material_node +:+ "." +:+ TexTypeM.value k))])
        (Φ2 := λ _ _ d, Forall fixup d).
      * by apply emits_exec.
      * intros _. destruct k; try by apply emits_ret.
        -- apply emits_exec. intros _. by repeat constructor.
        -- apply emits_all_bind; [apply emits_ls_sl; intros _; by repeat constructor |].
           intros [|bump_node sel]; [by apply emits_raise |].
           apply emits_exec. intros _. by repeat constructor.
      * intros _ d1 r d2 -> Hd2. by exists d2.
      * intros err d1 ->. by exists [].
    + simpl. intros [nf nt] d1 r d2 [Hsetup Hok] (d' & -> & Hfix) src dst.
      destruct (Hok nf nt eq_refl) as [Hfile Hraw].
      rewrite Forall_forall in Hsetup, Hfix.
      setoid_rewrite list_elem_of_In in Hsetup.
      setoid_rewrite list_elem_of_In in Hfix.
      intros [Hin|[Heq|Hin]]%in_app_iff.
      * by apply Hsetup in Hin.
      * injection Heq as <- <-. exists k. split_and!; try done.
        -- apply in_app_iff. by left.
        -- rewrite in_app_iff, Hraw, negb_true_iff, bool_decide_eq_false.
           split; [intros [?|[?|Hin]]; [done | done |] | by left].
           by apply Hfix in Hin.
      * by apply Hfix in Hin.
    + simpl. intros err d1 [Hsetup _] src dst Hin.
      rewrite Forall_forall in Hsetup.
      by apply list_elem_of_In, Hsetup in Hin.
  - apply emits_print. intros src dst [?|[]]. done.
Qed.

(** The build of one material: the request for its shader node comes first
    and is the only one. *)
Lemma import_loaded_material_events (material_name : string) :
  emits F (import_loaded_material maya material_name)
    (λ _ d, ∃ d',
       d = Cmd (shadingNode "RedshiftMaterial" asShader material_name) :: d' ∧
       Forall (build_event F) d').
Proof.
  unfold import_loaded_material.
  eapply emits_bind with
    (Φ1 := λ _ d,
       d = [Cmd (shadingNode "RedshiftMaterial" asShader material_name)])
    (Φ2 := λ _ _ d, Forall (build_event F) d).
  - by apply emits_shadingNode.
  - intros material_node. apply emits_all_bind.
    { apply emits_exec. intros _. by repeat constructor. }
    intros _. apply emits_all_bind.
    { apply emits_exec. intros _. by repeat constructor. }
    intros _. apply emits_gets_mats. intros mats.
    destruct (Dict.get mats material_name) as [entry|]; [| by apply emits_raise].
    apply emits_all_for_each. intros item. apply import_texture_events.
  - intros _ d1 r d2 -> Hd2. by exists d2.
  - intros err d1 ->. by exists [].
Qed.

Lemma shader_requests_app d1 d2 :
  shader_requests (d1 ++ d2) = shader_requests d1 ++ shader_requests d2.
Proof. apply omap_app. Qed.

Lemma shader_requests_build_events d :
  Forall (build_event F) d → shader_requests d = [].
Proof.
  induction 1 as [|e d He Hd IH]; [done |].
  change (shader_requests (e :: d))
    with (match shader_request e with
          | Some name => name :: shader_requests d
          | None => shader_requests d
          end).
  rewrite IH. by destruct e as [[type [] name| | | | |]|].
Qed.

(** The loop over the materials asks for the shader nodes of the materials
    tagged for import, in catalog order, up to the first build that raises. *)
Lemma import_items_events (items : list (string * MatEntry)) :
  emits F (for_each items (import_material_item maya))
    (λ r d,
       shader_requests d `prefix_of` included items ∧
       (r = Ok () → shader_requests d = included items) ∧
       Forall (λ e, shader_request e = None → build_event F e) d).
Proof.
  induction items as [|[name [texs is_import]] items IH].
  - apply emits_ret. by split_and!.
  - eapply emits_bind with
      (Φ1 := λ r d,
         (is_import = false ∧ d = [] ∧ r = Ok ()) ∨
         (is_import = true ∧ ∃ d',
            d = Cmd (shadingNode "RedshiftMaterial" asShader name) :: d' ∧
            Forall (build_event F) d'))
      (Φ2 := λ _ r d,
         shader_requests d `prefix_of` included items ∧
         (r = Ok () → shader_requests d = included items) ∧
         Forall (λ e, shader_request e = None → build_event F e) d).
    + simpl. destruct is_import; simpl.
      * eapply emits_conseq; [apply import_loaded_material_events |].
        intros r d Hd. right. by split.
      * apply emits_ret. by left.
    + intros []. apply IH.
    + simpl. intros [] d1 r d2 Hd1 (Hpre & Hok & Hall).
      destruct Hd1 as [(-> & -> & _)|(-> & d' & -> & Hd')]; [done |].
      unfold included in *. simpl.
      rewrite shader_requests_app.
      change (shader_requests (Cmd (shadingNode "RedshiftMaterial" asShader name) :: d'))
        with (name :: shader_requests d').
      rewrite (shader_requests_build_events d' Hd'). simpl.
      split_and!.
      * by apply prefix_cons.
      * intros Hr. by rewrite Hok.
      * constructor; [done |]. apply Forall_app. split; [| done].
        eapply Forall_impl; [done |]. auto.
    + simpl. intros err d1 [(_ & _ & [=])|(-> & d' & -> & Hd')].
      unfold included. simpl.
      change (shader_requests (Cmd (shadingNode "RedshiftMaterial" asShader name) :: d'))
        with (name :: shader_requests d').
      rewrite (shader_requests_build_events d' Hd').
      split_and!; [| done |].
      * apply prefix_cons, prefix_nil.
      * constructor; [done |]. eapply Forall_impl; [done |]. auto.
Qed.

End BuildFacts.

(** ** The host's side of the build *)

Section HostFacts.

Context {H : Type}.
Variable maya : Maya H.
Implicit Types (w : World H) (h : H) (d L : list Event) (e : exn).

Lemma host_run_app {A B} L1 L2 (a : A) (r : result B) d1 d2 :
  host_run L1 (Ok a) d1 → host_run L2 r d2 →
  host_run (L1 ++ L2) r (d1 ++ d2).
Proof.
  intros (_ & H1 & _) (Hp & Hok & Hex). rewrite (H1 a eq_refl).
  split_and!; [by apply prefix_app | | done].
  intros b Hr. by rewrite (Hok b Hr).
Qed.

Lemma host_run_stop {A B} L1 L2 e d1 :
  host_run L1 (Raise e : result A) d1 →
  host_run (L1 ++ L2) (Raise e : result B) d1.
Proof.
  intros (Hp & _ & Hex). split_and!; [by apply prefix_app_r | done |].
  intros e' [= <-]. by apply Hex.
Qed.

Lemma host_after_app d1 d2 h :
  host_after maya (d1 ++ d2) h = host_after maya d2 (host_after maya d1 h).
Proof. unfold host_after. apply fold_left_app. Qed.

Lemma refusals_app d1 d2 h :
  refusals maya (d1 ++ d2) h =
  refusals maya d1 h ++ refusals maya d2 (host_after maya d1 h).
Proof.
  revert h. induction d1 as [|e d1 IH]; intros h; [done |].
  simpl. by rewrite IH.
Qed.

Lemma refusals_length d h : length (refusals maya d h) = length d.
Proof.
  revert h. induction d as [|e d IH]; intros h; [done |].
  simpl. by rewrite IH.
Qed.

Lemma serve_exec c h : is_exec c = true → serve maya c h = maya_exec maya c h.
Proof. by destruct c. Qed.

(** A computation that obeys the host and does not raise its error has met
    no refusal. *)
Lemma obeys_clean {A} h (r : result A) d :
  obeys maya h r d → r ≠ Raise RuntimeError →
  Forall (λ b, b = false) (refusals maya d h).
Proof.
  intros [Hi Hl] Hr. apply Forall_lookup. intros i [|] Hb; [| done].
  destruct Hr. apply Hl. rewrite last_lookup, refusals_length.
  by rewrite <- (Hi i Hb).
Qed.

Lemma obeys_app {A} h (r : result A) d1 d2 :
  Forall (λ b, b = false) (refusals maya d1 h) →
  obeys maya (host_after maya d1 h) r d2 →
  obeys maya h r (d1 ++ d2).
Proof.
  intros Hc [Hi Hl]. unfold obeys. rewrite refusals_app. split.
  - intros i [Hb | [Hlen Hb]]%lookup_app_Some.
    + by pose proof (Forall_lookup_1 _ _ _ _ Hc Hb).
    + apply Hi in Hb. rewrite refusals_length in Hlen, Hb.
      rewrite length_app. lia.
  - rewrite Hl, last_app.
    destruct (last (refusals maya d2 (host_after maya d1 h))); [done |].
    split; [done |]. intros Hlast%last_Some_elem_of.
    by pose proof (proj1 (Forall_forall _ _) Hc _ Hlast).
Qed.

Lemma obeys_retype {A B} h e d :
  obeys maya h (Raise e : result A) d → obeys maya h (Raise e : result B) d.
Proof.
  intros [Hi Hl]. split; [done |]. rewrite <- Hl.
  split; by intros [= ->].
Qed.

Lemma obeys_nil {A} h (r : result A) :
  r ≠ Raise RuntimeError → obeys maya h r [].
Proof. intros Hr. split; [by intros i [=] | done]. Qed.

Lemma obeys_print {A} h text (a : A) : obeys maya h (Ok a) [Stdout text].
Proof. split; [by intros [|i] [=] | done]. Qed.

Lemma obeys_cmd {A} h c (r : result A) :
  (r = Raise RuntimeError ↔ fst (serve maya c h) = false) →
  obeys maya h r [Cmd c].
Proof.
  intros Hr. split; [by intros [|i] [=] |]. rewrite Hr. simpl.
  destruct (serve maya c h) as [[] ?]; simpl; split; congruence.
Qed.

Section Rules.

Variable F : gset TexType.
Variable mats : list (string * MatEntry).

Lemma serves_ret {A} (a : A) (Φ : H → result A → list Event → Prop) :
  (∀ h, Φ h (Ok a) []) → serves maya F mats (ret a) Φ.
Proof.
  intros HΦ w HF HM. simpl. split_and!; try done.
  exists []. rewrite app_nil_r. split_and!; try done;
    by apply obeys_nil.
Qed.

Lemma serves_raise {A} e (Φ : H → result A → list Event → Prop) :
  e ≠ RuntimeError → (∀ h, Φ h (Raise e) []) →
  serves maya F mats (raise e) Φ.
Proof.
  intros He HΦ w HF HM. simpl. split_and!; try done.
  exists []. rewrite app_nil_r. split_and!; try done;
    apply obeys_nil; by intros [= ->].
Qed.

Lemma serves_conseq {A} (m : M H A) (Φ Ψ : H → result A → list Event → Prop) :
  serves maya F mats m Φ →
  (∀ h r d, obeys maya h r d → Φ h r d → Ψ h r d) →
  serves maya F mats m Ψ.
Proof.
  intros Hm Himp w HF HM.
  destruct (Hm w HF HM) as (? & ? & ? & d & ? & ? & ? & ?).
  split_and!; try done. exists d. split_and!; try done. by apply Himp.
Qed.

Lemma serves_bind {A B} (m : M H A) (k : A → M H B)
    (Φ1 : H → result A → list Event → Prop)
    (Φ2 : A → H → result B → list Event → Prop)
    (Ψ : H → result B → list Event → Prop) :
  serves maya F mats m Φ1 →
  (∀ a, serves maya F mats (k a) (Φ2 a)) →
  (∀ h e d1,
     Φ1 h (Raise e) d1 → obeys maya h (Raise e : result A) d1 →
     Ψ h (Raise e) d1) →
  (∀ h a d1 r d2,
     Φ1 h (Ok a) d1 → Forall (λ b, b = false) (refusals maya d1 h) →
     Φ2 a (host_after maya d1 h) r d2 →
     obeys maya (host_after maya d1 h) r d2 →
     Ψ h r (d1 ++ d2)) →
  serves maya F mats (m ≫= k) Ψ.
Proof.
  intros Hm Hk Hraise Hok w HF HM. rewrite bind_run.
  destruct (Hm w HF HM) as (Hm1 & Hf1 & Hfs1 & d1 & Hl1 & Hh1 & Ho1 & H1).
  destruct (m w) as [[a|e] w1]; simpl in *.
  - destruct (Hk a w1 Hf1 Hm1)
      as (Hm2 & Hf2 & Hfs2 & d2 & Hl2 & Hh2 & Ho2 & H2).
    assert (Hc : Forall (λ b, b = false) (refusals maya d1 (host w)))
      by by eapply obeys_clean.
    rewrite Hh1 in Ho2, H2.
    split_and!; [done | done | congruence |]. exists (d1 ++ d2).
    split_and!.
    + by rewrite Hl2, Hl1, app_assoc.
    + by rewrite Hh2, Hh1, host_after_app.
    + by apply obeys_app.
    + by eapply Hok.
  - split_and!; try done. exists d1. split_and!; try done.
    + by eapply obeys_retype.
    + by apply Hraise.
Qed.

Lemma serves_exec (c : Call) (Φ : H → result () → list Event → Prop) :
  is_exec c = true →
  (∀ h, Φ h (if fst (maya_exec maya c h) then Ok () else Raise RuntimeError)
          [Cmd c]) →
  serves maya F mats (cmds_exec maya c) Φ.
Proof.
  intros Hc HΦ w HF HM. unfold cmds_exec. specialize (HΦ (host w)).
  pose proof (serve_exec c (host w) Hc) as Hs.
  destruct (maya_exec maya c (host w)) as [[|] h1] eqn:E; simpl in *;
    (split_and!; try done); exists [Cmd c];
    (split_and!; [done | by simpl; rewrite Hs | | done]);
    apply obeys_cmd; rewrite Hs; simpl; split; congruence.
Qed.

Lemma serves_shadingNode type cls name
    (Φ : H → result string → list Event → Prop) :
  (∀ h, Φ h match fst (maya_shadingNode maya type cls name h) with
            | Some node => Ok node
            | None => Raise RuntimeError
            end
          [Cmd (shadingNode type cls name)]) →
  serves maya F mats (cmds_shadingNode maya type cls name) Φ.
Proof.
  intros HΦ w HF HM. unfold cmds_shadingNode. specialize (HΦ (host w)).
  destruct (maya_shadingNode maya type cls name (host w))
    as [[node|] h1] eqn:E; simpl in *;
    (split_and!; try done); eexists [_];
    (split_and!; [done | by simpl; rewrite E | | done]);
    apply obeys_cmd; simpl; rewrite E; simpl; split; congruence.
Qed.

Lemma serves_ls_sl (Φ : H → result (list string) → list Event → Prop) :
  (∀ h, Φ h match fst (maya_ls_sl maya h) with
            | Some sel => Ok sel
            | None => Raise RuntimeError
            end
          [Cmd ls_sl]) →
  serves maya F mats (cmds_ls_sl maya) Φ.
Proof.
  intros HΦ w HF HM. unfold cmds_ls_sl. specialize (HΦ (host w)).
  destruct (maya_ls_sl maya (host w)) as [[sel|] h1] eqn:E; simpl in *;
    (split_and!; try done); eexists [_];
    (split_and!; [done | by simpl; rewrite E | | done]);
    apply obeys_cmd; simpl; rewrite E; simpl; split; congruence.
Qed.

Lemma serves_print text (Φ : H → result () → list Event → Prop) :
  (∀ h, Φ h (Ok ()) [Stdout text]) →
  serves maya F mats (print text) Φ.
Proof.
  intros HΦ w HF HM. simpl. split_and!; try done.
  exists [Stdout text]. split_and!; try done; apply obeys_print.
Qed.

Lemma serves_gets_filter {B} (k : gset TexType → M H B)
    (Φ : H → result B → list Event → Prop) :
  serves maya F mats (k F) Φ →
  serves maya F mats (gets texture_type_filter ≫= k) Φ.
Proof.
  intros Hk w HF HM. rewrite bind_run. simpl. rewrite HF. by apply Hk.
Qed.

Lemma serves_gets_mats {B} (k : list (string * MatEntry) → M H B)
    (Φ : H → result B → list Event → Prop) :
  serves maya F mats (k mats) Φ →
  serves maya F mats (gets loaded_mats ≫= k) Φ.
Proof.
  intros Hk w HF HM. rewrite bind_run. simpl. rewrite HM. by apply Hk.
Qed.

Lemma serves_for_each {X} (l : list X) (body : X → M H ())
    (Φ : X → H → result () → list Event → Prop) :
  (∀ x, serves maya F mats (body x) (Φ x)) →
  serves maya F mats (for_each l body) (in_turn maya Φ l).
Proof.
  intros Hb. induction l as [|x l IH]; [by apply serves_ret |].
  change (for_each (x :: l) body) with (body x ≫= λ _, for_each l body).
  eapply serves_bind with
    (Φ1 := λ h r d, Φ x h r d ∧ obeys maya h r d)
    (Φ2 := λ _, in_turn maya Φ l).
  - eapply serves_conseq; [apply Hb | done].
  - intros _. apply IH.
  - intros h e d1 [H1 Ho] _. exists (Raise e), d1. by split_and!.
  - intros h [] d1 r d2 [H1 Ho] _ H2 _. exists (Ok ()), d1.
    split_and!; try done. by exists d2.
Qed.

(** Runs of commands. *)
Lemma serves_exec_run (c : Call) :
  is_exec c = true →
  serves maya F mats (cmds_exec maya c) (λ _ r d, host_run [Cmd c] r d).
Proof.
  intros Hc. apply serves_exec; [done |]. intros h.
  destruct (fst (maya_exec maya c h)); split_and!; try done;
    by intros ? [= <-].
Qed.

Lemma serves_ret_run {A} (a : A) :
  serves maya F mats (ret a) (λ _ r d, host_run [] r d).
Proof. apply serves_ret. intros h. by split_and!. Qed.

Lemma serves_then_run {A B} L1 L2 (m : M H A) (k : A → M H B) :
  serves maya F mats m (λ _ r d, host_run L1 r d) →
  (∀ a, serves maya F mats (k a) (λ _ r d, host_run L2 r d)) →
  serves maya F mats (m ≫= k) (λ _ r d, host_run (L1 ++ L2) r d).
Proof.
  intros Hm Hk. eapply serves_bind; [exact Hm | exact Hk | |]; simpl.
  - intros h e d1 H1 _. by eapply host_run_stop.
  - intros h a d1 r d2 H1 _ H2 _. by eapply host_run_app.
Qed.

Lemma serves_then_run_val {A B} L1 L2 (v : B) (m : M H A) (k : A → M H B) :
  serves maya F mats m (λ _ r d, host_run L1 r d) →
  (∀ a, serves maya F mats (k a)
          (λ _ r d, host_run L2 r d ∧ ∀ p, r = Ok p → p = v)) →
  serves maya F mats (m ≫= k)
    (λ _ r d, host_run (L1 ++ L2) r d ∧ ∀ p, r = Ok p → p = v).
Proof.
  intros Hm Hk. eapply serves_bind; [exact Hm | exact Hk | |]; simpl.
  - intros h e d1 H1 _. split; [by eapply host_run_stop | done].
  - intros h a d1 r d2 H1 _ [H2 Hv] _. split; [by eapply host_run_app | done].
Qed.

Lemma serves_for_each_run {X} (l : list X) (c : X → Call) :
  (∀ x, is_exec (c x) = true) →
  serves maya F mats (for_each l (λ x, cmds_exec maya (c x)))
    (λ _ r d, host_run (map (λ x, Cmd (c x)) l) r d).
Proof.
  intros Hc. induction l as [|x l IH]; [apply serves_ret_run |].
  change (map (λ x, Cmd (c x)) (x :: l))
    with ([Cmd (c x)] ++ map (λ x, Cmd (c x)) l).
  apply serves_then_run; [by apply serves_exec_run | done].
Qed.

(** The answer of the host to a request for a node. *)
Lemma node_named_Ok type cls name h (node : string) :
  Ok node = match fst (maya_shadingNode maya type cls name h) with
            | Some node' => Ok node'
            | None => Raise RuntimeError
            end →
  node_named maya type cls name h = node.
Proof.
  unfold node_named.
  destruct (fst (maya_shadingNode maya type cls name h)); by intros [= ->].
Qed.

Lemma node_refused type cls name h e :
  (Raise e : result string) =
    match fst (maya_shadingNode maya type cls name h) with
    | Some node' => Ok node'
    | None => Raise RuntimeError
    end →
  e = RuntimeError.
Proof.
  destruct (fst (maya_shadingNode maya type cls name h)); by intros [= ->].
Qed.

(** [_create_texture_node], command by command, with the names of the
    host. *)
Lemma serves_create (name file : string) (isRaw : bool) :
  serves maya F mats (_create_texture_node maya name file isRaw)
    (creates maya name file isRaw).
Proof.
  unfold _create_texture_node.
  eapply serves_bind with
    (Φ1 := λ h r d,
       d = [Cmd (shadingNode "file" (asTexture true) (name +:+ "_file"))] ∧
       r = match fst (maya_shadingNode maya "file" (asTexture true)
                        (name +:+ "_file") h) with
           | Some node => Ok node
           | None => Raise RuntimeError
           end)
    (Φ2 := λ nf h r d,
       let nt :=
         node_named maya "place2dTexture" asUtility (name +:+ "_texture") h in
       host_run
         ([Cmd (shadingNode "place2dTexture" asUtility (name +:+ "_texture"))]
          ++ map (λ connection,
                    Cmd (connectAttr (nt +:+ "." +:+ connection)
                           (nf +:+ "." +:+ connection) true))
               _FILE_NODE_SIMPLE_BINDS
          ++ map (λ '(connection_a, connection_b),
                    Cmd (connectAttr (nt +:+ "." +:+ connection_a)
                           (nf +:+ "." +:+ connection_b) false))
               _FILE_NODE_UNIQUE_BINDS
          ++ [Cmd (setAttr (nf +:+ ".fileTextureName") (VString file))]
          ++ (if isRaw
              then [Cmd (setAttr (nf +:+ ".colorSpace") (VString "Raw"))]
              else [])) r d ∧
       ∀ p, r = Ok p → p = (nf, nt)).
  - by apply serves_shadingNode.
  - intros nf. eapply serves_bind with
      (Φ1 := λ h r d,
         d = [Cmd (shadingNode "place2dTexture" asUtility
                     (name +:+ "_texture"))] ∧
         r = match fst (maya_shadingNode maya "place2dTexture" asUtility
                          (name +:+ "_texture") h) with
             | Some node => Ok node
             | None => Raise RuntimeError
             end)
      (Φ2 := λ nt _ r d,
         host_run
           (map (λ connection,
                   Cmd (connectAttr (nt +:+ "." +:+ connection)
                          (nf +:+ "." +:+ connection) true))
              _FILE_NODE_SIMPLE_BINDS
            ++ map (λ '(connection_a, connection_b),
                      Cmd (connectAttr (nt +:+ "." +:+ connection_a)
                             (nf +:+ "." +:+ connection_b) false))
                 _FILE_NODE_UNIQUE_BINDS
            ++ [Cmd (setAttr (nf +:+ ".fileTextureName") (VString file))]
            ++ (if isRaw
                then [Cmd (setAttr (nf +:+ ".colorSpace") (VString "Raw"))]
                else [])) r d ∧
         ∀ p, r = Ok p → p = (nf, nt)).
    + by apply serves_shadingNode.
    + intros nt.
      apply (serves_then_run_val _ _ _ (for_each _FILE_NODE_SIMPLE_BINDS _)).
      { by apply serves_for_each_run. }
      intros _.
      apply (serves_then_run_val _ _ _ (for_each _FILE_NODE_UNIQUE_BINDS _)).
      { eapply serves_conseq;
          [apply (serves_for_each_run _FILE_NODE_UNIQUE_BINDS
                    (λ '(connection_a, connection_b),
                       connectAttr (nt +:+ "." +:+ connection_a)
                         (nf +:+ "." +:+ connection_b) false));
           by intros [] |].
        done. }
      intros _.
      apply (serves_then_run_val [_] _ _ (cmds_exec maya _)).
      { by apply serves_exec_run. }
      intros _.
      eapply serves_conseq.
      { apply (serves_then_run_val
                 (if isRaw
                  then [Cmd (setAttr (nf +:+ ".colorSpace") (VString "Raw"))]
                  else []) [] (nf, nt)).
        - destruct isRaw; [by apply serves_exec_run | apply serves_ret_run].
        - intros _. apply serves_ret. intros h. split; [by split_and! |].
          by intros p [= <-]. }
      simpl. intros h r d _. by rewrite app_nil_r.
    + intros h e d1 [-> He] _. apply node_refused in He as ->.
      split; [| done]. split_and!; [| done | by intros e [= <-]].
      by apply prefix_app_r.
    + intros h nt d1 r d2 [-> Hnt] _ [H2 Hp] _.
      apply node_named_Ok in Hnt. cbv zeta. rewrite Hnt. split; [| done].
      apply (host_run_app [_] _ nt); [by split_and! | done].
  - intros h e d1 [-> He] _. apply node_refused in He as ->.
    split; [| done]. split_and!; [| done | by intros e [= <-]].
    unfold create_commands. by apply prefix_app_r, prefix_cons, prefix_nil.
  - intros h nf d1 r d2 [-> Hnf] _ [H2 Hp] _.
    apply node_named_Ok in Hnf. unfold creates. cbv zeta in *.
    rewrite Hnf. split; [| done].
    apply (host_run_app [_] _ nf); [by split_and! | done].
Qed.

(** The adjustments after the connection of a texture of kind [k]. *)
Lemma serves_fixup (k : TexType) (material_node : string) :
  serves maya F mats
    (match k with
     | Normal =>
         sel ← cmds_ls_sl maya;
         match sel with
         | bump_node :: _ =>
             cmds_exec maya (setAttr (bump_node +:+ ".inputType") (VInt 1))
         | [] => raise IndexError
         end
     | Metallic =>
         cmds_exec maya
           (setAttr (material_node +:+ ".refl_fresnel_mode") (VInt 2))
     | _ => ret ()
     end)
    (λ h r d,
       let L := fixup_commands k material_node (first_selected maya h) in
       d `prefix_of` L ∧
       (r = Ok () →
          d = L ∧
          (k = Normal →
           ∃ sel, fst (maya_ls_sl maya h)
                  = Some (first_selected maya h :: sel))) ∧
       ∀ e, r = Raise e →
         e = RuntimeError ∨
         e = IndexError ∧ k = Normal ∧ S (length d) = length L ∧
         fst (maya_ls_sl maya h) = Some []).
Proof.
  destruct k; try (apply serves_ret; intros h; by split_and!).
  - eapply serves_conseq; [by apply serves_exec_run |].
    intros h r d _ (Hp & Hok & Hex). split_and!; [done | |].
    + intros ->. split; [by apply (Hok ()) | done].
    + intros e He. left. by apply Hex.
  - eapply serves_bind with
      (Φ1 := λ h r d,
         d = [Cmd ls_sl] ∧
         r = match fst (maya_ls_sl maya h) with
             | Some sel => Ok sel
             | None => Raise RuntimeError
             end)
      (Φ2 := λ sel _ r d,
         match sel with
         | [] => r = Raise IndexError ∧ d = []
         | bump_node :: _ =>
             host_run [Cmd (setAttr (bump_node +:+ ".inputType") (VInt 1))]
               r d
         end).
    + by apply serves_ls_sl.
    + intros [|bump_node sel]; [by apply serves_raise |].
      by apply serves_exec_run.
    + intros h e d1 [-> He] _. split_and!; [| done |].
      * by apply prefix_cons, prefix_nil.
      * intros e' [= <-]. left.
        destruct (fst (maya_ls_sl maya h)); congruence.
    + intros h sel d1 r d2 [-> Hsel] _ H2 _. unfold first_selected.
      destruct (fst (maya_ls_sl maya h)) as [sel'|]; [| done].
      injection Hsel as <-. destruct sel as [|bump_node sel]; simpl in *.
      * destruct H2 as [-> ->]. split_and!; [| done |].
        -- by apply prefix_cons, prefix_nil.
        -- intros e [= <-]. by right.
      * destruct H2 as (Hp & Hok & Hex). split_and!.
        -- by apply prefix_cons.
        -- intros ->. rewrite (Hok () eq_refl). split; [done |].
           intros _. by exists sel.
        -- intros e He. left. by apply Hex.
Qed.

(** The body of the loop over the textures, with the names of the host. *)
Lemma serves_import_texture (material_name material_node : string)
    (item : string * TexEntry) :
  serves maya F mats (import_texture maya material_name material_node item)
    (imports_texture maya F material_name material_node item).
Proof.
  destruct item as [tex_name [file is_import]].
  unfold imports_texture, import_texture. cbn [fst snd tex_import tex_file].
  destruct is_import; cbn [negb]; [| by apply serves_ret].
  destruct (TexTypeM.getitem tex_name) as [k|] eqn:Hget;
    [| by apply serves_print].
  apply serves_gets_filter.
  destruct (bool_decide (k ∈ F)); cbn [negb]; [| by apply serves_ret].
  eapply serves_bind with
    (Φ1 := creates maya (material_name +:+ "_" +:+ TexTypeM.name k) file
             (negb (bool_decide (k = BaseColor))))
    (Φ2 := λ p h r d,
       let hs :=
         host_after maya [connect_command k material_node (fst p)] h in
       let L :=
         [connect_command k material_node (fst p)] ++
         fixup_commands k material_node (first_selected maya hs) in
       d `prefix_of` L ∧
       (r = Ok () →
          d = L ∧
          (k = Normal →
           ∃ sel, fst (maya_ls_sl maya hs)
                  = Some (first_selected maya hs :: sel))) ∧
       ∀ e, r = Raise e →
         e = RuntimeError ∨
         e = IndexError ∧ k = Normal ∧ S (length d) = length L ∧
         fst (maya_ls_sl maya hs) = Some []).
  - apply serves_create.
  - intros [nf nt]. eapply serves_bind with
      (Φ1 := λ _ r d, host_run [connect_command k material_node nf] r d)
      (Φ2 := λ _ h r d,
         let L := fixup_commands k material_node (first_selected maya h) in
         d `prefix_of` L ∧
         (r = Ok () →
            d = L ∧
            (k = Normal →
             ∃ sel, fst (maya_ls_sl maya h)
                    = Some (first_selected maya h :: sel))) ∧
         ∀ e, r = Raise e →
           e = RuntimeError ∨
           e = IndexError ∧ k = Normal ∧ S (length d) = length L ∧
           fst (maya_ls_sl maya h) = Some []);
      [by apply serves_exec_run | intros []; apply serves_fixup | |].
    + intros h e d1 (Hp & _ & Hex) _. cbn [fst]. split_and!; [| done |].
      * by apply prefix_app_r.
      * intros e' [= <-]. left. by apply Hex.
    + intros h [] d1 r d2 (_ & H1 & _) _ (Hp & Hok & Hex) _.
      rewrite (H1 () eq_refl) in *. cbn [fst]. split_and!.
      * by apply prefix_app.
      * intros Hr. destruct (Hok Hr) as [-> Hsel]. by split.
      * intros e He. destruct (Hex e He) as [? | (? & ? & Hlen & Hsel)];
          [by left | right].
        split_and!; try done. rewrite !length_app. by rewrite <- Hlen.
  - intros h e d1 [(Hp & _ & Hex) _] _. unfold wire_commands_of, wire_commands.
    split_and!; [by apply prefix_app_r | done |].
    intros e' [= <-]. left. by apply Hex.
  - intros h [nf nt] d1 r d2 [(_ & H1 & _) Hv] _ (Hp & Hok & Hex) _.
    specialize (Hv _ eq_refl). injection Hv as -> ->.
    rewrite (H1 _ eq_refl) in *. cbn [fst] in *.
    rewrite <- host_after_app in Hp, Hok, Hex.
    unfold wire_commands_of, wire_commands, selection_host. split_and!.
    + by apply prefix_app.
    + intros Hr. destruct (Hok Hr) as [-> Hsel]. by split.
    + intros e He. destruct (Hex e He) as [? | (? & ? & Hlen & Hsel)];
        [by left | right].
      split_and!; try done. rewrite !length_app in *. lia.
Qed.

(** Commands in a row, and what comes after them. *)
Lemma staged_nil {A} (P : H → result A → list Event → Prop) h r d :
  P h r d → staged maya [] P h r d.
Proof. intros HP. right. split; [done |]. by exists d. Qed.

Lemma staged_stop {A B} (c : Event) L
    (P : H → result B → list Event → Prop) h e d :
  host_run [c] (Raise e : result A) d →
  staged maya (c :: L) P h (Raise e) d.
Proof.
  intros (Hp & _ & Hex). left. rewrite (Hex e eq_refl). split; [done |].
  by apply (prefix_app_r _ [c]).
Qed.

Lemma staged_cons {A} (c : Event) L
    (P : H → result A → list Event → Prop) h r d :
  Forall (λ b, b = false) (refusals maya [c] h) →
  staged maya L P (host_after maya [c] h) r d →
  staged maya (c :: L) P h r ([c] ++ d).
Proof.
  intros Hc [[-> Hp] | (HL & d' & -> & HP)].
  - left. split; [done |]. by apply (prefix_app [c]).
  - right. split.
    + change (c :: L) with ([c] ++ L). rewrite refusals_app.
      by apply Forall_app.
    + exists d'. split; [done |].
      change (c :: L) with ([c] ++ L). by rewrite host_after_app.
Qed.

Lemma serves_staged_exec {A} (c : Call) L (m : M H A)
    (P : H → result A → list Event → Prop) :
  is_exec c = true →
  serves maya F mats m (staged maya L P) →
  serves maya F mats (cmds_exec maya c ;; m) (staged maya (Cmd c :: L) P).
Proof.
  intros Hc Hm. eapply serves_bind with
    (Φ1 := λ _ r d, host_run [Cmd c] r d) (Φ2 := λ _, staged maya L P).
  - by apply serves_exec_run.
  - by intros [].
  - intros h e d1 H1 _. by eapply staged_stop.
  - intros h [] d1 r d2 (_ & H1 & _) Hclean H2 _.
    rewrite (H1 () eq_refl) in *. by apply staged_cons.
Qed.

(** [import_loaded_material], with the names of the host. *)
Lemma serves_import_loaded_material (material_name : string) :
  serves maya F mats (import_loaded_material maya material_name)
    (builds maya F mats material_name).
Proof.
  unfold import_loaded_material.
  eapply serves_bind with
    (Φ1 := λ h r d,
       d = [Cmd (shadingNode "RedshiftMaterial" asShader material_name)] ∧
       r = match fst (maya_shadingNode maya "RedshiftMaterial" asShader
                        material_name h) with
           | Some node => Ok node
           | None => Raise RuntimeError
           end)
    (Φ2 := λ material_node,
       staged maya
         [Cmd (sets ("rsMaterial_" +:+ material_node));
          Cmd (connectAttr (material_node +:+ ".outColor")
                 ("rsMaterial_" +:+ material_node +:+ ".surfaceShader")
                 false)]
         (λ h' r' d',
            match Dict.get mats material_name with
            | None => r' = Raise KeyError ∧ d' = []
            | Some entry =>
                in_turn maya
                  (imports_texture maya F material_name material_node)
                  (mat_textures entry) h' r' d'
            end)).
  - by apply serves_shadingNode.
  - intros material_node.
    apply serves_staged_exec; [done |].
    apply serves_staged_exec; [done |].
    apply serves_gets_mats.
    destruct (Dict.get mats material_name) as [entry|].
    + eapply serves_conseq.
      { apply serves_for_each. intros item. apply serves_import_texture. }
      intros h r d _. apply staged_nil.
    + apply serves_raise; [done |]. intros h. by apply staged_nil.
  - intros h e d1 [-> He] _. apply node_refused in He as ->.
    left. split; [done |]. by apply prefix_cons, prefix_nil.
  - intros h material_node d1 r d2 [-> Hnode] Hclean H2 _.
    apply node_named_Ok in Hnode. unfold builds. cbv zeta. rewrite Hnode.
    by apply staged_cons.
Qed.

(** [import_all_loaded_materials], material by material. *)
Lemma serves_import_all :
  serves maya F mats (import_all_loaded_materials maya)
    (in_turn maya (builds_item maya F mats) mats).
Proof.
  unfold import_all_loaded_materials. apply serves_gets_mats.
  apply serves_for_each. intros [material_name [texs is_import]].
  unfold import_material_item, builds_item. cbn [fst snd mat_import].
  destruct is_import; cbn [negb]; [| by apply serves_ret].
  apply serves_import_loaded_material.
Qed.

(** What [obeys] says, spelled out. *)
Lemma obeys_refused {A} h (r : result A) d :
  obeys maya h r d →
  (∀ i, refusals maya d h !! i = Some true →
        S i = length d ∧ r = Raise RuntimeError) ∧
  (r = Raise RuntimeError → last (refusals maya d h) = Some true).
Proof.
  intros [Hi Hl]. split; [| by apply Hl]. intros i Hb.
  split; [by apply Hi |]. apply Hl.
  by rewrite last_lookup, refusals_length, <- (Hi i Hb).
Qed.

Lemma node_accepted type cls name h :
  fst (serve maya (shadingNode type cls name) h) = true →
  fst (maya_shadingNode maya type cls name h)
  = Some (node_named maya type cls name h).
Proof.
  unfold node_named. simpl.
  by destruct (maya_shadingNode maya type cls name h) as [[node|] h'].
Qed.

(** The one connection among the commands for a texture. *)
Lemma create_commands_no_connection name file isRaw nf nt :
  Forall (λ ev, is_connection ev = false)
    (create_commands name file isRaw nf nt).
Proof. destruct isRaw; simpl; repeat (constructor; [done |]); constructor. Qed.

Lemma create_commands_head name file isRaw nf nt :
  ∃ t, create_commands name file isRaw nf nt =
       Cmd (shadingNode "file" (asTexture true) (name +:+ "_file")) ::
       Cmd (shadingNode "place2dTexture" asUtility (name +:+ "_texture")) ::
       t.
Proof. by eexists. Qed.

Lemma refusals_head c d h :
  refusals maya (Cmd c :: d) h !! 0 = Some (negb (fst (serve maya c h))).
Proof. done. Qed.

Lemma fixup_commands_no_connection k material_node bump_node :
  Forall (λ ev, is_connection ev = false)
    (fixup_commands k material_node bump_node).
Proof. destruct k; simpl; repeat (constructor; [done |]); constructor. Qed.

Lemma only_connection (l1 l2 l1' l2' : list Event) (x x' : Event) :
  Forall (λ ev, is_connection ev = false) l1 →
  Forall (λ ev, is_connection ev = false) l2 →
  is_connection x' = true →
  l1 ++ x :: l2 = l1' ++ x' :: l2' →
  l1 = l1' ∧ x = x'.
Proof.
  intros H1 H2 Hx'. revert l1'.
  induction H1 as [|a l1 Ha _ IH]; intros [|b l1']; simpl.
  - by intros [= -> _].
  - intros [= -> ->]. exfalso.
    assert (x' ∈ l1' ++ x' :: l2') as Hin by set_solver.
    pose proof (proj1 (Forall_forall _ _) H2 _ Hin). congruence.
  - intros [= -> _]. congruence.
  - intros [= -> Heq]. destruct (IH _ Heq) as [-> ->]. done.
Qed.

Lemma wire_commands_connection material_name material_node file k nf nt
    bump_node d0 src dst d1 :
  d0 ++ Cmd (defaultNavigation src dst) :: d1
    `prefix_of` wire_commands material_name material_node file k nf nt
                  bump_node →
  d0 = create_commands (material_name +:+ "_" +:+ TexTypeM.name k) file
         (negb (bool_decide (k = BaseColor))) nf nt ∧
  src = nf ∧ dst = material_node +:+ "." +:+ TexTypeM.value k.
Proof.
  intros [t Ht]. unfold wire_commands in Ht.
  rewrite <- app_assoc in Ht. cbn [app] in Ht.
  destruct (only_connection _ _ _ _ _ (Cmd (defaultNavigation src dst))
              (create_commands_no_connection _ _ _ _ _)
              (fixup_commands_no_connection _ _ _) eq_refl Ht) as [-> Hc].
  by injection Hc as -> ->.
Qed.

(** A connection among the events of the loop over the textures belongs to
    an entry that is tagged for import and named after a kind of the filter;
    it comes right after the set-up of the file node that the host made for
    this entry, and it connects this node. *)
Lemma in_turn_connection material_name material_node texs :
  ∀ h r d d0 src dst d1,
  in_turn maya (imports_texture maya F material_name material_node) texs
    h r d →
  d = d0 ++ Cmd (defaultNavigation src dst) :: d1 →
  ∃ tex_name file k dA,
    In (tex_name, {| tex_file := file; tex_import := true |}) texs ∧
    TexTypeM.getitem tex_name = Some k ∧ k ∈ F ∧
    let name := material_name +:+ "_" +:+ TexTypeM.name k in
    fst (maya_shadingNode maya "file" (asTexture true) (name +:+ "_file")
           (host_after maya dA h)) = Some src ∧
    d0 = dA ++
         create_commands name file (negb (bool_decide (k = BaseColor))) src
           (node_named maya "place2dTexture" asUtility (name +:+ "_texture")
              (host_after maya
                 [Cmd (shadingNode "file" (asTexture true)
                         (name +:+ "_file"))]
                 (host_after maya dA h))) ∧
    dst = material_node +:+ "." +:+ TexTypeM.value k.
Proof.
  induction texs as [|item texs IH]; intros h r d d0 src dst d1 Hturn Hd.
  - destruct Hturn as [_ ->]. by destruct d0.
  - destruct Hturn as (r1 & dx & Hx & Hox & Hrest).
    assert (Hcase :
      (∃ l, dx = d0 ++ Cmd (defaultNavigation src dst) :: l) ∨
      (∃ d0' d2, d0 = dx ++ d0' ∧
         in_turn maya (imports_texture maya F material_name material_node)
           texs (host_after maya dx h) r d2 ∧
         d2 = d0' ++ Cmd (defaultNavigation src dst) :: d1)).
    { destruct r1 as [[]|e].
      - destruct Hrest as (d2 & -> & Hrest).
        apply app_eq_app in Hd as [l [[-> Hl] | [-> ->]]].
        + destruct l as [|c l]; simpl in Hl.
          * subst d2. rewrite app_nil_r in *. right.
            exists [], (Cmd (defaultNavigation src dst) :: d1).
            rewrite app_nil_r. by split_and!.
          * injection Hl as <- ->. left. by exists l.
        + right. by exists l, (l ++ Cmd (defaultNavigation src dst) :: d1).
      - destruct Hrest as [_ ->]. left. by exists d1. }
    destruct Hcase as [[l ->] | (d0' & d2 & -> & Hrest' & ->)].
    + clear Hrest IH. destruct item as [tex_name [file is_import]].
      unfold imports_texture in Hx. cbn [fst snd tex_import tex_file] in Hx.
      destruct is_import; cbn [negb] in Hx;
        [| destruct Hx as [_ Hnil]; by destruct d0].
      destruct (TexTypeM.getitem tex_name) as [k|] eqn:Hget;
        [| destruct Hx as [_ Hmsg]; by destruct d0 as [|? [|? ?]]].
      destruct (bool_decide (k ∈ F)) eqn:Hk;
        [| destruct Hx as [_ Hnil]; by destruct d0].
      apply bool_decide_eq_true in Hk. destruct Hx as (Hp & _).
      apply wire_commands_connection in Hp as (Hd0 & Hsrc & ->).
      exists tex_name, file, k, []. cbn [app]. cbv zeta. rewrite Hsrc.
      change (host_after maya [] h) with h.
      split_and!; try done; [by left |].
      subst d0. apply node_accepted.
      destruct Hox as [Hi _]. specialize (Hi 0).
      destruct (create_commands_head
                  (material_name +:+ "_" +:+ TexTypeM.name k) file
                  (negb (bool_decide (k = BaseColor)))
                  (node_named maya "file" (asTexture true)
                     ((material_name +:+ "_" +:+ TexTypeM.name k)
                      +:+ "_file") h)
                  (node_named maya "place2dTexture" asUtility
                     ((material_name +:+ "_" +:+ TexTypeM.name k)
                      +:+ "_texture")
                     (host_after maya
                        [Cmd (shadingNode "file" (asTexture true)
                                ((material_name +:+ "_" +:+ TexTypeM.name k)
                                 +:+ "_file"))] h))) as [t Ht].
      rewrite Ht in Hi. cbn [app] in Hi. rewrite refusals_head in Hi.
      destruct (fst (serve maya _ h)); [done |].
      specialize (Hi eq_refl). cbn [length] in Hi. lia.
    + destruct (IH _ _ _ _ _ _ _ Hrest' eq_refl)
        as (tex_name & file & k & dA & Hin & Hget & Hk & Hnode & -> & ->).
      exists tex_name, file, k, (dx ++ dA). cbv zeta in *.
      rewrite !host_after_app.
      split_and!; try done; [by right | by rewrite app_assoc].
Qed.

(** A loop that returns has gone through every element. *)
Lemma in_turn_Ok_elem {X} (Φ : X → H → result () → list Event → Prop)
    (l : list X) : ∀ h d x,
  in_turn maya Φ l h (Ok ()) d → In x l →
  ∃ d1 dx d2, d = d1 ++ dx ++ d2 ∧ Φ x (host_after maya d1 h) (Ok ()) dx.
Proof.
  induction l as [|y l IH]; intros h d x Hturn Hin; [done |].
  destruct Hturn as (r1 & dy & Hy & _ & Hrest).
  destruct r1 as [[]|e]; [| by destruct Hrest].
  destruct Hrest as (d2 & -> & Hrest). destruct Hin as [<- | Hin].
  - by exists [], dy, d2.
  - destruct (IH _ _ _ Hrest Hin) as (d1 & dx & d3 & -> & Hx).
    exists (dy ++ d1), dx, d3. rewrite host_after_app.
    split; [by rewrite <- app_assoc | done].
Qed.

End Rules.

End HostFacts.

(** ** The build: what the host is asked to do *)

Section BuildTheorems.

Context {H : Type}.
Variable maya : Maya H.
Implicit Types (w : World H) (d : list Event) (e : Event).

Lemma new_events_app w w' d : log w' = log w ++ d → new_events w w' = d.
Proof. unfold new_events. intros ->. by rewrite drop_app_length. Qed.

Lemma getitem_name (k : TexType) : TexTypeM.getitem (TexTypeM.name k) = Some k.
Proof. by destruct k. Qed.

Lemma getitem_Some (key : string) (k : TexType) :
  TexTypeM.getitem key = Some k → TexTypeM.name k = key.
Proof.
  unfold TexTypeM.getitem. intros Hfind.
  apply find_some in Hfind as [_ Heq]. by apply String.eqb_eq.
Qed.

Lemma getitem_None (key : string) :
  (∀ k, TexTypeM.name k ≠ key) → TexTypeM.getitem key = None.
Proof.
  intros Hno. destruct (TexTypeM.getitem key) as [k|] eqn:Hk; [| done].
  by apply getitem_Some, Hno in Hk.
Qed.

Lemma get_NoDup_In {V} (d : list (string * V)) (k : string) (v : V) :
  NoDup (Dict.keys d) → In (k, v) d → Dict.get d k = Some v.
Proof.
  induction d as [|[k0 v0] d IH]; simpl; [done |].
  intros [Hk0 Hd]%NoDup_cons [[= -> ->]|Hin].
  - by rewrite String.eqb_refl.
  - destruct (String.eqb_spec k0 k) as [->|]; [| auto].
    destruct Hk0. apply list_elem_of_In, in_map_iff. by exists (k, v).
Qed.

Lemma included_In (mats : list (string * MatEntry)) (name : string) :
  In name (included mats) →
  ∃ entry, In (name, entry) mats ∧ mat_import entry = true.
Proof.
  unfold included. intros ([name' entry] & <- & Hin)%in_map_iff.
  apply filter_In in Hin as [? ?]. by exists entry.
Qed.

(** The loop of [import_all_loaded_materials] is the sequence of the builds of
    the materials tagged for import. *)
Lemma import_items_included (items : list (string * MatEntry)) w :
  for_each items (import_material_item maya) w =
  for_each (included items) (import_loaded_material maya) w.
Proof.
  revert w. induction items as [|[name [texs is_import]] items IH]; intros w.
  - done.
  - rewrite for_each_cons. unfold import_material_item at 1.
    destruct is_import; cbn [negb].
    + change (included ((name, {| mat_textures := texs; mat_import := true |})
                          :: items)) with (name :: included items).
      rewrite for_each_cons.
      destruct (import_loaded_material maya name w) as [[[]|?] ?]; [apply IH | done].
    + apply IH.
Qed.

(** C3 (amended). During [import_all_loaded_materials] a command that the
    host refuses is caught nowhere. Whatever the host does, a refused command
    is the last event of the run: the build of the material is left there
    and no material after it is processed; the run raises the error of the
    host, and it raises this error only when its last command was refused.
    Nothing is undone: the events before the run stay on record and the host
    is left as the commands of the run made it. The shader nodes asked for
    up to there are those of the first materials tagged for import, in
    catalog order. *)
Theorem host_failure_ends_batch w :
  let r := fst (import_all_loaded_materials maya w) in
  let w' := snd (import_all_loaded_materials maya w) in
  let d := new_events w w' in
  log w' = log w ++ d ∧
  host w' = host_after maya d (host w) ∧
  (∀ i, refusals maya d (host w) !! i = Some true →
        S i = length d ∧ r = Raise RuntimeError) ∧
  (r = Raise RuntimeError → last (refusals maya d (host w)) = Some true) ∧
  shader_requests d `prefix_of` included (loaded_mats w).
Proof.
  intros r w' d. subst r w' d.
  destruct (serves_import_all maya (texture_type_filter w) (loaded_mats w) w
              eq_refl eq_refl) as (_ & _ & _ & d & Hlog & Hhost & Hob & _).
  rewrite (new_events_app _ _ _ Hlog).
  destruct (obeys_refused maya _ _ _ Hob) as [Hi Hl].
  split_and!; try done.
  destruct (import_items_events maya (texture_type_filter w) (loaded_mats w)
              w eq_refl) as (_ & _ & _ & d' & Hlog' & Hpre & _).
  change (for_each (loaded_mats w) (import_material_item maya) w)
    with (import_all_loaded_materials maya w) in Hlog'.
  rewrite Hlog in Hlog'. by apply app_inv_head in Hlog' as ->.
Qed.

(** A loop over [pre ++ x :: post] is the loop over [pre], the body for [x]
    and the loop over [post]. *)
Lemma for_each_app_cons {A} (pre post : list A) (x : A) (body : A → M H ())
    w :
  for_each (pre ++ x :: post) body w =
  (for_each pre body ;; body x ;; for_each post body) w.
Proof.
  rewrite bind_run.
  destruct (for_each pre body w) as [[[]|e] w1] eqn:Hpre.
  - by rewrite (for_each_app_ok _ _ _ _ _ Hpre).
  - by rewrite (for_each_app_raise _ _ _ _ _ _ Hpre).
Qed.

(** Two computations that begin alike. *)
Lemma bind_ext {A B} (m : M H A) (k1 k2 : A → M H B) w :
  (∀ a, fst (m w) = Ok a → k1 a (snd (m w)) = k2 a (snd (m w))) →
  (m ≫= k1) w = (m ≫= k2) w.
Proof.
  intros Hk. rewrite !bind_run.
  destruct (m w) as [[a|e] w1]; [by apply Hk | done].
Qed.

Lemma cmds_shadingNode_mats type cls name w :
  loaded_mats (snd (cmds_shadingNode maya type cls name w)) = loaded_mats w.
Proof.
  unfold cmds_shadingNode.
  by destruct (maya_shadingNode maya type cls name (host w)) as [[?|] ?].
Qed.

Lemma cmds_exec_mats c w :
  loaded_mats (snd (cmds_exec maya c w)) = loaded_mats w.
Proof.
  unfold cmds_exec. by destruct (maya_exec maya c (host w)) as [[|] ?].
Qed.

(** C6. Let the material have, among its textures, an entry tagged for import
    whose name is not exactly the name of a texture kind. The build of the
    material is then the build in which this entry stands for one thing
    only, the print of a message made of the texture name, of the name that
    the host gave to the shader node of the material and of the file path:
    no host command is issued for the entry, nothing is raised for it and
    the loop goes on with the entries after it. When the build returns, the
    message is among the events, with the name that the host, in the state
    it was in, gave to the shader node. *)
Theorem unsupported_texture_reported
    material_name entry pre tex_name file post w :
  Dict.get (loaded_mats w) material_name = Some entry →
  mat_textures entry =
    pre ++ (tex_name, {| tex_file := file; tex_import := true |}) :: post →
  (∀ k, TexTypeM.name k ≠ tex_name) →
  let nl := String "010" EmptyString in
  let message material_node :=
    tex_name +:+ " texture type is not supported" +:+ nl +:+
    material_node +:+ "_" +:+ tex_name +:+ " was not imported" +:+ nl +:+
    "File: " +:+ file +:+ nl in
  let run := import_loaded_material maya material_name w in
  run =
    (material_node ←
       cmds_shadingNode maya "RedshiftMaterial" asShader material_name;
     cmds_exec maya (sets ("rsMaterial_" +:+ material_node)) ;;
     cmds_exec maya
       (connectAttr (material_node +:+ ".outColor")
          ("rsMaterial_" +:+ material_node +:+ ".surfaceShader") false) ;;
     for_each pre (import_texture maya material_name material_node) ;;
     print (message material_node) ;;
     for_each post (import_texture maya material_name material_node)) w ∧
  (fst run = Ok () →
   let material_node :=
     node_named maya "RedshiftMaterial" asShader material_name (host w) in
   fst (maya_shadingNode maya "RedshiftMaterial" asShader material_name
          (host w)) = Some material_node ∧
   In (Stdout (message material_node)) (new_events w (snd run))).
Proof.
  intros Hget Htex Hno nl message run. subst run. split.
  - unfold import_loaded_material. apply bind_ext. intros material_node _.
    apply bind_ext. intros [] _. apply bind_ext. intros [] _.
    rewrite bind_run. cbn [gets fst snd].
    rewrite cmds_exec_mats, cmds_exec_mats, cmds_shadingNode_mats.
    rewrite Hget, Htex, for_each_app_cons.
    apply bind_ext. intros [] _.
    assert (import_texture maya material_name material_node
              (tex_name, {| tex_file := file; tex_import := true |})
            = print (message material_node)) as ->; [| done].
    unfold import_texture. cbn [negb]. by rewrite (getitem_None _ Hno).
  - intros Hok material_node.
    destruct (serves_import_loaded_material maya (texture_type_filter w)
                (loaded_mats w) material_name w eq_refl eq_refl)
      as (_ & _ & _ & d & Hlog & _ & _ & Hbuilds).
    rewrite (new_events_app _ _ _ Hlog). rewrite Hok in Hbuilds.
    destruct Hbuilds as [[? _] | (Hclean & d' & -> & Hturn)]; [done |].
    split.
    + apply node_accepted.
      apply Forall_cons_1 in Hclean as [Hfirst _].
      by apply negb_false_iff in Hfirst.
    + rewrite Hget, Htex in Hturn.
      destruct (in_turn_Ok_elem maya _ _ _ _
                  (tex_name, {| tex_file := file; tex_import := true |})
                  Hturn)
        as (d1 & dx & d2 & -> & Hx); [apply in_elt |].
      unfold imports_texture in Hx.
      cbn [fst snd tex_import tex_file negb] in Hx.
      rewrite (getitem_None _ Hno) in Hx. destruct Hx as [_ ->].
      rewrite !in_app_iff. right. right. left. by left.
Qed.

(** The attributes among the commands that set up a file node. *)
Lemma create_commands_file name file isRaw nf nt :
  In (Cmd (setAttr (nf +:+ ".fileTextureName") (VString file)))
    (create_commands name file isRaw nf nt).
Proof.
  unfold create_commands. rewrite !in_app_iff.
  do 3 right. left. by left.
Qed.

Lemma create_commands_raw name file isRaw nf nt :
  In (Cmd (setAttr (nf +:+ ".colorSpace") (VString "Raw")))
    (create_commands name file isRaw nf nt) ↔ isRaw = true.
Proof.
  unfold create_commands. rewrite !in_app_iff, !in_map_iff. split.
  - intros [[[=] | [[=] | []]] | [(c & [=] & _) | [([a b] & [=] & _) |
      [[[= Heq%str_app_inv_head] | []] | Hraw]]]]; [done |].
    by destruct isRaw.
  - intros ->. do 4 right. by left.
Qed.

(** C8. Whenever the build of a material connects a node [src] to the shader,
    the connection belongs to a texture entry of the material in the catalog
    that is tagged for import and named after a kind [k] of the filter. The
    events right before the connection are the set-up of a file node for
    this entry, and [src] is the name the host gave to this node when it was
    asked for it; the connection goes to the input of [k] on the shader node
    as the host named it. In this set-up the file name of [src] is set to
    the path of the entry, and its color space is set to raw if and only if
    [k] is not [BaseColor]. *)
Theorem wired_texture_file_and_color_space material_name w d0 src dst d1 :
  let w' := snd (import_loaded_material maya material_name w) in
  new_events w w' = d0 ++ Cmd (defaultNavigation src dst) :: d1 →
  ∃ entry tex_name file k dA,
    Dict.get (loaded_mats w) material_name = Some entry ∧
    In (tex_name, {| tex_file := file; tex_import := true |})
      (mat_textures entry) ∧
    TexTypeM.getitem tex_name = Some k ∧
    k ∈ texture_type_filter w ∧
    let name := material_name +:+ "_" +:+ TexTypeM.name k in
    let h := host_after maya dA (host w) in
    let set_up :=
      create_commands name file (negb (bool_decide (k = BaseColor))) src
        (node_named maya "place2dTexture" asUtility (name +:+ "_texture")
           (host_after maya
              [Cmd (shadingNode "file" (asTexture true) (name +:+ "_file"))]
              h)) in
    fst (maya_shadingNode maya "file" (asTexture true) (name +:+ "_file") h)
      = Some src ∧
    d0 = dA ++ set_up ∧
    dst = node_named maya "RedshiftMaterial" asShader material_name (host w)
          +:+ "." +:+ TexTypeM.value k ∧
    In (Cmd (setAttr (src +:+ ".fileTextureName") (VString file))) set_up ∧
    (In (Cmd (setAttr (src +:+ ".colorSpace") (VString "Raw"))) set_up
     ↔ k ≠ BaseColor).
Proof.
  intros w'. subst w'.
  destruct (serves_import_loaded_material maya (texture_type_filter w)
              (loaded_mats w) material_name w eq_refl eq_refl)
    as (_ & _ & _ & d & Hlog & _ & _ & Hbuilds).
  rewrite (new_events_app _ _ _ Hlog). intros Hd.
  unfold builds, staged in Hbuilds. cbv zeta in Hbuilds.
  set (L := shader_commands material_name
              (node_named maya "RedshiftMaterial" asShader material_name
                 (host w))) in *.
  assert (HL : Forall (λ ev, is_connection ev = false) L)
    by (repeat (constructor; [done |]); constructor).
  destruct Hbuilds as [[_ [t Ht]] | (_ & d' & -> & Hturn)].
  { exfalso. rewrite Hd in Ht.
    assert (Cmd (defaultNavigation src dst) ∈ L) as Hin
      by (rewrite Ht; set_solver).
    by pose proof (proj1 (Forall_forall _ _) HL _ Hin). }
  assert (∃ l, d0 = L ++ l ∧ d' = l ++ Cmd (defaultNavigation src dst) :: d1)
    as (l & -> & ->).
  { apply app_eq_app in Hd as [l [[HeqL Hl] | [-> ->]]]; [| by exists l].
    destruct l as [|c l]; simpl in Hl.
    - exists []. rewrite app_nil_r in *. by subst.
    - exfalso. injection Hl as <- _.
      assert (Cmd (defaultNavigation src dst) ∈ L) as Hin
        by (rewrite HeqL; set_solver).
      by pose proof (proj1 (Forall_forall _ _) HL _ Hin). }
  destruct (Dict.get (loaded_mats w) material_name) as [entry|];
    [| destruct Hturn as [_ Hnil]; by destruct l].
  destruct (in_turn_connection maya _ _ _ _ _ _ _ _ _ _ _ Hturn eq_refl)
    as (tex_name & file & k & dA & Hin & Hget & Hk & Hnode & -> & ->).
  exists entry, tex_name, file, k, (L ++ dA). cbv zeta in *.
  rewrite host_after_app. split_and!; try done.
  - apply create_commands_file.
  - by rewrite create_commands_raw, negb_true_iff, bool_decide_eq_false.
Qed.

(** C9. [import_all_loaded_materials] is the sequence of the builds of the
    materials tagged for import, in catalog order. The shader nodes it asks
    for are those of these materials, all of them when it returns and the
    first ones when a build raises; a material that is not tagged is never
    asked for. *)
Theorem import_all_builds_included w :
  let r := fst (import_all_loaded_materials maya w) in
  let w' := snd (import_all_loaded_materials maya w) in
  import_all_loaded_materials maya w =
    for_each (included (loaded_mats w)) (import_loaded_material maya) w ∧
  shader_requests (new_events w w') `prefix_of` included (loaded_mats w) ∧
  (r = Ok () → shader_requests (new_events w w') = included (loaded_mats w)) ∧
  (∀ name entry,
     NoDup (Dict.keys (loaded_mats w)) →
     Dict.get (loaded_mats w) name = Some entry →
     mat_import entry = false →
     ¬ In name (shader_requests (new_events w w'))).
Proof.
  intros r w'. subst r w'. unfold import_all_loaded_materials.
  rewrite bind_run. simpl.
  destruct (import_items_events maya (texture_type_filter w) (loaded_mats w)
              w eq_refl) as (_ & _ & _ & d & Hlog & Hpre & Hok & _).
  rewrite (new_events_app _ _ _ Hlog).
  split_and!; [apply import_items_included | done | done |].
  intros name entry Hnd Hget Hflag Hin.
  assert (Hinc : In name (included (loaded_mats w))).
  { destruct Hpre as [k ->]. apply in_app_iff. by left. }
  apply included_In in Hinc as (entry' & Hin' & Hflag').
  apply (get_NoDup_In _ _ _ Hnd) in Hin'. congruence.
Qed.

(** C10. For a name that is no key of the catalog, [import_loaded_material]
    never returns normally. It first asks the host for the shader node,
    whatever the catalog holds; when the host accepts this request and the
    two commands for the shading group, it raises [KeyError], these three
    commands being all it has issued. *)
Theorem import_unknown_material_raises name w :
  Dict.get (loaded_mats w) name = None →
  let r := fst (import_loaded_material maya name w) in
  let w' := snd (import_loaded_material maya name w) in
  (∃ err, r = Raise err) ∧
  (∃ rest,
     new_events w w' =
     Cmd (shadingNode "RedshiftMaterial" asShader name) :: rest) ∧
  (∀ node h1 h2 h3,
     maya_shadingNode maya "RedshiftMaterial" asShader name (host w)
       = (Some node, h1) →
     maya_exec maya (sets ("rsMaterial_" +:+ node)) h1 = (true, h2) →
     maya_exec maya
       (connectAttr (node +:+ ".outColor")
          ("rsMaterial_" +:+ node +:+ ".surfaceShader") false) h2 = (true, h3) →
     r = Raise KeyError ∧ host w' = h3 ∧ loaded_mats w' = loaded_mats w ∧
     new_events w w' =
     [Cmd (shadingNode "RedshiftMaterial" asShader name);
      Cmd (sets ("rsMaterial_" +:+ node));
      Cmd (connectAttr (node +:+ ".outColor")
             ("rsMaterial_" +:+ node +:+ ".surfaceShader") false)]).
Proof.
  intros Hget r w'. subst r w'. split_and!.
  - unfold import_loaded_material. rewrite bind_run. unfold cmds_shadingNode.
    destruct (maya_shadingNode maya "RedshiftMaterial" asShader name (host w))
      as [[node|] h1]; [| by eexists].
    rewrite bind_run. unfold cmds_exec at 1. simpl host.
    destruct (maya_exec maya (sets ("rsMaterial_" +:+ node)) h1)
      as [[|] h2]; [| by eexists].
    rewrite bind_run. unfold cmds_exec. simpl host.
    destruct (maya_exec maya
                (connectAttr (node +:+ ".outColor")
                   ("rsMaterial_" +:+ node +:+ ".surfaceShader") false) h2)
      as [[|] h3]; [| by eexists].
    rewrite bind_run. simpl. rewrite Hget. by eexists.
  - destruct (import_loaded_material_events maya (texture_type_filter w) name
                w eq_refl) as (_ & _ & _ & d & Hlog & d' & -> & _).
    rewrite (new_events_app _ _ _ Hlog). by exists d'.
  - intros node h1 h2 h3 H1 H2 H3.
    assert (Hrun : import_loaded_material maya name w =
      (Raise KeyError,
       with_host h3
         (emit (Cmd (connectAttr (node +:+ ".outColor")
                       ("rsMaterial_" +:+ node +:+ ".surfaceShader") false))
            (with_host h2
               (emit (Cmd (sets ("rsMaterial_" +:+ node)))
                  (with_host h1
                     (emit (Cmd (shadingNode "RedshiftMaterial" asShader name))
                        w))))))).
    { unfold import_loaded_material. rewrite bind_run. unfold cmds_shadingNode.
      rewrite H1. rewrite bind_run. unfold cmds_exec at 1. simpl host.
      rewrite H2. rewrite bind_run. unfold cmds_exec. simpl host.
      rewrite H3. rewrite bind_run. simpl. by rewrite Hget. }
    rewrite Hrun. simpl. split_and!; try done.
    apply new_events_app. simpl. by rewrite <- !(assoc_L (++)).
Qed.

End BuildTheorems.

(** ** The tool in use *)

Section ToolTheorems.

Context {H : Type}.
Variable maya : Maya H.
Variable fl : PathFlavour.
Implicit Types (w : World H) (e : Event) (F : gset TexType).

Lemma value_no_dot (k : TexType) : PyStr.mem "." (TexTypeM.value k) = false.
Proof. by destruct k. Qed.

Lemma value_inj (k k' : TexType) : TexTypeM.value k = TexTypeM.value k' → k = k'.
Proof. by destruct k, k'. Qed.

(** A connection wires the kind whose shader input it names, and no other. *)
Lemma wires_destination (k k' : TexType) (src node : string) :
  wires k (Cmd (defaultNavigation src (node +:+ "." +:+ TexTypeM.value k')))
  = true → k = k'.
Proof.
  simpl. intros [p Hp]%endswith_spec. apply value_inj.
  assert (Hl : PyStr.rsplit_last "." (node +:+ String "." (TexTypeM.value k'))
               = Some (node, TexTypeM.value k'))
    by apply rsplit_last_app, value_no_dot.
  assert (Hr : PyStr.rsplit_last "." (p +:+ String "." (TexTypeM.value k))
               = Some (p, TexTypeM.value k))
    by apply rsplit_last_app, value_no_dot.
  change (node +:+ "." +:+ TexTypeM.value k')
    with (node +:+ String "." (TexTypeM.value k')) in Hp.
  change (p +:+ "." +:+ TexTypeM.value k)
    with (p +:+ String "." (TexTypeM.value k)) in Hp.
  rewrite Hp in Hl. congruence.
Qed.

Lemma build_event_not_wired F (k : TexType) e :
  k ∉ F → (shader_request e = None → build_event F e) → wires k e = false.
Proof.
  intros Hk He. destruct e as [[| | | |src dst|]|]; try done.
  destruct (He eq_refl) as (node & k' & Hk' & ->).
  destruct (wires _ _) eqn:Hw; [| done].
  apply wires_destination in Hw as ->. done.
Qed.

Lemma init_unimplemented_out (h : H) files : unimplemented_out (init h files).
Proof.
  split_and!; [| | by apply Forall_nil].
  - by apply (bool_decide_unpack _).
  - by apply (bool_decide_unpack _).
Qed.

Lemma scan_unimplemented_out folder w :
  unimplemented_out w →
  unimplemented_out (snd (load_materials_data fl folder w)).
Proof.
  intros Hw. rewrite load_materials_data_run.
  destruct (fs w folder) as [files|]; [| done].
  destruct (scan_files_frame fl folder files w) as (Hf & _ & _ & Hl).
  unfold unimplemented_out. by rewrite Hf, Hl.
Qed.

Lemma import_all_unimplemented_out w :
  unimplemented_out w →
  unimplemented_out (snd (import_all_loaded_materials maya w)).
Proof.
  intros (HE & HH & Hlog). unfold import_all_loaded_materials.
  rewrite bind_run. simpl.
  destruct (import_items_events maya (texture_type_filter w) (loaded_mats w)
              w eq_refl) as (_ & Hf & _ & d & Hd & _ & _ & Hall).
  unfold unimplemented_out. rewrite Hf, Hd. split_and!; [done | done |].
  apply Forall_app. split; [done |].
  eapply Forall_impl; [done |]. intros e He.
  split; by eapply build_event_not_wired.
Qed.

Lemma toggle_unimplemented_out (category : TexType) (value : bool) w :
  kind_checkbox_enabled category = true →
  unimplemented_out w → unimplemented_out (snd (toggle category value w)).
Proof.
  intros Hen (HE & HH & Hlog). unfold toggle. rewrite bind_run. simpl.
  destruct value; simpl.
  - split_and!; [| | done]; intros Hin; cbn in Hin;
      apply elem_of_union in Hin as [?|Hc%elem_of_singleton]; try done;
      by destruct category.
  - destruct (bool_decide _); simpl; [| done].
    split_and!; [| | done]; intros Hin; cbn in Hin;
      by apply elem_of_difference in Hin as [? _].
Qed.

Lemma handle_unimplemented_out (ev : UIEvent) w :
  unimplemented_out w → unimplemented_out (snd (handle maya fl ev w)).
Proof.
  intros Hw. destruct ev as [[folder|]|yes|category value|name state|m t state].
  - by apply scan_unimplemented_out.
  - done.
  - simpl. rewrite bind_run. simpl. destruct (loaded_mats w); [done |].
    destruct yes; [| done]. by apply import_all_unimplemented_out.
  - simpl. destruct (kind_checkbox_enabled category) eqn:Hen; [| done].
    by apply toggle_unimplemented_out.
  - simpl. by destruct (Dict.get (loaded_mats w) name).
  - simpl. destruct (Dict.get (loaded_mats w) m) as [data|]; [| done].
    by destruct (Dict.get (mat_textures data) t).
Qed.

Lemma handle_unique_keys (ev : UIEvent) w :
  unique_keys (loaded_mats w) →
  unique_keys (loaded_mats (snd (handle maya fl ev w))).
Proof.
  intros Hw. destruct ev as [[folder|]|yes|category value|name state|m t state].
  - simpl. rewrite load_materials_data_run.
    destruct (fs w folder); [by apply scan_files_unique_keys | done].
  - done.
  - assert (Hall : loaded_mats (snd (import_all_loaded_materials maya w))
                   = loaded_mats w).
    { unfold import_all_loaded_materials. rewrite bind_run. simpl.
      by destruct (import_items_events maya (texture_type_filter w)
                     (loaded_mats w) w eq_refl) as (-> & _). }
    simpl. rewrite bind_run. simpl.
    destruct (loaded_mats w) eqn:Hm; simpl; [by rewrite Hm |].
    destruct yes; simpl; [by rewrite Hall | by rewrite Hm].
  - simpl. destruct (kind_checkbox_enabled category); [| done].
    unfold toggle. rewrite bind_run. simpl.
    destruct value; [done |]. by destruct (bool_decide _).
  - simpl. unfold on_material_toggle_switched, modify. cbn [snd].
    destruct (Dict.get (loaded_mats w) name) as [data|] eqn:Hget; [| done].
    unfold modify, with_mats. cbn [snd loaded_mats].
    destruct Hw as [Hnd Hall]. split.
    + by rewrite keys_set_present.
    + apply (set_Forall (λ entry, NoDup (Dict.keys (mat_textures entry))));
        [done |].
      cbn [mat_textures].
      by apply (get_Forall (λ entry, NoDup (Dict.keys (mat_textures entry)))
                  (loaded_mats w) name).
  - simpl. unfold on_texture_selected, modify. cbn [snd].
    destruct (Dict.get (loaded_mats w) m) as [data|] eqn:Hget; [| done].
    destruct (Dict.get (mat_textures data) t) as [tex|] eqn:Htex; [| done].
    unfold modify, with_mats. cbn [snd loaded_mats].
    destruct Hw as [Hnd Hall]. split.
    + by rewrite keys_set_present.
    + apply (set_Forall (λ entry, NoDup (Dict.keys (mat_textures entry))));
        [done |].
      cbn [mat_textures]. rewrite keys_set_present by done.
      by apply (get_Forall (λ entry, NoDup (Dict.keys (mat_textures entry)))
                  (loaded_mats w) m).
Qed.

(** The catalog of a session never holds a key twice. *)
Lemma session_unique_keys (evs : list UIEvent) (h : H)
    (files : string → option (list string)) :
  unique_keys (loaded_mats (run maya fl evs (init h files))).
Proof.
  unfold run.
  assert (Hinit : unique_keys (loaded_mats (init h files)))
    by (split; constructor).
  revert Hinit. generalize (init h files).
  induction evs as [|ev evs IH]; intros w Hw; [done |].
  simpl. apply IH. by apply handle_unique_keys.
Qed.

(** C7. Whatever the user does, in whatever order (open folders, tag
    materials and textures, toggle the kinds whose check boxes are enabled,
    import), the texture type filter never holds [Emissive] or [Height] and
    no host command ever connects a node to the shader input of one of them. *)
Theorem unimplemented_kinds_never_wired (evs : list UIEvent) (h : H)
    (files : string → option (list string)) :
  let w := run maya fl evs (init h files) in
  (Emissive ∉ texture_type_filter w) ∧ (Height ∉ texture_type_filter w) ∧
  Forall (λ e, wires Emissive e = false ∧ wires Height e = false) (log w).
Proof.
  simpl. unfold run.
  generalize (init_unimplemented_out h files). generalize (init h files).
  induction evs as [|ev evs IH]; intros w Hw; [done |].
  simpl. apply IH. by apply handle_unimplemented_out.
Qed.

End ToolTheorems.

(** ** Worked sessions *)

Section Sessions.

Import OsPath FakeMaya.

(** C1, as stated, fails: with the other characters kept as they are the key
    of [Mesh_RockWall_mat_BaseColor.png] would be [RockWall], and the scan
    files the texture under [Rockwall]. *)
Lemma scan_key_lowers_rest :
  let w' :=
    snd (load_materials_data posixpath "/tex"
           (start [] ["Mesh_RockWall_mat_BaseColor.png"])) in
  capitalize_first_only "RockWall" = "RockWall" ∧
  tex_lookup (loaded_mats w') (capitalize_first_only "RockWall") "BaseColor"
    = None ∧
  Dict.keys (loaded_mats w') = ["Rockwall"].
Proof. by vm_compute. Qed.

Lemma scan_files_valid_name_witness :
  tex_lookup
    (loaded_mats
       (snd (load_materials_data posixpath "/tex"
               (start [] ["Mesh_rock_mat_BaseColor.png"]))))
    "Rock" "BaseColor"
  = Some {| tex_file := "/tex/Mesh_rock_mat_BaseColor.png";
            tex_import := true |}.
Proof.
  refine (proj2 (scan_files_valid_name posixpath "/tex" "rock" "BaseColor"
                   ".png" [] [] (start [] ["Mesh_rock_mat_BaseColor.png"])
                   _ _ _ _ _ _ _)).
  - by left.
  - reflexivity.
  - reflexivity.
  - reflexivity.
  - reflexivity.
  - reflexivity.
  - intros g [].
Defined.

(** C2, as stated, fails: a selected file without an underscore in its name
    makes the scan raise, and the file listed after it is not filed. *)
Lemma scan_aborts_on_unsplittable_name :
  let run :=
    load_materials_data posixpath "/tex"
      (start [] ["notes.png"; "Mesh_Rock_mat_BaseColor.png"]) in
  fst run = Raise ValueError ∧ loaded_mats (snd run) = [].
Proof. by vm_compute. Qed.

Lemma scan_stops_at_unsplittable_witness :
  let w := start [] ["Mesh_a_mat_X.png"; "notes.png"; "Mesh_b_mat_Y.png"] in
  load_materials_data posixpath "/tex" w =
  (Raise ValueError,
   snd (for_each ["Mesh_a_mat_X.png"] (load_file posixpath "/tex") w)).
Proof.
  intros w.
  refine (proj2 (scan_stops_at_unsplittable posixpath "/tex"
                   ["Mesh_a_mat_X.png"; "notes.png"; "Mesh_b_mat_Y.png"]
                   w eq_refl)
            ["Mesh_a_mat_X.png"] "notes.png" ["Mesh_b_mat_Y.png"] eq_refl
            _ eq_refl eq_refl).
  intros g' [<-|[]] _. reflexivity.
Defined.

(** C3, as stated, fails: the host refuses the second command of the build of
    [A]; the import raises and [B], tagged for import, is never asked for. *)
Lemma refused_command_aborts_batch :
  let mats :=
    [("A", {| mat_textures := []; mat_import := true |});
     ("B", {| mat_textures := []; mat_import := true |})] in
  let run := import_all_loaded_materials maya (session [true; false] [] mats) in
  included mats = ["A"; "B"] ∧
  fst run = Raise RuntimeError ∧
  log (snd run) = [Cmd (shadingNode "RedshiftMaterial" asShader "A");
                   Cmd (sets "rsMaterial_A")].
Proof. by vm_compute. Qed.

Lemma host_failure_ends_batch_witness :
  let w :=
    session [true; false] []
      [("A", {| mat_textures := []; mat_import := true |});
       ("B", {| mat_textures := []; mat_import := true |})] in
  let run := import_all_loaded_materials maya w in
  refusals maya (new_events w (snd run)) (host w) = [false; true] ∧
  fst run = Raise RuntimeError ∧
  length (new_events w (snd run)) = 2.
Proof.
  intros w run.
  assert (Href : refusals maya (new_events w (snd run)) (host w)
                 = [false; true]) by (vm_compute; reflexivity).
  destruct (host_failure_ends_batch maya w) as (_ & _ & Hi & _).
  destruct (Hi 1) as [Hlen Hr].
  { change (refusals maya (new_events w (snd run)) (host w) !! 1 = Some true).
    by rewrite Href. }
  split_and!; [done | exact Hr | exact (eq_sym Hlen)].
Defined.

Lemma rescan_keeps_entries_witness :
  let old := {| tex_file := "/old/base.png"; tex_import := false |} in
  let w :=
    session [] ["Mesh_rock_mat_BaseColor.png"]
      [("Rock", {| mat_textures := [("BaseColor", old)];
                   mat_import := false |})] in
  tex_lookup (loaded_mats (snd (load_materials_data posixpath "/tex" w)))
    "Rock" "BaseColor" = Some old.
Proof.
  intros old w.
  refine (proj1 (rescan_keeps_entries posixpath "/tex" w) "Rock" "BaseColor" old _).
  reflexivity.
Defined.

(** C5, as stated, fails: the extension of the file is [.PNG], which is
    [.png] but for case, and the scan passes the file over. *)
Lemma upper_case_extension_passed_over :
  let file := "Mesh_Rock_mat_BaseColor.PNG" in
  let run := load_materials_data posixpath "/tex" (start [] [file]) in
  PyStr.lower (snd (OsPath.splitext posixpath file)) = ".png" ∧
  fst run = Ok () ∧ loaded_mats (snd run) = [].
Proof. by vm_compute. Qed.

Lemma load_file_selects_suffix_witness :
  let w := start [] [] in
  load_file posixpath "/tex" "Mesh_rock_mat_Normal.jpg" w =
  (Ok (),
   with_mats
     [("Rock",
       {| mat_textures :=
            [("Normal", {| tex_file := "/tex/Mesh_rock_mat_Normal.jpg";
                           tex_import := true |})];
          mat_import := true |})] w).
Proof.
  intros w.
  refine (proj1 (load_file_selects_suffix posixpath "/tex"
                   "Mesh_rock_mat_Normal.jpg" w) _).
  exists "Mesh_rock_mat_Normal", ".jpg". split; [| reflexivity].
  right. right. right. by left.
Defined.

Lemma unsupported_texture_reported_witness :
  let base :=
    ("BaseColor",
     {| tex_file := "/tex/Mesh_rock_mat_BaseColor.png"; tex_import := false |})
  in
  let metal :=
    ("Metallic",
     {| tex_file := "/tex/Mesh_rock_mat_Metallic.png"; tex_import := true |})
  in
  let entry :=
    {| mat_textures :=
         [base;
          ("Foo", {| tex_file := "/tex/Mesh_rock_mat_Foo.png";
                     tex_import := true |});
          metal];
       mat_import := true |} in
  let w := session [] [] [("Rock", entry)] in
  let run := import_loaded_material maya "Rock" w in
  fst run = Ok () ∧
  In (Stdout
        ("Foo texture type is not supported" +:+ String "010" (
         "Rock_Foo was not imported" +:+ String "010" (
         "File: /tex/Mesh_rock_mat_Foo.png" +:+ String "010" ""))))
    (new_events w (snd run)).
Proof.
  intros base metal entry w run.
  assert (Hok : fst run = Ok ()) by (vm_compute; reflexivity).
  split; [exact Hok |].
  refine (proj2 (proj2 (unsupported_texture_reported maya "Rock" entry [base]
                          "Foo" "/tex/Mesh_rock_mat_Foo.png" [metal] w
                          eq_refl eq_refl _) Hok)).
  intros []; discriminate.
Defined.

Lemma wired_texture_file_and_color_space_witness :
  let w :=
    session [] []
      [("Rock",
        {| mat_textures :=
             [("Metallic",
               {| tex_file := "/tex/m.png"; tex_import := true |})];
           mat_import := true |})] in
  let d := new_events w (snd (import_loaded_material maya "Rock" w)) in
  ∃ entry tex_name file k,
    Dict.get (loaded_mats w) "Rock" = Some entry ∧
    In (tex_name, {| tex_file := file; tex_import := true |})
      (mat_textures entry) ∧
    TexTypeM.getitem tex_name = Some k ∧
    "Rock.refl_metalness" =
      node_named maya "RedshiftMaterial" asShader "Rock" (host w)
      +:+ "." +:+ TexTypeM.value k ∧
    In (Cmd (setAttr ("Rock_Metallic_file" +:+ ".fileTextureName")
               (VString file))) (take 25 d).
Proof.
  intros w d.
  assert (Hd : d = take 25 d ++
                   Cmd (defaultNavigation "Rock_Metallic_file"
                          "Rock.refl_metalness") :: drop 26 d)
    by (vm_compute; reflexivity).
  destruct (wired_texture_file_and_color_space maya "Rock" w (take 25 d)
              "Rock_Metallic_file" "Rock.refl_metalness" (drop 26 d) Hd)
    as (entry & tex_name & file & k & dA & Hget & Hin & Hk & _ & _ & Hd0 &
        Hdst & Hfile & _).
  exists entry, tex_name, file, k. split_and!; try done.
  rewrite Hd0. apply in_app_iff. by right.
Defined.

Lemma import_all_builds_included_witness :
  let w :=
    session [] []
      [("A", {| mat_textures := []; mat_import := true |});
       ("B", {| mat_textures := []; mat_import := false |})] in
  let w' := snd (import_all_loaded_materials maya w) in
  ¬ In "B" (shader_requests (new_events w w')).
Proof.
  intros w w'.
  refine (proj2 (proj2 (proj2 (import_all_builds_included maya w))) "B"
            {| mat_textures := []; mat_import := false |} _ eq_refl eq_refl).
  apply (bool_decide_unpack _). by vm_compute.
Defined.

Lemma import_unknown_material_raises_witness :
  let w := session [] [] [] in
  fst (import_loaded_material maya "Ghost" w) = Raise KeyError ∧
  new_events w (snd (import_loaded_material maya "Ghost" w)) =
  [Cmd (shadingNode "RedshiftMaterial" asShader "Ghost");
   Cmd (sets "rsMaterial_Ghost");
   Cmd (connectAttr "Ghost.outColor" "rsMaterial_Ghost.surfaceShader" false)].
Proof.
  intros w.
  destruct (proj2 (proj2 (import_unknown_material_raises maya "Ghost" w eq_refl))
              "Ghost" [] [] [] eq_refl eq_refl eq_refl)
    as (Hr & _ & _ & Hev).
  split; [exact Hr | exact Hev].
Defined.

(** The example of the specification: of the three textures of [Rock] two
    sampling nodes are made and the third is reported. *)
Example rock_example :
  let w :=
    run maya posixpath [OpenFolder (Some "/tex"); ImportSelected true]
      (start [] ["Mesh_Rock_mat_BaseColor.png"; "Mesh_Rock_mat_Metallic.png";
                 "Mesh_Rock_mat_Foo.png"]) in
  Dict.keys (loaded_mats w) = ["Rock"] ∧
  length (List.filter
            (λ e, match e with
                  | Cmd (shadingNode "file" _ _) => true
                  | _ => false
                  end) (log w)) = 2 ∧
  length (List.filter
            (λ e, match e with Stdout _ => true | _ => false end) (log w)) = 1.
Proof. by vm_compute. Qed.

End Sessions.

(** * Further properties *)

(** ** More on the scan *)

Section ScanMore.

Context {H : Type}.
Variable fl : PathFlavour.
Implicit Types (w : World H) (folder file key : string) (files : list string).
Implicit Types (mats : list (string * MatEntry)).

(** A scan that raises has filed the files before the one it stopped at. *)
Lemma scan_files_reached folder files w :
  ∃ pre post, files = pre ++ post ∧
    for_each pre (load_file fl folder) w =
    (Ok (), snd (for_each files (load_file fl folder) w)).
Proof.
  revert w. induction files as [|g files IH]; intros w.
  - by exists [], [].
  - rewrite for_each_cons.
    pose proof (load_file_cases fl folder g w) as Hc.
    destruct (load_file fl folder g w) as [[[]|e] w1] eqn:Hg.
    + destruct (IH w1) as (pre & post & -> & Hrun).
      exists (g :: pre), post. split; [done |].
      by rewrite for_each_cons, Hg.
    + exists [], (g :: files). split; [done |]. simpl.
      destruct (scan_target fl g) as [[? ?]|]; [done |].
      destruct (unsplittable fl g); injection Hc as _ ->; done.
Qed.

Lemma add_texture_keys mats key tex_name path :
  Dict.keys (add_texture mats key tex_name path) =
  Dict.keys mats ++
  match Dict.get mats key with Some _ => [] | None => [key] end.
Proof.
  unfold add_texture.
  rewrite (surjective_pairing (Dict.setdefault mats key _)).
  rewrite (surjective_pairing (Dict.setdefault (mat_textures _) tex_name _)).
  rewrite keys_set_present by (by rewrite setdefault_get).
  rewrite setdefault_fst. destruct (Dict.get mats key).
  - by rewrite app_nil_r.
  - unfold Dict.keys. by rewrite map_app.
Qed.

Lemma add_texture_textures_grow mats key tex_name path k entry :
  Dict.get mats k = Some entry →
  ∃ entry', Dict.get (add_texture mats key tex_name path) k = Some entry' ∧
    Dict.keys (mat_textures entry) `prefix_of` Dict.keys (mat_textures entry').
Proof.
  intros Hk. rewrite add_texture_get.
  destruct (String.eqb_spec key k) as [->|].
  - rewrite Hk. simpl. eexists. split; [done |]. simpl.
    rewrite setdefault_fst.
    destruct (Dict.get (mat_textures entry) tex_name); [done |].
    unfold Dict.keys. rewrite map_app. by apply prefix_app_r.
  - by exists entry.
Qed.

Lemma load_file_grows folder file w :
  let w' := snd (load_file fl folder file w) in
  Dict.keys (loaded_mats w) `prefix_of` Dict.keys (loaded_mats w') ∧
  ∀ k entry, Dict.get (loaded_mats w) k = Some entry →
    ∃ entry', Dict.get (loaded_mats w') k = Some entry' ∧
      Dict.keys (mat_textures entry) `prefix_of` Dict.keys (mat_textures entry').
Proof.
  rewrite load_file_run. destruct (selected file); simpl.
  - destruct (split_names fl file) as [[m t]|]; simpl.
    + split.
      * rewrite add_texture_keys. by apply prefix_app_r.
      * intros k entry. apply add_texture_textures_grow.
    + split; [done |]. intros k entry ?. by exists entry.
  - split; [done |]. intros k entry ?. by exists entry.
Qed.

Lemma scan_files_grow folder files w :
  let w' := snd (for_each files (load_file fl folder) w) in
  Dict.keys (loaded_mats w) `prefix_of` Dict.keys (loaded_mats w') ∧
  ∀ k entry, Dict.get (loaded_mats w) k = Some entry →
    ∃ entry', Dict.get (loaded_mats w') k = Some entry' ∧
      Dict.keys (mat_textures entry) `prefix_of` Dict.keys (mat_textures entry').
Proof.
  revert w. induction files as [|g files IH]; intros w.
  - simpl. split; [done |]. intros k entry ?. by exists entry.
  - rewrite for_each_cons.
    pose proof (load_file_grows folder g w) as [Hkeys Htex].
    destruct (load_file fl folder g w) as [[[]|e] w1]; simpl in *.
    + destruct (IH w1) as [Hkeys' Htex']. split; [by etrans |].
      intros k entry Hk. destruct (Htex k entry Hk) as (e1 & H1 & Hp1).
      destruct (Htex' k e1 H1) as (e2 & H2 & Hp2).
      exists e2. split; [done | by etrans].
    + by split.
Qed.

(** X1. The scan works on the catalog alone: whatever it returns, it has
    issued no host command, printed nothing and left the texture type filter
    as it was. *)
Theorem scan_touches_catalog_only folder w :
  let w' := snd (load_materials_data fl folder w) in
  log w' = log w ∧ host w' = host w ∧
  texture_type_filter w' = texture_type_filter w ∧ fs w' = fs w.
Proof.
  simpl. rewrite load_materials_data_run.
  destruct (fs w folder) as [files|]; [| done].
  by destruct (scan_files_frame fl folder files w) as (? & ? & ? & ?).
Qed.

(** X2. The scan only appends: the materials that were in the catalog keep
    their places at its head, and within each of them the textures that were
    there keep theirs; new materials and textures come after them. *)
Theorem scan_only_appends folder w :
  let w' := snd (load_materials_data fl folder w) in
  Dict.keys (loaded_mats w) `prefix_of` Dict.keys (loaded_mats w') ∧
  ∀ key entry, Dict.get (loaded_mats w) key = Some entry →
    ∃ entry', Dict.get (loaded_mats w') key = Some entry' ∧
      Dict.keys (mat_textures entry) `prefix_of` Dict.keys (mat_textures entry').
Proof.
  simpl. rewrite load_materials_data_run.
  destruct (fs w folder) as [files|].
  - apply scan_files_grow.
  - simpl. split; [done |]. intros key entry ?. by exists entry.
Qed.

(** X3. The scan invents nothing: a texture entry of the catalog after a
    scan, whatever the scan returned, was there before or is the entry of a
    file of the listing that is filed under that material and texture name,
    with the path of that file and tagged for import. *)
Theorem scan_entries_come_from_files folder w key t e :
  tex_lookup (loaded_mats (snd (load_materials_data fl folder w))) key t
    = Some e →
  tex_lookup (loaded_mats w) key t = Some e ∨
  ∃ files g, fs w folder = Some files ∧ In g files ∧
    scan_target fl g = Some (key, t) ∧
    e = {| tex_file := file_path fl folder g; tex_import := true |}.
Proof.
  rewrite load_materials_data_run.
  destruct (fs w folder) as [files|]; [| by left].
  destruct (scan_files_reached folder files w) as (pre & post & -> & Hrun).
  rewrite (scan_files_lookup fl folder pre w _ key t Hrun).
  destruct (tex_lookup (loaded_mats w) key t) as [e0|]; [by left |].
  unfold first_filed.
  destruct (List.find _ pre) as [g|] eqn:Hfind; [| done].
  intros [= <-]. right. apply find_some in Hfind as [Hin Hg].
  apply bool_decide_eq_true in Hg.
  exists (pre ++ post), g. split_and!; try done.
  apply in_app_iff. by left.
Qed.

Lemma load_file_new_flag folder file w k entry' :
  Dict.get (loaded_mats w) k = None →
  Dict.get (loaded_mats (snd (load_file fl folder file w))) k = Some entry' →
  mat_import entry' = true.
Proof.
  intros Hk. rewrite load_file_run. destruct (selected file); simpl.
  - destruct (split_names fl file) as [[m t]|]; simpl; [| congruence].
    intros Hget.
    pose proof (add_texture_flag (loaded_mats w)
                  (PyStr.capitalize (unicode_capitalize fl) m) t
                  (file_path fl folder file) k) as Hflag.
    rewrite Hget, Hk in Hflag. simpl in Hflag.
    destruct (String.eqb _ k); congruence.
  - congruence.
Qed.

(** X4. A material that the scan adds to the catalog is tagged for import. *)
Theorem scan_new_material_tagged folder w key entry' :
  Dict.get (loaded_mats w) key = None →
  Dict.get (loaded_mats (snd (load_materials_data fl folder w))) key
    = Some entry' →
  mat_import entry' = true.
Proof.
  rewrite load_materials_data_run.
  destruct (fs w folder) as [files|]; [| simpl; congruence].
  revert w. induction files as [|g files IH]; intros w Hk; [simpl; congruence |].
  rewrite for_each_cons.
  pose proof (load_file_new_flag folder g w key) as Hnew.
  destruct (load_file fl folder g w) as [[[]|err] w1]; simpl in *.
  - destruct (Dict.get (loaded_mats w1) key) as [e1|] eqn:H1; [| by apply IH].
    intros Hget.
    pose proof (scan_files_keeps_flag fl folder files w1 key e1 H1) as Hkeep.
    rewrite Hget in Hkeep. simpl in Hkeep. injection Hkeep as ->.
    by apply (Hnew e1).
  - by apply Hnew.
Qed.

End ScanMore.

(** ** Letter case and the suffix mark *)

Section NameFacts.

Import PyStr.

#[local] Arguments String.append !_ _ / : simpl nomatch.

Lemma upper_char_idem (c : ascii) : upper_char (upper_char c) = upper_char c.
Proof. by destruct c as [[] [] [] [] [] [] [] []]. Qed.

Lemma lower_char_idem (c : ascii) : lower_char (lower_char c) = lower_char c.
Proof. by destruct c as [[] [] [] [] [] [] [] []]. Qed.

Lemma upper_lower_char (c : ascii) : upper_char (lower_char c) = upper_char c.
Proof. by destruct c as [[] [] [] [] [] [] [] []]. Qed.

Lemma lower_idem (s : string) : lower (lower s) = lower s.
Proof.
  induction s as [|c s IH]; simpl; [done |]. by rewrite lower_char_idem, IH.
Qed.

Lemma capitalize_ascii_idem (s : string) :
  capitalize_ascii (capitalize_ascii s) = capitalize_ascii s.
Proof.
  destruct s as [|c s]; simpl; [done |]. by rewrite upper_char_idem, lower_idem.
Qed.

Lemma capitalize_ascii_lower (s1 s2 : string) :
  lower s1 = lower s2 → capitalize_ascii s1 = capitalize_ascii s2.
Proof.
  destruct s1 as [|c1 s1], s2 as [|c2 s2]; simpl; try done.
  intros [= Hc Hs]. rewrite Hs.
  by rewrite <- (upper_lower_char c1), <- (upper_lower_char c2), Hc.
Qed.

Lemma lower_char_ascii (c : ascii) :
  (nat_of_ascii (lower_char c) <? 128)%nat = (nat_of_ascii c <? 128)%nat.
Proof. by destruct c as [[] [] [] [] [] [] [] []]. Qed.

Lemma upper_char_ascii (c : ascii) :
  (nat_of_ascii (upper_char c) <? 128)%nat = (nat_of_ascii c <? 128)%nat.
Proof. by destruct c as [[] [] [] [] [] [] [] []]. Qed.

Lemma is_ascii_lower (s : string) : is_ascii (lower s) = is_ascii s.
Proof.
  induction s as [|c s IH]; simpl; [done |]. by rewrite lower_char_ascii, IH.
Qed.

Lemma is_ascii_capitalize_ascii (s : string) :
  is_ascii (capitalize_ascii s) = is_ascii s.
Proof.
  destruct s as [|c s]; simpl; [done |].
  by rewrite upper_char_ascii, is_ascii_lower.
Qed.

(** The capitalization of an ASCII string is an ASCII string that is its own
    capitalization. *)
Lemma capitalize_fixed (u : string → string) (s : string) :
  is_ascii s = true →
  is_ascii (capitalize u s) = true ∧
  capitalize u (capitalize u s) = capitalize u s.
Proof.
  intros Hs. unfold capitalize. rewrite Hs.
  rewrite is_ascii_capitalize_ascii, Hs. split; [done |].
  apply capitalize_ascii_idem.
Qed.

(** Tokens that differ in letter case only have the same capitalization. *)
Lemma capitalize_lower (u : string → string) (s1 s2 : string) :
  lower s1 = lower s2 → capitalize u s1 = capitalize u s2.
Proof.
  intros Hlow. unfold capitalize.
  rewrite <- (is_ascii_lower s1), <- (is_ascii_lower s2), Hlow.
  destruct (is_ascii (lower s2)); [by apply capitalize_ascii_lower | done].
Qed.

(** The scan for the suffix mark runs over a stretch without underscore. *)
Lemma replace_from_over (m rest : string) :
  mem "_" m = false →
  replace_from 0 "_mat" "" (m +:+ rest) = m +:+ replace_from 0 "_mat" "" rest.
Proof.
  induction m as [|a m IH]; [done |].
  intros [Ha Hm]%orb_false_iff.
  change (String a m +:+ rest) with (String a (m +:+ rest)).
  rewrite replace_from_0.
  change (startswith (String a (m +:+ rest)) "_mat")
    with (Ascii.eqb "_" a && startswith (m +:+ rest) "mat").
  rewrite Ascii.eqb_sym, Ha. cbn [andb].
  change (String a m +:+ replace_from 0 "_mat" "" rest)
    with (String a (m +:+ replace_from 0 "_mat" "" rest)).
  f_equal. by apply IH.
Qed.

(** Both marks go when the texture name starts with [mat]. *)
Lemma replace_double_mark (m rest : string) :
  mem "_" m = false → mem "_" rest = false →
  replace (m +:+ "_mat_" +:+ "mat" +:+ rest) "_mat" "" = m +:+ rest.
Proof.
  intros Hm Hrest. unfold replace. rewrite replace_from_over by done.
  change ("_mat_" +:+ "mat" +:+ rest) with ("_mat" +:+ "_mat" +:+ rest).
  rewrite !replace_from_match. simpl.
  by rewrite (replace_from_absent "_").
Qed.

Lemma no_underscore_no_mark (m : string) :
  mem "_" m = false → contains m "_mat" = false.
Proof.
  induction m as [|a m IH]; [done |].
  intros [Ha Hm]%orb_false_iff. cbn [contains].
  change (startswith (String a m) "_mat")
    with (Ascii.eqb "_" a && startswith m "mat").
  rewrite Ascii.eqb_sym, Ha. simpl. auto.
Qed.

End NameFacts.

(** ** Names and keys *)

Section ScanNames.

Context {H : Type}.
Variable fl : PathFlavour.
Implicit Types (w : World H) (folder file key : string) (files : list string).

(** What a well-formed name is filed under. *)
Lemma scan_target_valid (m t ext : string) :
  In ext _EXTENSIONS →
  PyStr.contains m "_mat" = false →
  PyStr.mem "_" t = false →
  PyStr.startswith t "mat" = false →
  OsPath.has_sep fl (_PREFIX +:+ m +:+ "_mat_" +:+ t +:+ ext) = false →
  scan_target fl (_PREFIX +:+ m +:+ "_mat_" +:+ t +:+ ext)
  = Some (PyStr.capitalize (unicode_capitalize fl) m, t).
Proof.
  intros Hext Hm Ht Hmat Hsep. unfold scan_target, selected.
  assert (PyStr.endswith_any (_PREFIX +:+ m +:+ "_mat_" +:+ t +:+ ext)
            _EXTENSIONS = true) as ->.
  { apply endswith_any_spec.
    exists (_PREFIX +:+ m +:+ "_mat_" +:+ t), ext. split; [done |].
    by rewrite !str_app_assoc. }
  by rewrite split_names_valid.
Qed.

Lemma load_file_keys_capitalized folder file w :
  (∀ m t, selected file = true → split_names fl file = Ok (m, t) →
          PyStr.is_ascii m = true) →
  Forall (λ key, PyStr.is_ascii key = true ∧
                 PyStr.capitalize (unicode_capitalize fl) key = key)
    (Dict.keys (loaded_mats w)) →
  Forall (λ key, PyStr.is_ascii key = true ∧
                 PyStr.capitalize (unicode_capitalize fl) key = key)
    (Dict.keys (loaded_mats (snd (load_file fl folder file w)))).
Proof.
  intros Hascii Hw. rewrite load_file_run.
  destruct (selected file); [| done].
  destruct (split_names fl file) as [[m t]|]; [| done]. simpl.
  rewrite add_texture_keys. apply Forall_app. split; [done |].
  destruct (Dict.get (loaded_mats w)
              (PyStr.capitalize (unicode_capitalize fl) m)); [done |].
  repeat constructor; by apply capitalize_fixed, (Hascii m t).
Qed.

(** X5. For ASCII names the material keys are kept in capitalized form: when
    every key of the catalog is an ASCII string that is its own
    capitalization, as in the empty catalog, and the material token of every
    file that the scan parses is ASCII, so is every key after the scan. (Of
    other strings nothing of the kind holds: [str.capitalize] may give a
    string that is not its own capitalization.) *)
Theorem scan_keys_capitalized folder w :
  (∀ files file m t,
     fs w folder = Some files → In file files → selected file = true →
     split_names fl file = Ok (m, t) → PyStr.is_ascii m = true) →
  Forall (λ key, PyStr.is_ascii key = true ∧
                 PyStr.capitalize (unicode_capitalize fl) key = key)
    (Dict.keys (loaded_mats w)) →
  Forall (λ key, PyStr.is_ascii key = true ∧
                 PyStr.capitalize (unicode_capitalize fl) key = key)
    (Dict.keys (loaded_mats (snd (load_materials_data fl folder w)))).
Proof.
  rewrite load_materials_data_run.
  destruct (fs w folder) as [files|]; [| done].
  intros Hascii. specialize (Hascii files).
  assert (Hall : ∀ file m t, In file files → selected file = true →
            split_names fl file = Ok (m, t) → PyStr.is_ascii m = true)
    by (intros; by eapply Hascii).
  clear Hascii. revert w.
  induction files as [|g files IH]; intros w Hw; [done |].
  rewrite for_each_cons.
  assert (Hg : Forall (λ key, PyStr.is_ascii key = true ∧
                 PyStr.capitalize (unicode_capitalize fl) key = key)
                 (Dict.keys (loaded_mats (snd (load_file fl folder g w))))).
  { apply load_file_keys_capitalized; [| done].
    intros m t. apply Hall. by left. }
  destruct (load_file fl folder g w) as [[[]|e] w1]; simpl in *; [| done].
  apply IH; [| done]. intros file m t Hin. apply Hall. by right.
Qed.

(** X6. Letter case does not tell materials apart: two well-formed names
    whose material tokens differ in the case of their letters only are filed
    under the same material key. *)
Theorem scan_merges_letter_case (m1 t1 ext1 m2 t2 ext2 : string) :
  PyStr.lower m1 = PyStr.lower m2 →
  In ext1 _EXTENSIONS → In ext2 _EXTENSIONS →
  PyStr.contains m1 "_mat" = false → PyStr.contains m2 "_mat" = false →
  PyStr.mem "_" t1 = false → PyStr.mem "_" t2 = false →
  PyStr.startswith t1 "mat" = false → PyStr.startswith t2 "mat" = false →
  let file1 := _PREFIX +:+ m1 +:+ "_mat_" +:+ t1 +:+ ext1 in
  let file2 := _PREFIX +:+ m2 +:+ "_mat_" +:+ t2 +:+ ext2 in
  OsPath.has_sep fl file1 = false → OsPath.has_sep fl file2 = false →
  ∃ key, scan_target fl file1 = Some (key, t1) ∧
         scan_target fl file2 = Some (key, t2).
Proof.
  intros Hlow He1 He2 Hm1 Hm2 Ht1 Ht2 Hs1 Hs2 file1 file2 Hsep1 Hsep2.
  exists (PyStr.capitalize (unicode_capitalize fl) m1). split.
  - by apply scan_target_valid.
  - rewrite (capitalize_lower _ m1 m2 Hlow). by apply scan_target_valid.
Qed.

(** X7. When a name splits, the two tokens put back around an underscore give
    the name without extension, prefix and suffix mark, and the texture token
    holds no underscore: the material token is all that comes before the last
    one. *)
Theorem split_names_round_trip file mat_name tex_name :
  split_names fl file = Ok (mat_name, tex_name) →
  stripped fl file = mat_name +:+ "_" +:+ tex_name ∧
  PyStr.mem "_" tex_name = false.
Proof.
  rewrite split_names_stripped.
  destruct (PyStr.rsplit_last "_" (stripped fl file)) as [[l r]|] eqn:Hs;
    [| done].
  intros [= -> ->]. by apply rsplit_last_Some in Hs.
Qed.

(** X8. A texture name that starts with [mat] loses its mark too: for a name
    [Mesh_{m}_mat_mat{rest}{ext}] with no underscore in [m] and [rest], both
    [_mat] are taken out, no underscore is left, and the scan raises
    [ValueError] at the file. *)
Theorem texture_name_starting_with_mat_raises folder (m rest ext : string) w :
  In ext _EXTENSIONS →
  PyStr.mem "_" m = false → PyStr.mem "_" rest = false →
  let file := _PREFIX +:+ m +:+ "_mat_" +:+ ("mat" +:+ rest) +:+ ext in
  OsPath.has_sep fl file = false →
  stripped fl file = m +:+ rest ∧
  load_file fl folder file w = (Raise ValueError, w).
Proof.
  intros Hext Hm Hrest file Hsep.
  assert (Hstrip : stripped fl file = m +:+ rest).
  { unfold stripped, file. rewrite splitext_valid by done. cbn [fst].
    rewrite removeprefix_app. change _SUFFIX with "_mat".
    by apply replace_double_mark. }
  split; [done |].
  pose proof (load_file_cases fl folder file w) as Hc.
  assert (Hun : unsplittable fl file = true).
  { rewrite unsplittable_spec, Hstrip, mem_app, Hm, Hrest.
    unfold selected.
    assert (PyStr.endswith_any file _EXTENSIONS = true) as ->; [| done].
    apply endswith_any_spec.
    exists (_PREFIX +:+ m +:+ "_mat_" +:+ "mat" +:+ rest), ext.
    split; [done |]. unfold file. by rewrite !str_app_assoc. }
  destruct (scan_target fl file) as [[? ?]|] eqn:Ht.
  - apply scan_target_splits in Ht. congruence.
  - by rewrite Hun in Hc.
Qed.

(** X9. A scan that returns has passed no selected file over: each file of
    the listing whose name has one of the extensions is filed under some
    material and texture name, and the catalog holds an entry there. *)
Theorem scan_files_every_selected_file folder files w w' g :
  fs w folder = Some files →
  load_materials_data fl folder w = (Ok (), w') →
  In g files → selected g = true →
  ∃ key t, scan_target fl g = Some (key, t) ∧
           is_Some (tex_lookup (loaded_mats w') key t).
Proof.
  intros Hfs Hrun Hin Hsel. rewrite load_materials_data_run, Hfs in Hrun.
  assert (Hno : existsb (unsplittable fl) files = false).
  { apply (scan_files_ok_inv fl folder files w). by rewrite Hrun. }
  assert (Hg : unsplittable fl g = false).
  { destruct (unsplittable fl g) eqn:Hun; [| done].
    assert (existsb (unsplittable fl) files = true); [| congruence].
    apply existsb_exists. by exists g. }
  destruct (scan_target fl g) as [[key t]|] eqn:Ht.
  - exists key, t. split; [done |].
    rewrite (scan_files_lookup fl folder files w w' key t Hrun).
    destruct (tex_lookup (loaded_mats w) key t); [done |].
    by destruct (first_filed_In fl files g key t Hin Ht) as [g' ->].
  - unfold scan_target, unsplittable in *. rewrite Hsel in *. simpl in Hg.
    by destruct (split_names fl g) as [[? ?]|].
Qed.

(** X10. Files without one of the extensions do not count: the scan of a
    listing is the scan of its selected files, in the same order. *)
Theorem scan_ignores_unselected folder files w :
  fs w folder = Some files →
  load_materials_data fl folder w =
  for_each (List.filter selected files) (load_file fl folder) w.
Proof.
  intros Hfs. rewrite load_materials_data_run, Hfs. clear Hfs.
  revert w. induction files as [|g files IH]; intros w; [done |].
  rewrite for_each_cons. simpl.
  destruct (selected g) eqn:Hsel.
  - rewrite for_each_cons.
    destruct (load_file fl folder g w) as [[[]|e] w1]; [apply IH | done].
  - rewrite load_file_run, Hsel. apply IH.
Qed.

Lemma load_file_catalog folder file w1 w2 :
  loaded_mats w1 = loaded_mats w2 →
  fst (load_file fl folder file w1) = fst (load_file fl folder file w2) ∧
  loaded_mats (snd (load_file fl folder file w1)) =
  loaded_mats (snd (load_file fl folder file w2)).
Proof.
  intros Hm. rewrite !load_file_run. destruct (selected file); [| done].
  destruct (split_names fl file) as [[m t]|]; [| done]. simpl.
  by rewrite Hm.
Qed.

Lemma scan_files_catalog folder files w1 w2 :
  loaded_mats w1 = loaded_mats w2 →
  fst (for_each files (load_file fl folder) w1) =
  fst (for_each files (load_file fl folder) w2) ∧
  loaded_mats (snd (for_each files (load_file fl folder) w1)) =
  loaded_mats (snd (for_each files (load_file fl folder) w2)).
Proof.
  revert w1 w2. induction files as [|g files IH]; intros w1 w2 Hm; [done |].
  rewrite !for_each_cons.
  pose proof (load_file_catalog folder g w1 w2 Hm) as [Hr Hc].
  destruct (load_file fl folder g w1) as [[[]|e1] v1],
           (load_file fl folder g w2) as [[[]|e2] v2]; simpl in *;
    try done.
  by apply IH.
Qed.

(** X11. [delete_materials_data] gives the scan a fresh start: the catalog
    after a deletion followed by a scan, and what the scan returns, are those
    of the same scan right after start-up, whatever the catalog held. *)
Theorem delete_then_scan folder w :
  let fresh := init (host w) (fs w) in
  let cleared := snd (delete_materials_data w) in
  loaded_mats cleared = [] ∧
  fst (load_materials_data fl folder cleared) =
  fst (load_materials_data fl folder fresh) ∧
  loaded_mats (snd (load_materials_data fl folder cleared)) =
  loaded_mats (snd (load_materials_data fl folder fresh)).
Proof.
  simpl. split; [done |]. rewrite !load_materials_data_run. simpl.
  destruct (fs w folder) as [files|]; [| done].
  by apply scan_files_catalog.
Qed.

End ScanNames.

(** ** Command sequences of the build *)

Section BuildSequences.

Context {H : Type}.
Variable maya : Maya H.
Variable F : gset TexType.
Implicit Types (w : World H) (d L : list Event) (e : exn).

Lemma emits_then_run {A B} L1 (L2 : list Event) (m : M H A) (k : A → M H B) :
  emits F m (host_run L1) →
  (∀ a, emits F (k a) (host_run L2)) →
  emits F (m ≫= k) (host_run (L1 ++ L2)).
Proof.
  intros Hm Hk. eapply emits_bind; [exact Hm | exact Hk | |]; simpl.
  - intros a d1 r d2. apply host_run_app.
  - intros e d1. apply host_run_stop.
Qed.

Lemma emits_then_run_val {A B} L1 (L2 : list Event) (v : B) (m : M H A)
    (k : A → M H B) :
  emits F m (host_run L1) →
  (∀ a, emits F (k a) (λ r d, host_run L2 r d ∧ ∀ p, r = Ok p → p = v)) →
  emits F (m ≫= k) (λ r d, host_run (L1 ++ L2) r d ∧ ∀ p, r = Ok p → p = v).
Proof.
  intros Hm Hk. eapply emits_bind; [exact Hm | exact Hk | |]; simpl.
  - intros a d1 r d2 H1 [H2 Hv]. split; [by eapply host_run_app | done].
  - intros e d1 H1. split; [by eapply host_run_stop | done].
Qed.

(** One command: it is issued, and the host accepts it or raises. *)
Lemma emits_exec_run (c : Call) :
  emits F (cmds_exec maya c) (host_run [Cmd c]).
Proof.
  intros w Hw. unfold cmds_exec.
  destruct (maya_exec maya c (host w)) as [[|] h]; simpl;
    split_and!; try done; exists [Cmd c]; (split; [done |]);
    split_and!; try done; by intros ? [= <-].
Qed.

Lemma emits_shadingNode_run type cls name :
  emits F (cmds_shadingNode maya type cls name)
    (host_run [Cmd (shadingNode type cls name)]).
Proof.
  intros w Hw. unfold cmds_shadingNode.
  destruct (maya_shadingNode maya type cls name (host w)) as [[?|] h]; simpl;
    split_and!; try done; eexists [_]; (split; [done |]);
    split_and!; try done; by intros ? [= <-].
Qed.

Lemma emits_ls_sl_run :
  emits F (cmds_ls_sl maya) (host_run [Cmd ls_sl]).
Proof.
  intros w Hw. unfold cmds_ls_sl.
  destruct (maya_ls_sl maya (host w)) as [[?|] h]; simpl;
    split_and!; try done; eexists [_]; (split; [done |]);
    split_and!; try done; by intros ? [= <-].
Qed.

Lemma emits_ret_run {A} (a : A) : emits F (ret a : M H A) (host_run []).
Proof. apply emits_ret. by split_and!. Qed.

(** A loop of commands. *)
Lemma emits_for_each_run {A} (l : list A) (c : A → Call) :
  emits F (for_each l (λ x, cmds_exec maya (c x)))
    (host_run (map (λ x, Cmd (c x)) l)).
Proof.
  induction l as [|x l IH]; [apply emits_ret_run |].
  change (map (λ x, Cmd (c x)) (x :: l))
    with ([Cmd (c x)] ++ map (λ x, Cmd (c x)) l).
  apply emits_then_run; [apply emits_exec_run | done].
Qed.

(** [_create_texture_node], command by command. *)
Lemma create_texture_node_run (name file : string) (isRaw : bool) :
  emits F (_create_texture_node maya name file isRaw)
    (λ r d, ∃ nf nt,
       host_run (create_commands name file isRaw nf nt) r d ∧
       ∀ p, r = Ok p → p = (nf, nt)).
Proof.
  unfold _create_texture_node.
  eapply emits_bind with
    (Φ1 := host_run [Cmd (shadingNode "file" (asTexture true)
                            (name +:+ "_file"))])
    (Φ2 := λ nf r d, ∃ nt,
       host_run
         ([Cmd (shadingNode "place2dTexture" asUtility (name +:+ "_texture"))]
          ++ map (λ connection,
                    Cmd (connectAttr (nt +:+ "." +:+ connection)
                           (nf +:+ "." +:+ connection) true))
               _FILE_NODE_SIMPLE_BINDS
          ++ map (λ '(connection_a, connection_b),
                    Cmd (connectAttr (nt +:+ "." +:+ connection_a)
                           (nf +:+ "." +:+ connection_b) false))
               _FILE_NODE_UNIQUE_BINDS
          ++ [Cmd (setAttr (nf +:+ ".fileTextureName") (VString file))]
          ++ (if isRaw
              then [Cmd (setAttr (nf +:+ ".colorSpace") (VString "Raw"))]
              else [])) r d ∧
       ∀ p, r = Ok p → p = (nf, nt)).
  - apply emits_shadingNode_run.
  - intros nf. eapply emits_bind with
      (Φ1 := host_run [Cmd (shadingNode "place2dTexture" asUtility
                              (name +:+ "_texture"))])
      (Φ2 := λ nt r d,
         host_run
           (map (λ connection,
                   Cmd (connectAttr (nt +:+ "." +:+ connection)
                          (nf +:+ "." +:+ connection) true))
              _FILE_NODE_SIMPLE_BINDS
            ++ map (λ '(connection_a, connection_b),
                      Cmd (connectAttr (nt +:+ "." +:+ connection_a)
                             (nf +:+ "." +:+ connection_b) false))
                 _FILE_NODE_UNIQUE_BINDS
            ++ [Cmd (setAttr (nf +:+ ".fileTextureName") (VString file))]
            ++ (if isRaw
                then [Cmd (setAttr (nf +:+ ".colorSpace") (VString "Raw"))]
                else [])) r d ∧
         ∀ p, r = Ok p → p = (nf, nt)).
    + apply emits_shadingNode_run.
    + intros nt.
      apply (emits_then_run_val _ _ _ (for_each _FILE_NODE_SIMPLE_BINDS _)).
      { apply emits_for_each_run. }
      intros _.
      apply (emits_then_run_val _ _ _ (for_each _FILE_NODE_UNIQUE_BINDS _)).
      { eapply emits_conseq;
          [apply (emits_for_each_run _FILE_NODE_UNIQUE_BINDS
                    (λ '(connection_a, connection_b),
                       connectAttr (nt +:+ "." +:+ connection_a)
                         (nf +:+ "." +:+ connection_b) false)) |].
        done. }
      intros _.
      apply (emits_then_run_val [_] _ _ (cmds_exec maya _)).
      { apply emits_exec_run. }
      intros _.
      eapply emits_conseq.
      { apply (emits_then_run_val
                 (if isRaw
                  then [Cmd (setAttr (nf +:+ ".colorSpace") (VString "Raw"))]
                  else []) [] (nf, nt)).
        - destruct isRaw; [apply emits_exec_run | apply emits_ret_run].
        - intros _. apply emits_ret. split; [by split_and! |].
          by intros p [= <-]. }
      simpl. intros r d. by rewrite app_nil_r.
    + intros nt d1 r d2 Hd1 [Hd2 Hp]. exists nt. split; [| done].
      by apply (host_run_app [_] _ nt).
    + intros e d1 Hd1. exists "". split; [| done].
      by eapply (host_run_stop [_]).
  - intros nf d1 r d2 Hd1 (nt & Hd2 & Hp). exists nf, nt. split; [| done].
    by apply (host_run_app [_] _ nf).
  - intros e d1 Hd1. exists "", "". split; [| done].
    by eapply (host_run_stop [_]).
Qed.

(** The loop body for a texture that is wired: the commands when it returns,
    and what it can raise. *)
Lemma import_texture_wired_run (material_name material_node tex_name
    file : string) (k : TexType) :
  TexTypeM.getitem tex_name = Some k → k ∈ F →
  emits F
    (import_texture maya material_name material_node
       (tex_name, {| tex_file := file; tex_import := true |}))
    (λ r d, ∃ nf nt,
       (r = Ok () →
        ∃ bump_node,
          d = wire_commands material_name material_node file k nf nt
                bump_node) ∧
       (∀ e, r = Raise e →
          e = RuntimeError ∨
          e = IndexError ∧ k = Normal ∧
          d = create_commands (material_name +:+ "_" +:+ TexTypeM.name k)
                file (negb (bool_decide (k = BaseColor))) nf nt ++
              [connect_command k material_node nf; Cmd ls_sl])).
Proof.
  intros Hget Hk. unfold import_texture. simpl. rewrite Hget.
  apply emits_gets_filter. rewrite (bool_decide_eq_true_2 _ Hk). simpl.
  eapply emits_bind with
    (Φ2 := λ '(nf, _) r d,
       (r = Ok () →
        ∃ bump_node,
          d = [connect_command k material_node nf] ++
              fixup_commands k material_node bump_node) ∧
       (∀ e, r = Raise e →
          e = RuntimeError ∨
          e = IndexError ∧ k = Normal ∧
          d = [connect_command k material_node nf; Cmd ls_sl])).
  - apply create_texture_node_run.
  - intros [nf nt]. eapply emits_bind with
      (Φ1 := host_run [connect_command k material_node nf])
      (Φ2 := λ _ r d,
         (r = Ok () → ∃ bump_node, d = fixup_commands k material_node bump_node) ∧
         (∀ e, r = Raise e →
            e = RuntimeError ∨ e = IndexError ∧ k = Normal ∧ d = [Cmd ls_sl])).
    + apply emits_exec_run.
    + intros _. destruct k; try (apply emits_ret; split; [by exists "" | done]).
      * eapply emits_conseq; [apply emits_exec_run |]. simpl.
        intros r d (_ & Hok & Hex). split.
        -- intros ->. exists "". by apply (Hok ()).
        -- intros e He. left. by apply Hex.
      * eapply emits_bind with
          (Φ1 := host_run [Cmd ls_sl])
          (Φ2 := λ sel r d,
             match sel with
             | [] => r = Raise IndexError ∧ d = []
             | bump_node :: _ =>
                 host_run
                   [Cmd (setAttr (bump_node +:+ ".inputType") (VInt 1))] r d
             end).
        -- apply emits_ls_sl_run.
        -- intros [|bump_node sel]; [by apply emits_raise |].
           apply emits_exec_run.
        -- simpl. intros [|bump_node sel] d1 r d2 (_ & H1 & _) Hd2;
             rewrite (H1 _ eq_refl).
           ++ destruct Hd2 as [-> ->]. split; [done |].
              intros e [= <-]. right. by rewrite app_nil_r.
           ++ destruct Hd2 as (_ & Hok & Hex). split.
              ** intros ->. exists bump_node. by rewrite (Hok () eq_refl).
              ** intros e He. left. by apply Hex.
        -- simpl. intros e d1 (_ & _ & Hex). split; [done |].
           intros e' [= <-]. left. by apply Hex.
    + simpl. intros [] d1 r d2 (_ & H1 & _) [Hok Hex]. rewrite (H1 () eq_refl).
      split.
      * intros Hr. destruct (Hok Hr) as [bump_node ->]. by exists bump_node.
      * intros e He. destruct (Hex e He) as [?|(? & ? & ->)]; [by left |].
        by right.
    + simpl. intros e d1 (_ & _ & Hex). split; [done |].
      intros e' [= <-]. left. by apply Hex.
  - simpl. intros [nf' nt'] d1 r d2 (nf & nt & (_ & H1 & _) & Hp) [Hok Hex].
    specialize (Hp _ eq_refl). injection Hp as <- <-.
    rewrite (H1 _ eq_refl). exists nf', nt'. split.
    + intros Hr. destruct (Hok Hr) as [bump_node ->]. by exists bump_node.
    + intros e He. destruct (Hex e He) as [?|(? & ? & ->)]; [by left |].
      by right.
  - simpl. intros e d1 (nf & nt & (_ & _ & Hex) & _). exists nf, nt.
    split; [done |]. intros e' [= <-]. left. by apply Hex.
Qed.

(** The loop body raises the error of the host, or [IndexError] for want of a
    selected node behind the connection of a [Normal] texture. *)
Lemma import_texture_raises (material_name material_node : string)
    (item : string * TexEntry) :
  emits F (import_texture maya material_name material_node item)
    (λ r d, ∀ e, r = Raise e →
       e = RuntimeError ∨
       e = IndexError ∧ TexTypeM.getitem (fst item) = Some Normal ∧
       ∃ nf nt,
         d = create_commands (material_name +:+ "_" +:+ "Normal")
               (tex_file (snd item)) true nf nt ++
             [connect_command Normal material_node nf; Cmd ls_sl]).
Proof.
  destruct item as [tex_name [file is_import]].
  destruct is_import; [| by apply emits_ret].
  destruct (TexTypeM.getitem tex_name) as [k|] eqn:Hget.
  - destruct (decide (k ∈ F)) as [Hk|Hk].
    + eapply emits_conseq; [by apply import_texture_wired_run |]. simpl.
      intros r d (nf & nt & _ & Hex) e He.
      destruct (Hex e He) as [?|(-> & -> & ->)]; [by left |].
      right. split_and!; try done. by exists nf, nt.
    + unfold import_texture. simpl. rewrite Hget. apply emits_gets_filter.
      rewrite (bool_decide_eq_false_2 _ Hk). by apply emits_ret.
  - unfold import_texture. simpl. rewrite Hget. by apply emits_print.
Qed.

Lemma textures_loop_raises (material_name material_node : string)
    (items : list (string * TexEntry)) :
  emits F (for_each items (import_texture maya material_name material_node))
    (λ r _, ∀ e, r = Raise e → e = RuntimeError ∨ e = IndexError).
Proof.
  induction items as [|item items IH]; [by apply emits_ret |].
  eapply emits_bind with
    (Φ1 := λ r _, ∀ e, r = Raise e → e = RuntimeError ∨ e = IndexError)
    (Φ2 := λ _ r _, ∀ e, r = Raise e → e = RuntimeError ∨ e = IndexError).
  - eapply emits_conseq; [apply import_texture_raises |]. simpl.
    intros r d Hex e He. destruct (Hex e He) as [?|(? & _)]; auto.
  - intros _. apply IH.
  - done.
  - done.
Qed.

(** Entries that are passed over leave no trace. *)
Lemma passed_over_loop (material_name material_node : string)
    (items : list (string * TexEntry)) w :
  texture_type_filter w = F →
  Forall (passed_over F) items →
  for_each items (import_texture maya material_name material_node) w
  = (Ok (), w).
Proof.
  intros HF Hall. induction Hall as [|[tex_name [file is_import]] items Hi _ IH];
    [done |].
  rewrite for_each_cons.
  assert (import_texture maya material_name material_node
            (tex_name, {| tex_file := file; tex_import := is_import |}) w
          = (Ok (), w)) as ->; [| done].
  unfold import_texture. destruct Hi as [Hi|(k & Hget & Hk)]; simpl in *.
  - by rewrite Hi.
  - destruct is_import; [| done]. simpl. rewrite Hget, bind_run. simpl.
    by rewrite HF, (bool_decide_eq_false_2 _ Hk).
Qed.

End BuildSequences.

(** ** More on the build *)

Section BuildMore.

Context {H : Type}.
Variable maya : Maya H.
Implicit Types (w : World H) (d : list Event) (e : exn).

(** X12. The build reads the tool and writes to the host only: whatever they
    return, [import_loaded_material] and [import_all_loaded_materials] leave
    the catalog and the texture type filter as they were. *)
Theorem build_keeps_catalog_and_filter name w :
  let w1 := snd (import_loaded_material maya name w) in
  let w2 := snd (import_all_loaded_materials maya w) in
  (loaded_mats w1 = loaded_mats w ∧
   texture_type_filter w1 = texture_type_filter w) ∧
  (loaded_mats w2 = loaded_mats w ∧
   texture_type_filter w2 = texture_type_filter w).
Proof.
  simpl. split.
  - by destruct (import_loaded_material_events maya (texture_type_filter w)
                   name w eq_refl) as (? & ? & _).
  - unfold import_all_loaded_materials. rewrite bind_run. simpl.
    by destruct (import_items_events maya (texture_type_filter w)
                   (loaded_mats w) w eq_refl) as (? & ? & _).
Qed.

(** X13. The filter is obeyed: no command of [import_all_loaded_materials]
    connects a node to the shader input of a kind that is not in the texture
    type filter at that moment. *)
Theorem filtered_kind_never_wired (k : TexType) w :
  k ∉ texture_type_filter w →
  Forall (λ ev, wires k ev = false)
    (new_events w (snd (import_all_loaded_materials maya w))).
Proof.
  intros Hk. unfold import_all_loaded_materials. rewrite bind_run. simpl.
  destruct (import_items_events maya (texture_type_filter w) (loaded_mats w)
              w eq_refl) as (_ & _ & _ & d & Hd & _ & _ & Hall).
  rewrite (new_events_app _ _ _ Hd).
  eapply Forall_impl; [done |]. intros ev Hev.
  by eapply build_event_not_wired.
Qed.

(** X14. The entries of a material that are not tagged for import, or whose
    kind the filter leaves out, are passed over without a host command and
    without a message: a loop over such entries alone changes nothing. *)
Theorem passed_over_textures_leave_no_trace material_name material_node
    (items : list (string * TexEntry)) w :
  Forall (passed_over (texture_type_filter w)) items →
  for_each items (import_texture maya material_name material_node) w
  = (Ok (), w).
Proof. intros Hall. by apply (passed_over_loop maya (texture_type_filter w)). Qed.

(** When every command of a list is accepted, so is the first. *)
Lemma clean_head (c : Call) (d : list Event) (h : H) :
  Forall (λ b, b = false) (refusals maya (Cmd c :: d) h) →
  fst (serve maya c h) = true ∧
  Forall (λ b, b = false) (refusals maya d (host_after maya [Cmd c] h)).
Proof.
  intros [Hc Hd]%Forall_cons_1. split; [| done].
  by apply negb_false_iff in Hc.
Qed.

(** X15. [_create_texture_node] issues its commands in one fixed order, the
    two node requests, the sixteen forced connections, the two plain ones,
    the file name and, for a raw texture, the color space, the nodes in
    them being the ones the host names in answer to the two requests. It
    goes on as long as the host accepts: a command that the host refuses is
    the last one issued, and the function raises the error of the host then,
    and only then. When it returns it has issued all the commands, the host
    has accepted them all and the pair returned holds the two names the host
    gave. *)
Theorem create_texture_node_commands name file isRaw w :
  let r := fst (_create_texture_node maya name file isRaw w) in
  let w' := snd (_create_texture_node maya name file isRaw w) in
  let d := new_events w w' in
  let first := Cmd (shadingNode "file" (asTexture true) (name +:+ "_file")) in
  let nf :=
    node_named maya "file" (asTexture true) (name +:+ "_file") (host w) in
  let nt :=
    node_named maya "place2dTexture" asUtility (name +:+ "_texture")
      (host_after maya [first] (host w)) in
  d `prefix_of` create_commands name file isRaw nf nt ∧
  (∀ p, r = Ok p →
     p = (nf, nt) ∧ d = create_commands name file isRaw nf nt ∧
     fst (maya_shadingNode maya "file" (asTexture true) (name +:+ "_file")
            (host w)) = Some nf ∧
     fst (maya_shadingNode maya "place2dTexture" asUtility
            (name +:+ "_texture") (host_after maya [first] (host w)))
       = Some nt) ∧
  (∀ e, r = Raise e → e = RuntimeError) ∧
  (∀ i, refusals maya d (host w) !! i = Some true →
        S i = length d ∧ r = Raise RuntimeError) ∧
  (r = Raise RuntimeError → last (refusals maya d (host w)) = Some true).
Proof.
  intros r w' d first nf nt. subst r w' d.
  destruct (serves_create maya (texture_type_filter w) (loaded_mats w) name
              file isRaw w eq_refl eq_refl)
    as (_ & _ & _ & d & Hd & _ & Hob & (Hp & Hok & Hex) & Hv).
  rewrite (new_events_app _ _ _ Hd).
  destruct (obeys_refused maya _ _ _ Hob) as [Hi Hl].
  split_and!; try done.
  intros p Hr. rewrite Hr in *.
  assert (Hclean : Forall (λ b, b = false) (refusals maya d (host w)))
    by by eapply obeys_clean.
  rewrite (Hok p eq_refl) in Hclean |- *.
  destruct (create_commands_head name file isRaw nf nt) as [t Ht].
  change (Forall (λ b, b = false)
            (refusals maya (create_commands name file isRaw nf nt) (host w)))
    in Hclean.
  rewrite Ht in Hclean.
  apply clean_head in Hclean as [H1 Hclean].
  apply clean_head in Hclean as [H2 _].
  split_and!; [by apply Hv | done | by apply node_accepted |
               by apply node_accepted].
Qed.

(** X16. When the loop body returns for an entry that is tagged for import
    and named after a kind of the filter, it has issued the commands of
    [_create_texture_node] for the node [material_kind], then the connection
    of the file node to the shader input of the kind, then for [Normal] the
    query of the selection and the input type 1 on its first node, for
    [Metallic] the fresnel mode 2 on the shader node, and nothing else. The
    host has accepted all of them; the file node and the placement node are
    the ones it named in answer to the two requests, and the node that gets
    the input type is the first of the selection it reported when it was
    asked, right after the connection. *)
Theorem wired_texture_commands material_name material_node tex_name file
    (k : TexType) w w' :
  TexTypeM.getitem tex_name = Some k →
  k ∈ texture_type_filter w →
  import_texture maya material_name material_node
    (tex_name, {| tex_file := file; tex_import := true |}) w = (Ok (), w') →
  let name := material_name +:+ "_" +:+ TexTypeM.name k in
  let first := Cmd (shadingNode "file" (asTexture true) (name +:+ "_file")) in
  let nf :=
    node_named maya "file" (asTexture true) (name +:+ "_file") (host w) in
  let nt :=
    node_named maya "place2dTexture" asUtility (name +:+ "_texture")
      (host_after maya [first] (host w)) in
  let hs :=
    host_after maya
      (create_commands name file (negb (bool_decide (k = BaseColor))) nf nt
       ++ [connect_command k material_node nf]) (host w) in
  let bump_node := first_selected maya hs in
  new_events w w' =
    wire_commands material_name material_node file k nf nt bump_node ∧
  fst (maya_shadingNode maya "file" (asTexture true) (name +:+ "_file")
         (host w)) = Some nf ∧
  fst (maya_shadingNode maya "place2dTexture" asUtility (name +:+ "_texture")
         (host_after maya [first] (host w))) = Some nt ∧
  (k = Normal → ∃ sel, fst (maya_ls_sl maya hs) = Some (bump_node :: sel)) ∧
  Forall (λ b, b = false) (refusals maya (new_events w w') (host w)).
Proof.
  intros Hget Hk Hrun name first nf nt hs bump_node.
  destruct (serves_import_texture maya (texture_type_filter w) (loaded_mats w)
              material_name material_node
              (tex_name, {| tex_file := file; tex_import := true |})
              w eq_refl eq_refl)
    as (_ & _ & _ & d & Hd & _ & Hob & Hspec).
  rewrite Hrun in *. cbn [fst snd] in *.
  rewrite (new_events_app _ _ _ Hd).
  unfold imports_texture in Hspec.
  cbn [fst snd tex_import tex_file negb] in Hspec.
  rewrite Hget, (bool_decide_eq_true_2 _ Hk) in Hspec.
  destruct Hspec as (_ & Hok & _). destruct (Hok eq_refl) as [-> Hsel].
  assert (Hclean : Forall (λ b, b = false)
                     (refusals maya
                        (wire_commands_of maya material_name material_node
                           file k (host w)) (host w)))
    by by eapply obeys_clean.
  split_and!; [done | | | exact Hsel | exact Hclean].
  - unfold wire_commands_of, wire_commands in Hclean.
    destruct (create_commands_head name file
                (negb (bool_decide (k = BaseColor))) nf nt) as [t Ht].
    change (Forall (λ b, b = false)
              (refusals maya
                 (create_commands name file
                    (negb (bool_decide (k = BaseColor))) nf nt ++
                  connect_command k material_node nf ::
                  fixup_commands k material_node bump_node) (host w)))
      in Hclean.
    rewrite Ht in Hclean.
    apply clean_head in Hclean as [H1 _]. by apply node_accepted.
  - unfold wire_commands_of, wire_commands in Hclean.
    destruct (create_commands_head name file
                (negb (bool_decide (k = BaseColor))) nf nt) as [t Ht].
    change (Forall (λ b, b = false)
              (refusals maya
                 (create_commands name file
                    (negb (bool_decide (k = BaseColor))) nf nt ++
                  connect_command k material_node nf ::
                  fixup_commands k material_node bump_node) (host w)))
      in Hclean.
    rewrite Ht in Hclean.
    apply clean_head in Hclean as [_ Hclean].
    apply clean_head in Hclean as [H2 _]. by apply node_accepted.
Qed.


(** X18. For a material of the catalog [import_loaded_material] does not raise
    [KeyError]: a texture name that is no kind is reported, not raised, and
    what the build can raise is the error of the host or [IndexError]. *)
Theorem known_material_raises_host_or_index name entry w e :
  Dict.get (loaded_mats w) name = Some entry →
  fst (import_loaded_material maya name w) = Raise e →
  e = RuntimeError ∨ e = IndexError.
Proof.
  intros Hget. unfold import_loaded_material.
  rewrite bind_run. unfold cmds_shadingNode.
  destruct (maya_shadingNode maya "RedshiftMaterial" asShader name (host w))
    as [[node|] h1]; [| intros [= <-]; by left].
  rewrite bind_run. unfold cmds_exec at 1. simpl host.
  destruct (maya_exec maya (sets ("rsMaterial_" +:+ node)) h1)
    as [[|] h2]; [| intros [= <-]; by left].
  rewrite bind_run. unfold cmds_exec. simpl host.
  destruct (maya_exec maya
              (connectAttr (node +:+ ".outColor")
                 ("rsMaterial_" +:+ node +:+ ".surfaceShader") false) h2)
    as [[|] h3]; [| intros [= <-]; by left].
  rewrite bind_run. simpl. rewrite Hget.
  match goal with
  | |- fst (for_each _ _ ?w3) = _ → _ =>
      destruct (textures_loop_raises maya (texture_type_filter w3) name node
                  (mat_textures entry) w3 eq_refl)
        as (_ & _ & _ & d & _ & Hex)
  end.
  apply Hex.
Qed.

(** X19. When no material is tagged for import,
    [import_all_loaded_materials] returns at once: no command, no message, no
    change. *)
Theorem nothing_tagged_nothing_built w :
  Forall (λ item, mat_import (snd item) = false) (loaded_mats w) →
  import_all_loaded_materials maya w = (Ok (), w).
Proof.
  intros Hall. unfold import_all_loaded_materials. rewrite bind_run. simpl.
  rewrite import_items_included.
  assert (included (loaded_mats w) = []) as ->; [| done].
  unfold included. induction Hall as [|[name entry] items Hi _ IH]; [done |].
  simpl in *. by rewrite Hi.
Qed.

Lemma untagged_not_requested name entry w :
  NoDup (Dict.keys (loaded_mats w)) →
  Dict.get (loaded_mats w) name = Some entry →
  mat_import entry = false →
  ¬ In name
      (shader_requests
         (new_events w (snd (import_all_loaded_materials maya w)))).
Proof.
  intros Hnd Hget Hflag. unfold import_all_loaded_materials.
  rewrite bind_run. simpl.
  destruct (import_items_events maya (texture_type_filter w) (loaded_mats w)
              w eq_refl) as (_ & _ & _ & d & Hlog & Hpre & _ & _).
  rewrite (new_events_app _ _ _ Hlog). intros Hin.
  assert (Hinc : In name (included (loaded_mats w))).
  { destruct Hpre as [k ->]. apply in_app_iff. by left. }
  apply included_In in Hinc as (entry' & Hin' & Hflag').
  apply (get_NoDup_In _ _ _ Hnd) in Hin'. congruence.
Qed.

(** X20. Switching the tag of a material off takes it out of the import and
    touches nothing else: the order of the catalog, the textures of the
    material and the entries of the other materials stay, and the next
    [import_all_loaded_materials] asks for no shader node of that name. *)
Theorem untagged_material_not_built name w :
  NoDup (Dict.keys (loaded_mats w)) →
  let w1 := snd (on_material_toggle_switched name false w) in
  Dict.keys (loaded_mats w1) = Dict.keys (loaded_mats w) ∧
  (∀ key t, tex_lookup (loaded_mats w1) key t
            = tex_lookup (loaded_mats w) key t) ∧
  (∀ key, key ≠ name →
     Dict.get (loaded_mats w1) key = Dict.get (loaded_mats w) key) ∧
  ¬ In name
      (shader_requests
         (new_events w1 (snd (import_all_loaded_materials maya w1)))).
Proof.
  intros Hnd. simpl. unfold on_material_toggle_switched, modify.
  cbn [snd].
  destruct (Dict.get (loaded_mats w) name) as [data|] eqn:Hget.
  - unfold with_mats at 1 2 3. cbn [loaded_mats].
    assert (Hkeys : Dict.keys
              (Dict.set (loaded_mats w) name
                 {| mat_textures := mat_textures data; mat_import := false |})
            = Dict.keys (loaded_mats w))
      by (by rewrite keys_set_present).
    split_and!.
    + done.
    + intros key t. unfold tex_lookup. rewrite get_set.
      destruct (String.eqb_spec name key) as [<-|]; [| done].
      by rewrite Hget.
    + intros key Hne. rewrite get_set.
      destruct (String.eqb_spec name key); [congruence | done].
    + eapply untagged_not_requested.
      * simpl. by rewrite Hkeys.
      * simpl. by rewrite get_set, String.eqb_refl.
      * done.
  - split_and!; try done. unfold import_all_loaded_materials.
    rewrite bind_run. simpl.
    destruct (import_items_events maya (texture_type_filter w) (loaded_mats w)
                w eq_refl) as (_ & _ & _ & d & Hlog & Hpre & _ & _).
    rewrite (new_events_app _ _ _ Hlog). intros Hin.
    assert (Hinc : In name (included (loaded_mats w))).
    { destruct Hpre as [k ->]. apply in_app_iff. by left. }
    apply included_In in Hinc as (entry' & Hin' & _).
    apply (get_NoDup_In _ _ _ Hnd) in Hin'. congruence.
Qed.

End BuildMore.

(** ** More on the check boxes *)

Section ToggleMore.

Context {H : Type}.
Implicit Types (w : World H).

(** X21. The check box of a kind takes the kind out of the filter and puts it
    back: switched off for a kind of the filter and on again, it leaves the
    tool as it was. Switched off for a kind that is not in the filter, it
    raises [KeyError] and changes nothing. *)
Theorem toggle_off_and_on (category : TexType) w :
  (category ∈ texture_type_filter w →
   fst (toggle category false w) = Ok () ∧
   (category ∉ texture_type_filter (snd (toggle category false w))) ∧
   toggle category true (snd (toggle category false w)) = (Ok (), w)) ∧
  (category ∉ texture_type_filter w →
   toggle category false w = (Raise KeyError, w)).
Proof.
  unfold toggle. rewrite !bind_run. simpl. split.
  - intros Hin. rewrite (bool_decide_eq_true_2 _ Hin). simpl. split_and!.
    + done.
    + intros [_ Hne]%elem_of_difference. apply Hne. by apply elem_of_singleton.
    + destruct w as [mats filter h files l].
      unfold modify, with_filter. simpl in *.
      do 2 f_equal. apply set_eq. intros x.
      rewrite elem_of_union, elem_of_difference, elem_of_singleton.
      destruct (decide (x = category)) as [->|]; tauto.
  - intros Hout. by rewrite (bool_decide_eq_false_2 _ Hout).
Qed.

(** X22. The check box of a texture sets the tag of that one texture: its
    path stays, every other texture entry, the tags of the materials and the
    order of the catalog stay. *)
Theorem texture_toggle_sets_one_tag material tex_name (state : bool) w e :
  tex_lookup (loaded_mats w) material tex_name = Some e →
  let w1 := snd (on_texture_selected material tex_name state w) in
  tex_lookup (loaded_mats w1) material tex_name
    = Some {| tex_file := tex_file e; tex_import := state |} ∧
  (∀ m t, (m, t) ≠ (material, tex_name) →
     tex_lookup (loaded_mats w1) m t = tex_lookup (loaded_mats w) m t) ∧
  Dict.keys (loaded_mats w1) = Dict.keys (loaded_mats w) ∧
  (∀ m, mat_import <$> Dict.get (loaded_mats w1) m
        = mat_import <$> Dict.get (loaded_mats w) m).
Proof.
  unfold tex_lookup at 1. intros He. simpl.
  unfold on_texture_selected, modify. cbn [snd].
  destruct (Dict.get (loaded_mats w) material) as [data|] eqn:Hget; [| done].
  rewrite He. unfold with_mats. cbn [loaded_mats]. split_and!.
  - unfold tex_lookup. rewrite get_set, String.eqb_refl. simpl.
    by rewrite get_set, String.eqb_refl.
  - intros m t Hne. unfold tex_lookup. rewrite get_set.
    destruct (String.eqb_spec material m) as [<-|]; [| done].
    rewrite Hget. simpl. rewrite get_set.
    destruct (String.eqb_spec tex_name t) as [<-|]; [congruence | done].
  - by rewrite keys_set_present.
  - intros m. rewrite get_set.
    destruct (String.eqb_spec material m) as [<-|]; [| done].
    by rewrite Hget.
Qed.

End ToggleMore.

(** ** More worked sessions *)

Section MoreSessions.

Import OsPath FakeMaya.

Lemma scan_entries_come_from_files_witness :
  let w := start [] ["Mesh_rock_mat_BaseColor.png"] in
  let e := {| tex_file := "/tex/Mesh_rock_mat_BaseColor.png";
              tex_import := true |} in
  tex_lookup (loaded_mats w) "Rock" "BaseColor" = Some e ∨
  ∃ files g, fs w "/tex" = Some files ∧ In g files ∧
    scan_target posixpath g = Some ("Rock", "BaseColor") ∧
    e = {| tex_file := file_path posixpath "/tex" g; tex_import := true |}.
Proof.
  intros w e.
  exact (scan_entries_come_from_files posixpath "/tex" w "Rock" "BaseColor" e
           eq_refl).
Defined.

Lemma scan_new_material_tagged_witness :
  let entry :=
    {| mat_textures :=
         [("BaseColor", {| tex_file := "/tex/Mesh_rock_mat_BaseColor.png";
                           tex_import := true |})];
       mat_import := true |} in
  Dict.get
    (loaded_mats
       (snd (load_materials_data posixpath "/tex"
               (start [] ["Mesh_rock_mat_BaseColor.png"])))) "Rock"
  = Some entry ∧ mat_import entry = true.
Proof.
  intros entry. split; [reflexivity |].
  exact (scan_new_material_tagged posixpath "/tex"
           (start [] ["Mesh_rock_mat_BaseColor.png"]) "Rock" entry
           eq_refl eq_refl).
Defined.

Lemma scan_keys_capitalized_witness :
  Forall (λ key, PyStr.is_ascii key = true ∧
                 PyStr.capitalize (unicode_capitalize posixpath) key = key)
    (Dict.keys
       (loaded_mats
          (snd (load_materials_data posixpath "/tex"
                  (start [] ["Mesh_rOCK_mat_A.png"; "Mesh_wall_mat_B.jpg"]))))).
Proof.
  apply (scan_keys_capitalized posixpath "/tex"
           (start [] ["Mesh_rOCK_mat_A.png"; "Mesh_wall_mat_B.jpg"])).
  - intros files file m t [= <-] [<- | [<- | []]] _ [= <- _]; reflexivity.
  - constructor.
Defined.

Lemma scan_merges_letter_case_witness :
  ∃ key,
    scan_target posixpath "Mesh_rock_mat_BaseColor.png"
      = Some (key, "BaseColor") ∧
    scan_target posixpath "Mesh_ROCK_mat_Normal.jpg" = Some (key, "Normal").
Proof.
  refine (scan_merges_letter_case posixpath "rock" "BaseColor" ".png"
            "ROCK" "Normal" ".jpg" eq_refl _ _ eq_refl eq_refl eq_refl eq_refl
            eq_refl eq_refl eq_refl eq_refl).
  - by left.
  - right. right. right. by left.
Defined.

Lemma split_names_round_trip_witness :
  stripped posixpath "Mesh_old_rock_mat_BaseColor.png"
    = "old_rock" +:+ "_" +:+ "BaseColor" ∧
  PyStr.mem "_" "BaseColor" = false.
Proof.
  exact (split_names_round_trip posixpath "Mesh_old_rock_mat_BaseColor.png"
           "old_rock" "BaseColor" eq_refl).
Defined.

Lemma texture_name_starting_with_mat_raises_witness :
  let w := start [] ["Mesh_Rock_mat_matte.png"] in
  stripped posixpath "Mesh_Rock_mat_matte.png" = "Rock" +:+ "te" ∧
  load_file posixpath "/tex" "Mesh_Rock_mat_matte.png" w
    = (Raise ValueError, w).
Proof.
  intros w.
  refine (texture_name_starting_with_mat_raises posixpath "/tex" "Rock" "te"
            ".png" w _ eq_refl eq_refl eq_refl).
  by left.
Defined.

Lemma scan_files_every_selected_file_witness :
  let files := ["readme.txt"; "Mesh_rock_mat_Foo.png"] in
  let w' := snd (load_materials_data posixpath "/tex" (start [] files)) in
  ∃ key t, scan_target posixpath "Mesh_rock_mat_Foo.png" = Some (key, t) ∧
           is_Some (tex_lookup (loaded_mats w') key t).
Proof.
  intros files w'.
  refine (scan_files_every_selected_file posixpath "/tex" files
            (start [] files) w' "Mesh_rock_mat_Foo.png" eq_refl _ _ eq_refl).
  - by vm_compute.
  - right. by left.
Defined.

Lemma scan_ignores_unselected_witness :
  let files := ["readme.txt"; "Mesh_rock_mat_Foo.png"; "x.PNG"] in
  load_materials_data posixpath "/tex" (start [] files) =
  for_each ["Mesh_rock_mat_Foo.png"] (load_file posixpath "/tex")
    (start [] files).
Proof.
  intros files.
  exact (scan_ignores_unselected posixpath "/tex" files (start [] files)
           eq_refl).
Defined.

Lemma filtered_kind_never_wired_witness :
  let w :=
    snd (toggle Roughness false
           (session [] []
              [("Rock",
                {| mat_textures :=
                     [("Roughness", {| tex_file := "/tex/r.png";
                                       tex_import := true |})];
                   mat_import := true |})])) in
  Forall (λ ev, wires Roughness ev = false)
    (new_events w (snd (import_all_loaded_materials maya w))).
Proof.
  intros w. apply (filtered_kind_never_wired maya Roughness w).
  apply (bool_decide_unpack _). by vm_compute.
Defined.

Lemma passed_over_textures_leave_no_trace_witness :
  let w := session [] [] [] in
  for_each
    [("BaseColor", {| tex_file := "/tex/b.png"; tex_import := false |});
     ("Emissive", {| tex_file := "/tex/e.png"; tex_import := true |})]
    (import_texture maya "Rock" "Rock") w = (Ok (), w).
Proof.
  intros w. apply (passed_over_textures_leave_no_trace maya "Rock" "Rock").
  constructor; [by left |]. constructor; [| constructor].
  right. exists Emissive. split; [reflexivity |].
  apply (bool_decide_unpack _). by vm_compute.
Defined.

Lemma wired_texture_commands_witness :
  let w := session [] [] [] in
  let w' :=
    snd (import_texture maya "Rock" "Rock1"
           ("Normal", {| tex_file := "/tex/n.png"; tex_import := true |}) w) in
  new_events w w' =
    wire_commands "Rock" "Rock1" "/tex/n.png" Normal "Rock_Normal_file"
      "Rock_Normal_texture" "bump1" ∧
  Forall (λ b, b = false) (refusals maya (new_events w w') (host w)).
Proof.
  intros w w'.
  destruct (wired_texture_commands maya "Rock" "Rock1" "Normal" "/tex/n.png"
              Normal w w' eq_refl) as (Hev & _ & _ & _ & Hclean).
  - apply (bool_decide_unpack _). by vm_compute.
  - by vm_compute.
  - split; [exact Hev | exact Hclean].
Defined.


Lemma known_material_raises_host_or_index_witness :
  let w :=
    session [] []
      [("Rock",
        {| mat_textures :=
             [("Normal", {| tex_file := "/tex/n.png"; tex_import := true |})];
           mat_import := true |})] in
  fst (import_loaded_material maya_without_selection "Rock" w)
    = Raise IndexError ∧
  (IndexError = RuntimeError ∨ IndexError = IndexError).
Proof.
  intros w.
  assert (Hrun : fst (import_loaded_material maya_without_selection "Rock" w)
                 = Raise IndexError) by (by vm_compute).
  split; [exact Hrun |].
  exact (known_material_raises_host_or_index maya_without_selection "Rock"
           {| mat_textures :=
                [("Normal", {| tex_file := "/tex/n.png"; tex_import := true |})];
              mat_import := true |} w IndexError eq_refl Hrun).
Defined.

Lemma nothing_tagged_nothing_built_witness :
  let w :=
    session [false] []
      [("A", {| mat_textures := []; mat_import := false |});
       ("B", {| mat_textures := []; mat_import := false |})] in
  import_all_loaded_materials maya w = (Ok (), w).
Proof.
  intros w. apply (nothing_tagged_nothing_built maya w).
  repeat constructor.
Defined.

Lemma untagged_material_not_built_witness :
  let w :=
    session [] []
      [("A", {| mat_textures := []; mat_import := true |});
       ("B", {| mat_textures := []; mat_import := true |})] in
  let w1 := snd (on_material_toggle_switched "B" false w) in
  ¬ In "B"
      (shader_requests
         (new_events w1 (snd (import_all_loaded_materials maya w1)))).
Proof.
  intros w w1.
  refine (proj2 (proj2 (proj2 (untagged_material_not_built maya "B" w _)))).
  apply (bool_decide_unpack _). by vm_compute.
Defined.

Lemma toggle_off_and_on_witness :
  let w := session [] [] [] : World (list bool) in
  toggle Normal true (snd (toggle Normal false w)) = (Ok (), w).
Proof.
  intros w.
  refine (proj2 (proj2 (proj1 (toggle_off_and_on Normal w) _))).
  apply (bool_decide_unpack _). by vm_compute.
Defined.

Lemma texture_toggle_sets_one_tag_witness :
  let old := {| tex_file := "/tex/b.png"; tex_import := true |} in
  let w :=
    session [] []
      [("Rock", {| mat_textures := [("BaseColor", old)];
                   mat_import := true |})] in
  tex_lookup
    (loaded_mats (snd (on_texture_selected "Rock" "BaseColor" false w)))
    "Rock" "BaseColor"
  = Some {| tex_file := "/tex/b.png"; tex_import := false |}.
Proof.
  intros old w.
  exact (proj1 (texture_toggle_sets_one_tag "Rock" "BaseColor" false w old
                  eq_refl)).
Defined.

End MoreSessions.

(** * The control window *)

Section WindowFacts.

Context {H U : Type}.
Variable maya : Maya H.
Variable fl : PathFlavour.
Variable gui : MayaUI U.

Implicit Types win : Window H U.

Lemma gbind_eq {A B} (m : G H U A) (k : A -> G H U B) win :
  (m ≫= k) win =
  match m win with
  | (Ok a, win') => k a win'
  | (Raise e, win') => (Raise e, win')
  end.
Proof. reflexivity. Qed.

(** ** Code that leaves the tool alone *)

Lemma keeps_tool_bind {A B} (m : G H U A) (k : A -> G H U B) :
  keeps_tool m -> (forall a, keeps_tool (k a)) -> keeps_tool (m ≫= k).
Proof.
  intros Hm Hk win. rewrite gbind_eq. specialize (Hm win).
  destruct (m win) as [[a|e] win']; simpl in *; [rewrite Hk|]; done.
Qed.

Lemma keeps_tool_ret {A} (a : A) : keeps_tool (gret (H:=H) (U:=U) a).
Proof. by intros win. Qed.

Lemma keeps_tool_field {A} (f : Window H U -> A) : keeps_tool (field f).
Proof. by intros win. Qed.

Lemma keeps_tool_assign (f : Window H U -> Window H U) :
  (forall win, tool (f win) = tool win) -> keeps_tool (assign f).
Proof. intros Hf win. apply Hf. Qed.

Lemma keeps_tool_name c : keeps_tool (cmds_name (H:=H) gui c).
Proof.
  intros win. unfold cmds_name.
  by destruct (ui_name gui c (ui win)) as [[s|] u].
Qed.

Lemma keeps_tool_ui c : keeps_tool (cmds_ui (H:=H) gui c).
Proof.
  intros win. unfold cmds_ui.
  by destruct (ui_exec gui c (ui win)) as [[] u].
Qed.

Lemma keeps_tool_exists name : keeps_tool (cmds_window_exists (H:=H) gui name).
Proof.
  intros win. unfold cmds_window_exists.
  by destruct (ui_exists gui name (ui win)) as [[b|] u].
Qed.

Lemma keeps_tool_dialog : keeps_tool (cmds_fileDialog2 (H:=H) gui).
Proof.
  intros win. unfold cmds_fileDialog2.
  by destruct (ui_folder gui (ui win)) as [[l|] u].
Qed.

Lemma keeps_tool_for_each {A} (l : list A) (body : A -> G H U unit) :
  (forall x, keeps_tool (body x)) -> keeps_tool (for_each_g l body).
Proof.
  intros Hb. induction l as [|x l IH]; [apply keeps_tool_ret|].
  simpl. apply keeps_tool_bind; auto.
Qed.

Lemma keeps_tool_collect {A B} (l : list A) (body : A -> G H U B) :
  (forall x, keeps_tool (body x)) -> keeps_tool (collect l body).
Proof.
  intros Hb. induction l as [|x l IH]; [apply keeps_tool_ret|].
  simpl. apply keeps_tool_bind; [done|]. intros y.
  apply keeps_tool_bind; [done|]. intros ys. apply keeps_tool_ret.
Qed.

Lemma keeps_tool_element_of elements v :
  keeps_tool (element_of (H:=H) (U:=U) elements v).
Proof.
  intros win. unfold element_of.
  by destruct (List.find _ elements).
Qed.

Create HintDb window.

#[local] Hint Resolve keeps_tool_ret keeps_tool_field keeps_tool_name
  keeps_tool_ui keeps_tool_exists keeps_tool_dialog keeps_tool_element_of
  : window.

Ltac keeps_tool_step :=
  first
    [ apply keeps_tool_bind; [|intros ?]
    | apply keeps_tool_assign; by intros ?
    | solve [auto with window] ].

Lemma keeps_tool_destroy_textures :
  keeps_tool (_destroy_textures_shelf_layout (H:=H) gui).
Proof.
  unfold _destroy_textures_shelf_layout.
  keeps_tool_step; [keeps_tool_step|].
  destruct (truthy a); repeat keeps_tool_step.
Qed.

Lemma keeps_tool_destroy_materials :
  keeps_tool (_destroy_materials_shelf_layout (H:=H) gui).
Proof.
  unfold _destroy_materials_shelf_layout.
  keeps_tool_step; [keeps_tool_step|].
  destruct (truthy a); [|keeps_tool_step].
  keeps_tool_step; [apply keeps_tool_destroy_textures|].
  repeat keeps_tool_step.
Qed.

Lemma keeps_tool_draw_textures material :
  keeps_tool (_draw_texture_shelf_layout (H:=H) gui material).
Proof.
  unfold _draw_texture_shelf_layout.
  keeps_tool_step; [apply keeps_tool_destroy_textures|].
  do 5 (keeps_tool_step; [repeat keeps_tool_step|]).
  keeps_tool_step; [|keeps_tool_step].
  apply keeps_tool_for_each. intros [name data]. unfold draw_texture.
  repeat keeps_tool_step.
Qed.

Lemma keeps_tool_button_pressed elements material button :
  keeps_tool (on_material_button_pressed (H:=H) gui elements material button).
Proof.
  unfold on_material_button_pressed.
  keeps_tool_step; [keeps_tool_step|].
  keeps_tool_step.
  { apply keeps_tool_for_each. intros b. keeps_tool_step. }
  keeps_tool_step; [apply keeps_tool_draw_textures|keeps_tool_step].
Qed.

Lemma keeps_tool_draw_materials :
  keeps_tool (_draw_materials_shelf_layout (H:=H) gui).
Proof.
  unfold _draw_materials_shelf_layout.
  do 2 (keeps_tool_step; [repeat keeps_tool_step|]).
  keeps_tool_step; [apply keeps_tool_destroy_materials|].
  do 5 (keeps_tool_step; [repeat keeps_tool_step|]).
  keeps_tool_step; [|keeps_tool_step].
  apply keeps_tool_for_each. intros [name data]. unfold draw_material.
  repeat keeps_tool_step.
Qed.

Lemma keeps_tool_options_box :
  keeps_tool (_draw_texture_import_options_box (H:=H) gui).
Proof.
  unfold _draw_texture_import_options_box.
  do 2 (keeps_tool_step; [repeat keeps_tool_step|]).
  keeps_tool_step.
  { apply keeps_tool_collect. intros [w v]. unfold draw_kind.
    repeat keeps_tool_step. }
  repeat keeps_tool_step.
Qed.

Lemma keeps_tool_open_window : keeps_tool (open_window (H:=H) gui).
Proof.
  unfold open_window, _assemble_window.
  keeps_tool_step; [keeps_tool_step|].
  keeps_tool_step; [destruct a; keeps_tool_step|].
  keeps_tool_step; [|keeps_tool_step].
  do 3 (keeps_tool_step; [repeat keeps_tool_step|]).
  keeps_tool_step; [apply keeps_tool_options_box|].
  repeat keeps_tool_step.
Qed.

(** ** The window drives the tool *)

Lemma tool_lift {A} (m : M H A) win :
  tool (snd (lift (U:=U) m win)) = snd (m (tool win)).
Proof. unfold lift. by destruct (m (tool win)). Qed.

Lemma tool_then_keeps {A B} (m : G H U A) (k : A -> G H U B) win :
  (forall a, keeps_tool (k a)) ->
  tool (snd ((m ≫= k) win)) = tool (snd (m win)).
Proof.
  intros Hk. rewrite gbind_eq.
  destruct (m win) as [[a|e] win']; [apply Hk|done].
Qed.

Lemma tool_open_folder win :
  tool (snd (_open_folder fl gui win)) =
  snd (handle maya fl (event_of gui UI.open_folder true win) (tool win)).
Proof.
  assert (Hdraw : forall a : unit,
    keeps_tool (_draw_materials_shelf_layout (H:=H) gui ≫= fun _ => gret tt)).
  { intros _. apply keeps_tool_bind; [apply keeps_tool_draw_materials|].
    intros ?. apply keeps_tool_ret. }
  unfold _open_folder. rewrite gbind_eq. unfold cmds_fileDialog2, event_of.
  destruct (ui_folder gui (ui win)) as [[[|first rest]|] u]; [| |done].
  - by rewrite tool_then_keeps.
  - rewrite tool_then_keeps by done.
    rewrite gbind_eq. unfold assign. cbn beta iota.
    rewrite gbind_eq. unfold field. cbn beta iota.
    by rewrite tool_lift.
Qed.

Lemma tool_import_selected win :
  tool (snd (_import_selected maya gui win)) =
  snd (handle maya fl (event_of gui UI.import_selected true win) (tool win)).
Proof.
  unfold _import_selected, handle, event_of.
  rewrite gbind_eq. unfold field. cbn [fst snd].
  change ((gets loaded_mats ≫= _) (tool win)) with
    (match loaded_mats (tool win) with
     | [] => ret tt
     | _ :: _ =>
         if match ui_name gui UI.confirmDialog (ui win) with
            | (Some answer, _) => String.eqb answer "Yes"
            | _ => false
            end
         then import_all_loaded_materials maya
         else ret tt
     end (tool win)).
  destruct (loaded_mats (tool win)) as [|item mats] eqn:Hm; [done|].
  rewrite gbind_eq. unfold cmds_name.
  destruct (ui_name gui UI.confirmDialog (ui win)) as [[answer|] u]; [|done].
  destruct (String.eqb answer "Yes"); [|done].
  by rewrite tool_lift.
Qed.

Lemma tool_callback c state win :
  tool (snd (callback maya fl gui c state win)) =
  snd (handle maya fl (event_of gui c state win) (tool win)).
Proof.
  destruct c as [| |category|material|elements material button
                |material tex_name].
  - apply tool_open_folder.
  - apply tool_import_selected.
  - cbn [callback event_of handle].
    destruct (kind_checkbox_enabled category); [|done].
    apply tool_lift.
  - apply (tool_lift (on_material_toggle_switched material state)).
  - apply keeps_tool_button_pressed.
  - apply (tool_lift (on_texture_selected material tex_name state)).
Qed.

Lemma tool_react u win :
  tool (react maya fl gui win u) =
  snd (handle maya fl (use_event gui u win) (tool win)).
Proof. destruct u; apply tool_callback. Qed.

Lemma tool_uses uses : forall win,
  tool (fold_left (react maya fl gui) uses win) =
  run maya fl (events_of maya fl gui uses win) (tool win).
Proof.
  induction uses as [|u uses IH]; intros win; [done|].
  simpl. rewrite IH. unfold run at 2. simpl. by rewrite tool_react.
Qed.

(** X23. The window drives the tool as the user actions say: after the
    window was opened on a new tool and used in any way, the tool is the one
    that the corresponding sequence of user actions leaves, from the tool as
    it was made. In particular drawing, opening the window and pressing the
    button of a material never change the tool. *)
Theorem window_runs_the_tool (h : H) files (u : U) uses :
  tool (script maya fl gui h files u uses) =
  run maya fl
    (events_of maya fl gui uses
       (snd (open_window gui (new_window (init h files) u))))
    (init h files).
Proof.
  unfold script. rewrite tool_uses. f_equal.
  apply keeps_tool_open_window.
Qed.

(** ** Shelves *)

Lemma truthy_false s : truthy s = false -> s = "".
Proof.
  unfold truthy. intros Hs. apply String.eqb_eq.
  by destruct (String.eqb s "").
Qed.

Lemma truthy_true s : s <> "" -> truthy s = true.
Proof.
  unfold truthy. intros Hs.
  destruct (String.eqb s "") eqn:E; [|done].
  by apply String.eqb_eq in E.
Qed.

Lemma shelves_alive_snoc l a :
  shelves_alive (l ++ [a]) = shelf_step (shelves_alive l) a.
Proof. unfold shelves_alive. by rewrite fold_left_app. Qed.

Lemma shelf_step_refused live c :
  shelf_step live {| UI.call := c; UI.answer := UI.Refused |} = live.
Proof. destruct c; try done. by destruct is_window. Qed.

Lemma shelf_step_found live c b :
  shelf_step live {| UI.call := c; UI.answer := UI.Found b |} = live.
Proof. destruct c; try done. by destruct is_window. Qed.

Lemma shelf_step_chosen live c l :
  shelf_step live {| UI.call := c; UI.answer := UI.Chosen l |} = live.
Proof. destruct c; try done. by destruct is_window. Qed.

Lemma shelf_step_named live c s :
  (forall w, c <> UI.scrollLayout w) ->
  shelf_step live {| UI.call := c; UI.answer := UI.Named s |} = live.
Proof.
  intros Hc. destruct c; try done; [by destruct is_window|].
  by destruct (Hc w).
Qed.

Lemma shelf_step_done live c :
  (forall p, c <> UI.deleteUI p false) ->
  shelf_step live {| UI.call := c; UI.answer := UI.Done |} = live.
Proof.
  intros Hc. destruct c; try done.
  destruct is_window; [done|]. by destruct (Hc path).
Qed.

Lemma remove_one_head p l : remove_one p (p :: l) = l.
Proof. simpl. by rewrite String.eqb_refl. Qed.

Lemma remove_one_elem p l : p ∈ l -> l ≡ₚ p :: remove_one p l.
Proof.
  induction l as [|q l IH]; [by intros ?%elem_of_nil|].
  intros Hin. simpl. destruct (String.eqb q p) eqn:E.
  - apply String.eqb_eq in E. by subst.
  - apply elem_of_cons in Hin as [->|Hin].
    + by rewrite String.eqb_refl in E.
    + rewrite (IH Hin) at 1. apply Permutation_swap.
Qed.

Lemma remove_one_perm p l l' : l ≡ₚ p :: l' -> remove_one p l ≡ₚ l'.
Proof.
  intros Hl. apply (Permutation_cons_inv (a:=p)).
  rewrite <- Hl. symmetry. apply remove_one_elem.
  rewrite Hl. apply elem_of_cons. by left.
Qed.

Lemma tidy_view win win' :
  shelves_view win' = shelves_view win -> tidy win -> tidy win'.
Proof.
  unfold shelves_view, tidy, shelves_on_record.
  by intros [= -> -> ->].
Qed.

Lemma quiet_keeps_tidy {A} (m : G H U A) : quiet m -> keeps tidy m.
Proof. intros Hm win. apply tidy_view, Hm. Qed.

Lemma keeps_bind {A B} (I : Window H U -> Prop) (m : G H U A)
    (k : A -> G H U B) :
  keeps I m -> (forall a, keeps I (k a)) -> keeps I (m ≫= k).
Proof.
  intros Hm Hk win HI. rewrite gbind_eq. specialize (Hm win HI).
  destruct (m win) as [[a|e] win']; [by apply Hk|done].
Qed.

Lemma quiet_bind {A B} (m : G H U A) (k : A -> G H U B) :
  quiet m -> (forall a, quiet (k a)) -> quiet (m ≫= k).
Proof.
  intros Hm Hk win. rewrite gbind_eq. specialize (Hm win).
  destruct (m win) as [[a|e] win']; simpl in *; [by rewrite Hk|done].
Qed.

Lemma quiet_ret {A} (a : A) : quiet (gret (H:=H) (U:=U) a).
Proof. by intros win. Qed.

Lemma quiet_field {A} (f : Window H U -> A) : quiet (field f).
Proof. by intros win. Qed.

Lemma quiet_assign (f : Window H U -> Window H U) :
  (forall win, shelves_view (f win) = shelves_view win) -> quiet (assign f).
Proof. intros Hf win. apply Hf. Qed.

Lemma quiet_lift {A} (m : M H A) : quiet (lift (U:=U) m).
Proof. intros win. unfold lift. by destruct (m (tool win)). Qed.

Lemma quiet_name c :
  (forall w, c <> UI.scrollLayout w) -> quiet (cmds_name (H:=H) gui c).
Proof.
  intros Hc win. unfold cmds_name, shelves_view.
  destruct (ui_name gui c (ui win)) as [[s|] u]; cbn [snd asked
    _materials_shelf_layout _texture_shelf_layout ui_log];
    rewrite shelves_alive_snoc.
  - by rewrite shelf_step_named.
  - by rewrite shelf_step_refused.
Qed.

Lemma quiet_ui c :
  (forall p, c <> UI.deleteUI p false) -> quiet (cmds_ui (H:=H) gui c).
Proof.
  intros Hc win. unfold cmds_ui, shelves_view.
  destruct (ui_exec gui c (ui win)) as [[] u]; cbn [snd asked
    _materials_shelf_layout _texture_shelf_layout ui_log];
    rewrite shelves_alive_snoc.
  - by rewrite shelf_step_done.
  - by rewrite shelf_step_refused.
Qed.

Lemma quiet_exists name : quiet (cmds_window_exists (H:=H) gui name).
Proof.
  intros win. unfold cmds_window_exists, shelves_view.
  destruct (ui_exists gui name (ui win)) as [[b|] u]; cbn [snd asked
    _materials_shelf_layout _texture_shelf_layout ui_log];
    by rewrite shelves_alive_snoc.
Qed.

Lemma quiet_dialog : quiet (cmds_fileDialog2 (H:=H) gui).
Proof.
  intros win. unfold cmds_fileDialog2, shelves_view.
  destruct (ui_folder gui (ui win)) as [[l|] u]; cbn [snd asked
    _materials_shelf_layout _texture_shelf_layout ui_log];
    by rewrite shelves_alive_snoc.
Qed.

Lemma quiet_for_each {A} (l : list A) (body : A -> G H U unit) :
  (forall x, quiet (body x)) -> quiet (for_each_g l body).
Proof.
  intros Hb. induction l as [|x l IH]; [apply quiet_ret|].
  simpl. apply quiet_bind; auto.
Qed.

Lemma quiet_collect {A B} (l : list A) (body : A -> G H U B) :
  (forall x, quiet (body x)) -> quiet (collect l body).
Proof.
  intros Hb. induction l as [|x l IH]; [apply quiet_ret|].
  simpl. apply quiet_bind; [done|]. intros y.
  apply quiet_bind; [done|]. intros ys. apply quiet_ret.
Qed.

Lemma quiet_element_of elements v :
  quiet (element_of (H:=H) (U:=U) elements v).
Proof.
  intros win. unfold element_of.
  by destruct (List.find _ elements).
Qed.

Ltac quiet_step :=
  first
    [ apply quiet_bind; [|intros ?]
    | apply quiet_ret
    | apply quiet_field
    | apply quiet_lift
    | apply quiet_exists
    | apply quiet_dialog
    | apply quiet_element_of
    | apply quiet_assign; by intros ?
    | apply quiet_name; by intros ?
    | apply quiet_ui; by intros ? ].

Lemma destroy_textures_tidy win r win' :
  _destroy_textures_shelf_layout gui win = (r, win') ->
  tidy win ->
  tidy win' /\
  _materials_shelf_layout win' = _materials_shelf_layout win /\
  (r = Ok tt -> _texture_shelf_layout win' = "").
Proof.
  unfold _destroy_textures_shelf_layout.
  rewrite gbind_eq. unfold field. cbn beta iota.
  destruct (truthy (_texture_shelf_layout win)) eqn:ET.
  - rewrite gbind_eq. unfold cmds_ui.
    destruct (ui_exec gui _ (ui win)) as [[] u]; cbn beta iota;
      intros [= <- <-] Ht.
    + split; [|done]. unfold tidy, shelves_on_record in *.
      cbn [asked with_texture_shelf _materials_shelf_layout
           _texture_shelf_layout ui_log].
      rewrite shelves_alive_snoc. cbn [shelf_step].
      apply remove_one_perm. rewrite Ht. cbn [List.filter]. rewrite ET.
      change (truthy "") with false.
      destruct (truthy (_materials_shelf_layout win)); [|done].
      apply Permutation_swap.
    + split; [|done]. eapply tidy_view; [|exact Ht].
      unfold shelves_view. cbn [asked _materials_shelf_layout
        _texture_shelf_layout ui_log].
      by rewrite shelves_alive_snoc, shelf_step_refused.
  - intros [= <- <-] Ht. split; [done|]. split; [done|].
    intros _. by apply truthy_false.
Qed.

Lemma destroy_materials_tidy win r win' :
  _destroy_materials_shelf_layout gui win = (r, win') ->
  tidy win ->
  tidy win' /\ (r = Ok tt -> _materials_shelf_layout win' = "").
Proof.
  unfold _destroy_materials_shelf_layout.
  rewrite gbind_eq. unfold field at 1. cbn beta iota.
  destruct (truthy (_materials_shelf_layout win)) eqn:EM.
  - rewrite gbind_eq.
    destruct (_destroy_textures_shelf_layout gui win) as [r1 win1] eqn:E1.
    intros Hrun Ht.
    destruct (destroy_textures_tidy _ _ _ E1 Ht) as (Ht1 & HM & HT).
    destruct r1 as [[]|e]; [|by injection Hrun as <- <-].
    specialize (HT eq_refl). revert Hrun.
    rewrite gbind_eq. unfold field. cbn beta iota.
    rewrite gbind_eq. unfold cmds_ui.
    destruct (ui_exec gui _ (ui win1)) as [[] u]; cbn beta iota;
      intros [= <- <-].
    + split; [|done]. unfold tidy, shelves_on_record in *.
      cbn [asked with_materials_shelf _materials_shelf_layout
           _texture_shelf_layout ui_log].
      rewrite shelves_alive_snoc. cbn [shelf_step].
      apply remove_one_perm. rewrite Ht1, HT, HM. cbn [List.filter].
      rewrite EM. by change (truthy "") with false.
    + split; [|done]. eapply tidy_view; [|exact Ht1].
      unfold shelves_view. cbn [asked _materials_shelf_layout
        _texture_shelf_layout ui_log].
      by rewrite shelves_alive_snoc, shelf_step_refused.
  - intros [= <- <-] Ht. split; [done|]. intros _. by apply truthy_false.
Qed.

Section Named.

(** The host never answers a request for a scroll layout with the empty
    path. *)
Hypothesis Hnamed : forall w u s u',
  ui_name gui (UI.scrollLayout w) u = (Some s, u') -> s <> "".

Lemma draw_textures_tidy material :
  keeps tidy (_draw_texture_shelf_layout (H:=H) gui material).
Proof.
  intros win Ht. unfold _draw_texture_shelf_layout. rewrite gbind_eq.
  destruct (_destroy_textures_shelf_layout gui win) as [r1 win1] eqn:E1.
  destruct (destroy_textures_tidy _ _ _ E1 Ht) as (Ht1 & _ & HT).
  destruct r1 as [[]|e]; [|done]. specialize (HT eq_refl).
  rewrite gbind_eq. unfold field at 1. cbn beta iota.
  rewrite gbind_eq.
  pose proof (quiet_name (UI.setParent (_main_column_split_layout win1))
                ltac:(done) win1) as Hq.
  destruct (cmds_name gui (UI.setParent _) win1) as [[s|e] win2];
    cbn [snd] in Hq; [|by eapply tidy_view].
  assert (Ht2 : tidy win2) by by eapply tidy_view.
  assert (HT2 : _texture_shelf_layout win2 = "").
  { injection Hq as _ -> _. done. }
  clear Hq. rewrite gbind_eq. unfold cmds_name at 1.
  destruct (ui_name gui (UI.scrollLayout 200) (ui win2)) as [[p|] u] eqn:Ep;
    cycle 1.
  { eapply tidy_view; [|exact Ht2]. unfold shelves_view.
    cbn [snd asked _materials_shelf_layout _texture_shelf_layout ui_log].
    by rewrite shelves_alive_snoc. }
  apply Hnamed in Ep. rewrite gbind_eq. unfold assign at 1. cbn beta iota.
  apply quiet_keeps_tidy.
  { quiet_step; [quiet_step|]. quiet_step; [|quiet_step].
    apply quiet_for_each. intros [name data]. unfold draw_texture.
    repeat quiet_step. }
  unfold tidy, shelves_on_record in *.
  cbn [asked with_texture_shelf _materials_shelf_layout
       _texture_shelf_layout ui_log].
  rewrite shelves_alive_snoc. cbn [shelf_step].
  rewrite Ht2, HT2. cbn [List.filter].
  rewrite (truthy_true p Ep). change (truthy "") with false.
  destruct (truthy (_materials_shelf_layout win2)); [|done].
  apply Permutation_swap.
Qed.

Lemma draw_materials_tidy :
  keeps tidy (_draw_materials_shelf_layout (H:=H) gui).
Proof.
  intros win Ht. unfold _draw_materials_shelf_layout.
  rewrite gbind_eq. unfold field at 1. cbn beta iota.
  rewrite gbind_eq. unfold assign at 1. cbn beta iota.
  set (win0 := with_buttons _ win).
  assert (Ht0 : tidy win0) by done.
  clearbody win0. rewrite gbind_eq.
  destruct (_destroy_materials_shelf_layout gui win0) as [r1 win1] eqn:E1.
  destruct (destroy_materials_tidy _ _ _ E1 Ht0) as (Ht1 & HM).
  destruct r1 as [[]|e]; [|done]. specialize (HM eq_refl).
  rewrite gbind_eq. unfold field at 1. cbn beta iota.
  rewrite gbind_eq.
  pose proof (quiet_name (UI.setParent (_main_column_split_layout win1))
                ltac:(done) win1) as Hq.
  destruct (cmds_name gui (UI.setParent _) win1) as [[s|e] win2];
    cbn [snd] in Hq; [|by eapply tidy_view].
  assert (Ht2 : tidy win2) by by eapply tidy_view.
  assert (HM2 : _materials_shelf_layout win2 = "").
  { injection Hq as -> _ _. done. }
  clear Hq. rewrite gbind_eq. unfold cmds_name at 1.
  destruct (ui_name gui (UI.scrollLayout 248) (ui win2)) as [[p|] u] eqn:Ep;
    cycle 1.
  { eapply tidy_view; [|exact Ht2]. unfold shelves_view.
    cbn [snd asked _materials_shelf_layout _texture_shelf_layout ui_log].
    by rewrite shelves_alive_snoc. }
  apply Hnamed in Ep. rewrite gbind_eq. unfold assign at 1. cbn beta iota.
  apply quiet_keeps_tidy.
  { quiet_step; [quiet_step|]. quiet_step; [|quiet_step].
    apply quiet_for_each. intros [name data]. unfold draw_material.
    repeat quiet_step. }
  unfold tidy, shelves_on_record in *.
  cbn [asked with_materials_shelf _materials_shelf_layout
       _texture_shelf_layout ui_log].
  rewrite shelves_alive_snoc. cbn [shelf_step].
  rewrite Ht2, HM2. cbn [List.filter].
  rewrite (truthy_true p Ep). by change (truthy "") with false.
Qed.

Lemma callback_tidy c state : keeps tidy (callback maya fl gui c state).
Proof.
  destruct c as [| |category|material|elements material button
                |material tex_name]; cbn [callback].
  - unfold _open_folder.
    apply keeps_bind; [apply quiet_keeps_tidy, quiet_dialog|].
    intros folder. apply keeps_bind.
    { apply quiet_keeps_tidy. destruct folder; repeat quiet_step. }
    intros _. apply keeps_bind; [apply draw_materials_tidy|].
    intros ?. apply quiet_keeps_tidy, quiet_ret.
  - apply quiet_keeps_tidy. unfold _import_selected.
    apply quiet_bind; [quiet_step|]. intros [|item mats]; [quiet_step|].
    apply quiet_bind; [quiet_step|]. intros answer.
    destruct (String.eqb answer "Yes"); quiet_step.
  - apply quiet_keeps_tidy.
    destruct (kind_checkbox_enabled category); quiet_step.
  - apply quiet_keeps_tidy, quiet_lift.
  - unfold on_material_button_pressed.
    apply keeps_bind; [apply quiet_keeps_tidy, quiet_field|].
    intros buttons. apply keeps_bind.
    { apply quiet_keeps_tidy, quiet_for_each. intros b. quiet_step. }
    intros _. apply keeps_bind; [apply draw_textures_tidy|].
    intros ?. apply quiet_keeps_tidy, quiet_ret.
  - apply quiet_keeps_tidy, quiet_lift.
Qed.

End Named.

Lemma quiet_open_window : quiet (open_window (H:=H) gui).
Proof.
  unfold open_window, _assemble_window, _draw_texture_import_options_box.
  apply quiet_bind; [quiet_step|]. intros there.
  apply quiet_bind; [destruct there; quiet_step|]. intros _.
  apply quiet_bind; [|intros ?; quiet_step].
  do 3 (apply quiet_bind; [quiet_step|]; intros ?).
  apply quiet_bind; [|intros ?; repeat quiet_step].
  do 2 (apply quiet_bind; [quiet_step|]; intros ?).
  apply quiet_bind; [|intros ?; repeat quiet_step].
  apply quiet_collect. intros [w v]. unfold draw_kind. repeat quiet_step.
Qed.

Lemma shelves_on_record_length win : length (shelves_on_record win) <= 2.
Proof.
  unfold shelves_on_record. cbn [List.filter].
  destruct (truthy _), (truthy _); simpl; lia.
Qed.

(** X24. No shelf leaks: provided the host never names a scroll layout with
    the empty path, after the window was opened and used in any way the
    scroll layouts made and not deleted since are the shelves the window
    has on record, so there are never more than two, whichever commands the
    host refused on the way. *)
Theorem shelves_never_leak (h : H) files (u : U) uses :
  (forall w u s u',
     ui_name gui (UI.scrollLayout w) u = (Some s, u') -> s <> "") ->
  shelves_alive (ui_log (script maya fl gui h files u uses))
    ≡ₚ shelves_on_record (script maya fl gui h files u uses) /\
  length (shelves_alive (ui_log (script maya fl gui h files u uses))) <= 2.
Proof.
  intros Hnamed.
  assert (Ht : tidy (script maya fl gui h files u uses)).
  { unfold script.
    assert (H0 : tidy (snd (open_window gui (new_window (init h files) u)))).
    { apply quiet_keeps_tidy; [apply quiet_open_window|].
      unfold tidy. reflexivity. }
    revert H0. generalize (snd (open_window gui (new_window (init h files) u))).
    induction uses as [|x uses IH]; intros win Hw; [done|].
    simpl. apply IH. destruct x; by apply callback_tidy. }
  split; [exact Ht|]. rewrite Ht. apply shelves_on_record_length.
Qed.

(** ** The buttons *)

Lemma new_asked_app win win' d :
  ui_log win' = ui_log win ++ d -> new_asked win win' = d.
Proof. unfold new_asked. intros ->. by rewrite drop_app_length. Qed.

(** X25. When the scan of the folder chosen raises, [_open_folder] raises
    the same exception right after it: the folder is on record and the tool
    is as the scan left it, with the entries added before the failure, but
    the material shelf is not drawn again; the user interface was asked
    nothing beside the dialog, and the shelves and their buttons are the
    old ones. *)
Theorem failed_scan_keeps_old_shelf win first rest u' e :
  ui_folder gui (ui win) = (Some (first :: rest), u') ->
  fst (load_materials_data fl first (tool win)) = Raise e ->
  fst (_open_folder fl gui win) = Raise e /\
  tool (snd (_open_folder fl gui win)) =
    snd (load_materials_data fl first (tool win)) /\
  _inspected_folder (snd (_open_folder fl gui win)) = first /\
  new_asked win (snd (_open_folder fl gui win)) =
    [{| UI.call := UI.fileDialog2;
        UI.answer := UI.Chosen (first :: rest) |}] /\
  _materials_shelf_layout (snd (_open_folder fl gui win)) =
    _materials_shelf_layout win /\
  _texture_shelf_layout (snd (_open_folder fl gui win)) =
    _texture_shelf_layout win /\
  button_elements (snd (_open_folder fl gui win)) = button_elements win.
Proof.
  intros Hd Hscan.
  assert (Hrun : _open_folder fl gui win =
    (Raise e,
     with_tool (snd (load_materials_data fl first (tool win)))
       (with_folder first
          (asked UI.fileDialog2 (UI.Chosen (first :: rest)) u' win)))).
  { unfold _open_folder. rewrite gbind_eq. unfold cmds_fileDialog2.
    rewrite Hd. rewrite gbind_eq. rewrite gbind_eq.
    unfold assign. cbn beta iota. rewrite gbind_eq.
    unfold field. cbn beta iota. unfold lift.
    cbn [with_folder asked tool _inspected_folder].
    destruct (load_materials_data fl first (tool win)) as [r t].
    simpl in Hscan. by subst r. }
  rewrite Hrun. cbn [fst snd]. repeat split.
  by apply new_asked_app.
Qed.

(** X26. The tool builds only after a confirmation: when [_import_selected]
    changes the tool in any way, the catalog was not empty and the dialog
    was answered with [Yes]. *)
Theorem import_only_after_yes win :
  tool (snd (_import_selected maya gui win)) <> tool win ->
  loaded_mats (tool win) <> [] /\
  exists u', ui_name gui UI.confirmDialog (ui win) = (Some "Yes", u').
Proof.
  unfold _import_selected. rewrite gbind_eq. unfold field. cbn beta iota.
  destruct (loaded_mats (tool win)) as [|item mats]; [done|].
  rewrite gbind_eq. unfold cmds_name.
  destruct (ui_name gui UI.confirmDialog (ui win)) as [[answer|] u];
    [|done].
  destruct (String.eqb answer "Yes") eqn:E; [|done].
  apply String.eqb_eq in E as ->. intros _. split; [done|]. by exists u.
Qed.

(** ** What the shelves show *)

Lemma destroy_textures_asks win r win' :
  _destroy_textures_shelf_layout gui win = (r, win') ->
  exists d,
    ui_log win' = ui_log win ++ d /\ Forall deletion d /\
    tool win' = tool win /\ button_elements win' = button_elements win /\
    _main_column_split_layout win' = _main_column_split_layout win.
Proof.
  unfold _destroy_textures_shelf_layout.
  rewrite gbind_eq. unfold field. cbn beta iota.
  destruct (truthy (_texture_shelf_layout win)).
  - rewrite gbind_eq. unfold cmds_ui.
    destruct (ui_exec gui _ (ui win)) as [[] u]; cbn beta iota;
      intros [= <- <-]; eexists [_]; (split; [done|]);
      (split; [|done]); apply Forall_singleton; by eexists.
  - intros [= <- <-]. exists []. by rewrite app_nil_r.
Qed.

Lemma destroy_materials_asks win r win' :
  _destroy_materials_shelf_layout gui win = (r, win') ->
  exists d,
    ui_log win' = ui_log win ++ d /\ Forall deletion d /\
    tool win' = tool win /\ button_elements win' = button_elements win /\
    _main_column_split_layout win' = _main_column_split_layout win.
Proof.
  unfold _destroy_materials_shelf_layout.
  rewrite gbind_eq. unfold field at 1. cbn beta iota.
  destruct (truthy (_materials_shelf_layout win)).
  - rewrite gbind_eq.
    destruct (_destroy_textures_shelf_layout gui win) as [r1 win1] eqn:E1.
    apply destroy_textures_asks in E1 as (d1 & Hl & Hd & Ht & Hb & Hs).
    destruct r1 as [[]|e]; [|intros [= <- <-]; by exists d1].
    rewrite gbind_eq. unfold field. cbn beta iota.
    rewrite gbind_eq. unfold cmds_ui.
    destruct (ui_exec gui _ (ui win1)) as [[] u]; cbn beta iota;
      intros [= <- <-]; eexists (d1 ++ [_]);
      cbn [assign asked with_materials_shelf ui_log tool button_elements
           _main_column_split_layout];
      (split; [by rewrite Hl, app_assoc|]); (split; [|done]);
      (apply Forall_app; split; [done|]); apply Forall_singleton;
      by eexists.
  - intros [= <- <-]. exists []. by rewrite app_nil_r.
Qed.

Lemma omap_deletions {B} (f : UI.Asked -> option B) d :
  (forall a, deletion a -> f a = None) -> Forall deletion d -> omap f d = [].
Proof.
  intros Hf. induction 1 as [|a d Ha _ IH]; [done|].
  simpl. by rewrite (Hf a Ha).
Qed.

Lemma material_toggle_deletion a : deletion a -> material_toggle a = None.
Proof. unfold material_toggle. by intros [path ->]. Qed.

Lemma material_button_deletion a : deletion a -> material_button a = None.
Proof. destruct a as [c r]. by intros [path [= ->]]. Qed.

Lemma texture_toggle_deletion a : deletion a -> texture_toggle a = None.
Proof. unfold texture_toggle. by intros [path ->]. Qed.

Lemma draw_material_run elements name data win win' :
  draw_material gui elements (name, data) win = (Ok tt, win') ->
  exists d button,
    ui_log win' = ui_log win ++ d /\
    omap material_toggle d = [(name, mat_import data)] /\
    omap material_button d = [(button, elements, name, button)] /\
    button_elements win' =
      alter (fun l => l ++ [button]) elements (button_elements win) /\
    tool win' = tool win.
Proof.
  unfold draw_material.
  rewrite gbind_eq. unfold cmds_name at 1.
  destruct (ui_name gui _ (ui win)) as [[s1|] u1]; [|done].
  rewrite gbind_eq. unfold cmds_name at 1. cbn [ui asked].
  destruct (ui_name gui _ u1) as [[s2|] u2]; [|done].
  rewrite gbind_eq. unfold cmds_name at 1. cbn [ui asked].
  destruct (ui_name gui _ u2) as [[button|] u3]; [|done].
  rewrite gbind_eq. unfold cmds_ui at 1. cbn [ui asked].
  destruct (ui_exec gui _ u3) as [[] u4]; [|done].
  rewrite gbind_eq. unfold assign. cbn beta iota.
  rewrite gbind_eq. unfold field. cbn beta iota.
  rewrite gbind_eq. unfold cmds_name at 1. cbn [ui asked with_buttons].
  destruct (ui_name gui _ u4) as [[s5|] u5]; [|done].
  intros [= <-]. eexists [_; _; _; _; _], button.
  cbn [asked with_buttons ui_log tool button_elements].
  split; [by rewrite <- !app_assoc|]. done.
Qed.

Lemma draw_materials_loop elements mats : forall win win',
  for_each_g mats (draw_material gui elements) win = (Ok tt, win') ->
  exists d buttons,
    ui_log win' = ui_log win ++ d /\
    omap material_toggle d =
      map (fun item => (fst item, mat_import (snd item))) mats /\
    omap material_button d =
      map (fun nb => (snd nb, elements, fst nb, snd nb))
        (zip (Dict.keys mats) buttons) /\
    length buttons = length mats /\
    button_elements win' =
      alter (fun l => l ++ buttons) elements (button_elements win) /\
    tool win' = tool win.
Proof.
  induction mats as [|[name data] mats IH]; intros win win'.
  - intros [= <-]. exists [], []. rewrite app_nil_r.
    repeat split. symmetry. apply list_alter_id. intros l. apply app_nil_r.
  - cbn [for_each_g]. rewrite gbind_eq.
    destruct (draw_material gui elements (name, data) win)
      as [[[]|e] win1] eqn:E1; [|done].
    apply draw_material_run in E1 as (d1 & button & Hl1 & Ht1 & Hb1 & He1 & Hw1).
    intros (d2 & buttons & Hl2 & Ht2 & Hb2 & Hn2 & He2 & Hw2)%IH.
    exists (d1 ++ d2), (button :: buttons).
    rewrite !omap_app, Ht1, Ht2, Hb1, Hb2, Hl2, Hl1, He2, He1, Hw2, Hw1.
    repeat split.
    + by rewrite app_assoc.
    + simpl. by rewrite Hn2.
    + rewrite list_alter_alter_eq. apply list_alter_ext; [|done].
      intros l _. simpl. by rewrite <- app_assoc.
Qed.

(** X27. The material shelf shows the catalog: when it was drawn, the user
    interface was asked for one check box per material of the catalog, in
    the order of the catalog, showing the import tag of the material and
    bound to its entry, and for one button per material, bound to the
    material, to itself and to the list of this draw, which holds these
    buttons in the end; the path returned is the shelf on record. *)
Theorem material_shelf_shows_catalog win shelf win' :
  _draw_materials_shelf_layout gui win = (Ok shelf, win') ->
  exists buttons,
    omap material_toggle (new_asked win win') =
      map (fun item => (fst item, mat_import (snd item)))
        (loaded_mats (tool win)) /\
    omap material_button (new_asked win win') =
      map (fun nb => (snd nb, length (button_elements win), fst nb, snd nb))
        (zip (Dict.keys (loaded_mats (tool win))) buttons) /\
    length buttons = length (loaded_mats (tool win)) /\
    button_elements win' = button_elements win ++ [buttons] /\
    shelf = _materials_shelf_layout win' /\
    tool win' = tool win.
Proof.
  unfold _draw_materials_shelf_layout.
  rewrite gbind_eq. unfold field at 1. cbn beta iota.
  rewrite gbind_eq. unfold assign at 1. cbn beta iota.
  rewrite gbind_eq.
  destruct (_destroy_materials_shelf_layout gui _) as [r1 win1] eqn:E1.
  apply destroy_materials_asks in E1 as (d1 & Hl1 & Hd1 & Ht1 & Hb1 & _).
  cbn [with_buttons ui_log tool button_elements] in Hl1, Ht1, Hb1.
  destruct r1 as [[]|e]; [|done].
  rewrite gbind_eq. unfold field at 1. cbn beta iota.
  rewrite gbind_eq. unfold cmds_name at 1.
  destruct (ui_name gui _ (ui win1)) as [[s2|] u2]; [|done].
  rewrite gbind_eq. unfold cmds_name at 1. cbn [ui asked].
  destruct (ui_name gui _ u2) as [[s3|] u3]; [|done].
  rewrite gbind_eq. unfold assign at 1. cbn beta iota.
  rewrite gbind_eq. unfold field at 1. cbn beta iota.
  cbn [with_materials_shelf asked tool]. rewrite gbind_eq.
  destruct (for_each_g _ _ _) as [[[]|e] win4] eqn:E4; [|done].
  apply draw_materials_loop in E4
    as (d4 & buttons & Hl4 & Ht4 & Hb4 & Hn4 & He4 & Hw4).
  cbn [with_materials_shelf asked ui_log tool button_elements] in *.
  intros [= <- <-]. exists buttons.
  rewrite Hl1 in Hl4. rewrite <- !app_assoc in Hl4.
  rewrite (new_asked_app _ _ _ Hl4), !omap_app. cbn [omap list_omap].
  rewrite (omap_deletions material_toggle d1 material_toggle_deletion Hd1).
  rewrite (omap_deletions material_button d1 material_button_deletion Hd1).
  rewrite Ht4, Hb4, Ht1, Hn4, He4, Hb1, Hw4, Ht1.
  repeat split.
  rewrite <- (Nat.add_0_r (length (button_elements win))).
  by rewrite alter_app_r.
Qed.

Lemma draw_textures_loop material textures : forall win win',
  for_each_g textures (draw_texture gui material) win = (Ok tt, win') ->
  exists d,
    ui_log win' = ui_log win ++ d /\
    omap texture_toggle d =
      map (fun item =>
             (material, fst item, tex_file (snd item), tex_import (snd item)))
        textures /\
    _texture_shelf_layout win' = _texture_shelf_layout win /\
    tool win' = tool win.
Proof.
  induction textures as [|[name data] textures IH]; intros win win'.
  - intros [= <-]. exists []. by rewrite app_nil_r.
  - cbn [for_each_g]. rewrite gbind_eq. unfold draw_texture at 1.
    rewrite gbind_eq. unfold cmds_name at 1.
    destruct (ui_name gui _ (ui win)) as [[s1|] u1]; [|done].
    rewrite gbind_eq. unfold cmds_name at 1. cbn [ui asked].
    destruct (ui_name gui _ u1) as [[s2|] u2]; [|done].
    cbn beta iota.
    intros (d2 & Hl2 & Ht2 & Hs2 & Hw2)%IH.
    cbn [asked ui_log tool _texture_shelf_layout] in *.
    rewrite <- !app_assoc in Hl2.
    eexists. split; [exact Hl2|]. rewrite !omap_app, Ht2. done.
Qed.

(** X28. The texture shelf shows the textures of the material it was drawn
    for: the user interface was asked for one check box per texture of the
    material, in the order of its entry, with the file of the texture as
    image, showing the import tag of the texture and bound to its entry;
    the path returned is the shelf on record and the tool is as before. *)
Theorem texture_shelf_shows_material win material entry shelf win' :
  Dict.get (loaded_mats (tool win)) material = Some entry ->
  _draw_texture_shelf_layout gui material win = (Ok shelf, win') ->
  omap texture_toggle (new_asked win win') =
    map (fun item =>
           (material, fst item, tex_file (snd item), tex_import (snd item)))
      (mat_textures entry) /\
  shelf = _texture_shelf_layout win' /\
  tool win' = tool win.
Proof.
  intros Hentry. unfold _draw_texture_shelf_layout.
  rewrite gbind_eq.
  destruct (_destroy_textures_shelf_layout gui win) as [r1 win1] eqn:E1.
  apply destroy_textures_asks in E1 as (d1 & Hl1 & Hd1 & Ht1 & _).
  destruct r1 as [[]|e]; [|done].
  rewrite gbind_eq. unfold field at 1. cbn beta iota.
  rewrite gbind_eq. unfold cmds_name at 1.
  destruct (ui_name gui _ (ui win1)) as [[s2|] u2]; [|done].
  rewrite gbind_eq. unfold cmds_name at 1. cbn [ui asked].
  destruct (ui_name gui _ u2) as [[s3|] u3]; [|done].
  rewrite gbind_eq. unfold assign at 1. cbn beta iota.
  rewrite gbind_eq. unfold field at 1. cbn beta iota.
  cbn [with_texture_shelf asked tool]. rewrite Ht1, Hentry, gbind_eq.
  destruct (for_each_g _ _ _) as [[[]|e] win4] eqn:E4; [|done].
  apply draw_textures_loop in E4 as (d4 & Hl4 & Ht4 & Hs4 & Hw4).
  cbn [with_texture_shelf asked ui_log tool _texture_shelf_layout] in *.
  intros [= <- <-].
  rewrite Hl1 in Hl4. rewrite <- !app_assoc in Hl4.
  rewrite (new_asked_app _ _ _ Hl4), !omap_app. cbn [omap list_omap].
  rewrite (omap_deletions texture_toggle d1 texture_toggle_deletion Hd1).
  rewrite Ht4, Hw4, Ht1. done.
Qed.

(** ** The options box *)

Ltac ask_name :=
  rewrite gbind_eq; unfold cmds_name at 1; cbn [ui asked];
  destruct (ui_name gui _ _) as [[?s|] ?u]; cbn beta iota;
  [|by intros [= <- <-]].

Ltac ask_ui :=
  rewrite gbind_eq; unfold cmds_ui at 1; cbn [ui asked];
  destruct (ui_exec gui _ _) as [[] ?u]; cbn beta iota;
  [|by intros [= <- <-]].

Lemma collect_kinds_run l : forall win r win',
  collect l (draw_kind gui) win = (r, win') ->
  r <> Raise KeyError /\
  forall elements, r = Ok elements ->
    map fst elements = map snd l /\
    exists d,
      ui_log win' = ui_log win ++ d /\
      omap kind_checkbox d = elements /\
      omap disabled_element d = [].
Proof.
  induction l as [|[w v] l IH]; intros win r win'.
  - intros [= <- <-]. split; [done|]. intros ? [= <-]. split; [done|].
    exists []. by rewrite app_nil_r.
  - cbn [collect]. rewrite gbind_eq. unfold draw_kind at 1.
    rewrite gbind_eq. unfold cmds_name at 1.
    destruct (ui_name gui _ (ui win)) as [[element|] u]; cbn beta iota;
      [|by intros [= <- <-]].
    unfold gret at 1. cbn beta iota. rewrite gbind_eq.
    destruct (collect l (draw_kind gui) _) as [r1 win1] eqn:E1.
    apply IH in E1 as [Hk Hok].
    destruct r1 as [elements|e]; [|by intros [= <- <-]].
    intros [= <- <-]. split; [done|]. intros ? [= <-].
    destruct (Hok elements eq_refl) as (Hfst & d & Hl & Hc & Hd).
    split; [simpl; by rewrite Hfst|].
    cbn [asked ui_log] in Hl. rewrite <- app_assoc in Hl.
    eexists. split; [exact Hl|]. rewrite !omap_app, Hc, Hd. done.
Qed.

Lemma options_box_run win r win' :
  _draw_texture_import_options_box gui win = (r, win') ->
  r <> Raise KeyError /\
  forall root, r = Ok root ->
    exists e1 e2 e3 e4 e5 e6,
      omap kind_checkbox (new_asked win win') =
        [(BaseColor, e1); (Metallic, e2); (Normal, e3); (Roughness, e4);
         (Emissive, e5); (Height, e6)] /\
      omap disabled_element (new_asked win win') = [e5; e6].
Proof.
  unfold _draw_texture_import_options_box.
  do 2 ask_name. rewrite gbind_eq.
  destruct (collect _ (draw_kind gui) _) as [r1 win1] eqn:E1.
  apply collect_kinds_run in E1 as [Hk Hok].
  destruct r1 as [elements|e];
    [|intros [= <- <-]; split; [intros [= ->]; by apply Hk|done]].
  destruct (Hok elements eq_refl) as (Hfst & d & Hl & Hc & Hd).
  clear Hk Hok. cbn [asked ui_log] in Hl.
  destruct elements as [|[k1 e1] [|[k2 e2] [|[k3 e3] [|[k4 e4] [|[k5 e5]
    [|[k6 e6] [|]]]]]]]; try discriminate Hfst.
  injection Hfst as -> -> -> -> -> ->.
  rewrite gbind_eq.
  change (element_of _ Emissive ?w) with (@Ok string e5, w). cbn beta iota.
  ask_ui. rewrite gbind_eq.
  change (element_of _ Height ?w) with (@Ok string e6, w). cbn beta iota.
  ask_ui. do 2 ask_name.
  intros [= <- <-]. split; [done|]. intros root _.
  exists e1, e2, e3, e4, e5, e6.
  erewrite new_asked_app; cycle 1.
  { cbn [asked ui_log]. rewrite Hl, <- !app_assoc. reflexivity. }
  rewrite !omap_app, Hc, Hd. done.
Qed.

(** X29. The options box never raises [KeyError], and when it was drawn the
    user interface was asked for one check box per kind of texture, in the
    order of the enumeration, each switched on and bound to [toggle] for its
    kind; the elements disabled afterwards are those made for the kinds that
    are not implemented, [Emissive] and [Height], and no other. The tool is
    not touched. *)
Theorem options_box_disables_unimplemented win :
  fst (_draw_texture_import_options_box gui win) <> Raise KeyError /\
  tool (snd (_draw_texture_import_options_box gui win)) = tool win /\
  forall root,
    fst (_draw_texture_import_options_box gui win) = Ok root ->
    let asked_for :=
      new_asked win (snd (_draw_texture_import_options_box gui win)) in
    map fst (omap kind_checkbox asked_for) = TexType_members /\
    omap disabled_element asked_for =
      map snd
        (List.filter (fun item => negb (kind_checkbox_enabled (fst item)))
           (omap kind_checkbox asked_for)).
Proof.
  split; [|split; [apply keeps_tool_options_box|]].
  - eapply options_box_run, surjective_pairing.
  - intros root Hroot.
    destruct (options_box_run win _ _ (surjective_pairing _)) as [_ Hok].
    destruct (Hok root Hroot) as (e1 & e2 & e3 & e4 & e5 & e6 & Hc & Hd).
    cbv zeta. by rewrite Hc, Hd.
Qed.

End WindowFacts.

(** ** The window on the hosts for experiments *)

Section WindowSessions.

Import OsPath FakeMaya FakeUI.

Lemma shelves_never_leak_witness :
  let win :=
    script maya posixpath gui [] (folder ["Mesh_Rock_mat_BaseColor.png"])
      ""
      [press UI.open_folder;
       press (UI.on_material_button_pressed 0 "Rock" "ui1111111111");
       press UI.open_folder] in
  shelves_alive (ui_log win) ≡ₚ shelves_on_record win ∧
  length (shelves_alive (ui_log win)) <= 2.
Proof.
  intros win. apply (shelves_never_leak maya posixpath gui).
  intros w u s u' [= <- _]. done.
Defined.

Lemma failed_scan_keeps_old_shelf_witness :
  let win :=
    new_window (start [] ["Mesh_Rock_mat_BaseColor.png";
                          "Mesh_Rock_mat_matte.png"]) "" in
  fst (_open_folder posixpath gui win) = Raise ValueError ∧
  Dict.keys (loaded_mats (tool (snd (_open_folder posixpath gui win))))
    = ["Rock"] ∧
  new_asked win (snd (_open_folder posixpath gui win)) =
    [{| UI.call := UI.fileDialog2; UI.answer := UI.Chosen ["/tex"] |}].
Proof.
  intros win.
  destruct (failed_scan_keeps_old_shelf posixpath gui win "/tex" [] ""
              ValueError eq_refl eq_refl)
    as (Hr & Ht & _ & Hn & _).
  split; [exact Hr|]. split; [|exact Hn].
  rewrite Ht. reflexivity.
Defined.

Lemma import_only_after_yes_witness :
  let win := window_on [("A", {| mat_textures := []; mat_import := true |})] in
  loaded_mats (tool win) <> [] ∧
  ∃ u', ui_name gui UI.confirmDialog (ui win) = (Some "Yes", u').
Proof.
  intros win. apply (import_only_after_yes maya).
  intros Heq. apply (f_equal (fun w => length (log w))) in Heq.
  vm_compute in Heq. discriminate Heq.
Defined.

Lemma material_shelf_shows_catalog_witness :
  let win :=
    window_on [("A", {| mat_textures := []; mat_import := true |});
               ("B", {| mat_textures := []; mat_import := false |})] in
  let win' := snd (_draw_materials_shelf_layout gui win) in
  fst (_draw_materials_shelf_layout gui win) = Ok "ui1" ∧
  omap material_toggle (new_asked win win') = [("A", true); ("B", false)] ∧
  button_elements win' = [["ui1111"; "ui11111111"]].
Proof.
  intros win win'.
  assert (Hrun : _draw_materials_shelf_layout gui win = (Ok "ui1", win'))
    by (vm_compute; reflexivity).
  destruct (material_shelf_shows_catalog gui win "ui1" win' Hrun)
    as (buttons & Ht & _ & _ & Hb & _).
  split; [by rewrite Hrun|]. split; [exact Ht|]. vm_compute. reflexivity.
Defined.

Lemma texture_shelf_shows_material_witness :
  let entry :=
    {| mat_textures :=
         [("BaseColor",
           {| tex_file := "/tex/Mesh_A_mat_BaseColor.png";
              tex_import := true |});
          ("Normal",
           {| tex_file := "/tex/Mesh_A_mat_Normal.png";
              tex_import := false |})];
       mat_import := true |} in
  let win := window_on [("A", entry)] in
  let win' := snd (_draw_texture_shelf_layout gui "A" win) in
  omap texture_toggle (new_asked win win') =
    [("A", "BaseColor", "/tex/Mesh_A_mat_BaseColor.png", true);
     ("A", "Normal", "/tex/Mesh_A_mat_Normal.png", false)].
Proof.
  intros entry win win'.
  assert (Hrun : _draw_texture_shelf_layout gui "A" win = (Ok "ui1", win'))
    by (vm_compute; reflexivity).
  exact (proj1 (texture_shelf_shows_material gui win "A" entry "ui1"
                  win' eq_refl Hrun)).
Defined.

Lemma options_box_disables_unimplemented_witness :
  let win := window_on [] in
  let win' := snd (_draw_texture_import_options_box gui win) in
  fst (_draw_texture_import_options_box gui win) = Ok "ui1" ∧
  map fst (omap kind_checkbox (new_asked win win')) = TexType_members ∧
  omap disabled_element (new_asked win win') =
    map snd
      (List.filter (fun item => negb (kind_checkbox_enabled (fst item)))
         (omap kind_checkbox (new_asked win win'))).
Proof.
  intros win win'.
  assert (Hrun : fst (_draw_texture_import_options_box gui win) = Ok "ui1")
    by (vm_compute; reflexivity).
  split; [exact Hrun|].
  exact (proj2 (proj2 (options_box_disables_unimplemented gui win))
           "ui1" Hrun).
Defined.

End WindowSessions.
